(** * Conversation state synchronisation core of the chat client

    A shallow embedding of the record transform layer
    ([lib/dataTransforms]) and of the chat-state hook ([useChat]), with the
    properties of the specification proved or refuted on it.

    Modelling conventions.
    - A JavaScript string is a [string]; each character stands for one code
      unit, so [String.length] is [.length] and [substring] is
      [.substring].  A string is falsy exactly when it is empty.
    - A [Date] holds a time value in milliseconds, or is the invalid date
      (time value [NaN]).
    - The JavaScript runtime ([new Date(s)], [toISOString], [JSON.parse],
      [JSON.stringify], the comparison of a JSON value with a number) is an
      interface, class [Runtime]; module [Reference] gives one
      implementation of it.
    - The SDK client ([blink.db], [blink.ai]), the clock and the random
      source of [generateId] form the environment, record [Env]; every
      consultation of the environment is numbered, so that the same call may
      succeed once and fail later.
    - [console.log] and friends are diagnostics and are left out, and so is
      [stopGeneration], whose abort controller is never set.
    - What [JSON.parse] returns is a JSON value, type [Json], whatever type
      the code gives it: the [sources] of a message read from a record are
      the value its column holds, an array of strings or not. *)

From Stdlib Require Import String Ascii List ZArith Bool Arith Lia.
Import ListNotations.
Local Open Scope string_scope.
Local Open Scope list_scope.

(** ** JavaScript values *)

(** [!s] for a string. *)
Definition falsy (s : string) : bool :=
  match s with
  | EmptyString => true
  | String _ _ => false
  end.

(** A [Date] object: its time value in milliseconds since the epoch, or the
    invalid date. *)
Inductive Date :=
| DateAt (ms : Z)
| InvalidDate.

(** [isNaN(date.getTime())] *)
Definition isNaN_getTime (d : Date) : bool :=
  match d with
  | DateAt _ => false
  | InvalidDate => true
  end.

(** What a [throw] carries.  The handlers of this program never inspect it. *)
Inductive Exn :=
| RangeError      (* toISOString on an invalid date *)
| TypeError       (* a property of null, a call of what is no function *)
| RemoteError.    (* a rejected SDK promise *)

Inductive Outcome (A : Type) :=
| Returned (a : A)
| Thrown (e : Exn).
Arguments Returned {A} a.
Arguments Thrown {A} e.

(** A number as [JSON.parse] returns it: a finite double, written
    [mantissa * 2 ^ exponent], or an infinity (a literal out of range, as
    [1e999]).  The two zeros are one here: nothing in this program tells
    them apart. *)
Inductive Number :=
| Finite (mantissa exponent : Z)
| Infinite (negative : bool).

#[local] Unset Elimination Schemes.

(** A value as [JSON.parse] returns it.  An object lists its own
    properties, each once. *)
Inductive Json :=
| JNull
| JBool (b : bool)
| JNumber (n : Number)
| JString (s : string)
| JArray (items : list Json)
| JObject (members : list (string * Json)).

#[local] Set Elimination Schemes.

(** A [string[]]. *)
Definition strings (l : list string) : Json := JArray (map JString l).

(** [!!v] *)
Definition truthy (v : Json) : bool :=
  match v with
  | JNull => false
  | JBool b => b
  | JNumber (Finite mantissa _) => negb (mantissa =? 0)%Z
  | JNumber (Infinite _) => true
  | JString s => negb (falsy s)
  | JArray _ | JObject _ => true
  end.

(** [o[key]] for an object of [JSON.parse]; [None] is [undefined]. *)
Fixpoint member (key : string) (members : list (string * Json)) : option Json :=
  match members with
  | [] => None
  | (k, v) :: rest => if (k =? key)%string then Some v else member key rest
  end.

(** The built-ins of the runtime the code calls.
    [Date_parse s] is [new Date(s)]; [Date_toISOString ms] is
    [d.toISOString()] for a valid date; [JSON_parse s] is [JSON.parse(s)],
    [None] when it throws; [JSON_stringify v] is [JSON.stringify(v)];
    [greaterThanZero v] is [v > 0], which converts [v] to a number first and
    throws when the conversion does. *)
Class Runtime := {
  Date_parse : string -> Date;
  Date_toISOString : Z -> string;
  JSON_parse : string -> option Json;
  JSON_stringify : Json -> string;
  greaterThanZero : Json -> Outcome bool
}.

(** [v.length > 0] for a value of [JSON.parse]: [null] has no properties,
    a boolean or a number has no [length] and [undefined > 0] is false, a
    string and an array have their length, and an object has the [length]
    it was given, if any. *)
Definition lengthAboveZero `{Runtime} (v : Json) : Outcome bool :=
  match v with
  | JNull => Thrown TypeError
  | JBool _ | JNumber _ => Returned false
  | JString s => Returned (0 <? String.length s)%nat
  | JArray items => Returned (0 <? List.length items)%nat
  | JObject members =>
      match member "length" members with
      | Some l => greaterThanZero l
      | None => Returned false
      end
  end.

(** [d.toISOString()]: a [RangeError] on the invalid date. *)
Definition toISOString `{Runtime} (d : Date) : Outcome string :=
  match d with
  | DateAt ms => Returned (Date_toISOString ms)
  | InvalidDate => Thrown RangeError
  end.

(** ** Domain entities ([types/chat.ts]) *)

Inductive MessageType := user | assistant.

Definition MessageType_eqb (a b : MessageType) : bool :=
  match a, b with
  | user, user | assistant, assistant => true
  | _, _ => false
  end.

Module Message.
Record t := mk {
  id : string;
  type : MessageType;
  content : string;
  timestamp : Date;
  isLoading : option bool;          (* isLoading?: boolean *)
  sources : option Json             (* sources?: string[] *)
}.
End Message.

Module Conversation.
Record t := mk {
  id : string;
  title : string;
  messages : list Message.t;
  createdAt : Date;
  updatedAt : Date
}.
End Conversation.

(** ** Persistent records ([DbConversation], [DbMessage])

    The fields handed to [parseDate] and [parseJsonSafely] may be absent,
    as the signatures of those two functions say: [None] is [null], what
    the store answers for a column without a value. *)

Module DbConversation.
Record t := mk {
  id : string;
  user_id : string;
  title : string;
  created_at : option string;
  updated_at : option string
}.
End DbConversation.

Module DbMessage.
Record t := mk {
  id : string;
  conversation_id : string;
  user_id : string;
  type : string;
  content : string;
  timestamp : option string;
  sources : option string
}.
End DbMessage.

(** What [createDbConversation] returns: a conversation record without its
    dates, which the store fills in. *)
Module NewDbConversation.
Record t := mk {
  id : string;
  user_id : string;
  title : string
}.
End NewDbConversation.

(** ** Record transform layer *)

Section Transforms.
Context `{Runtime}.

(** [parseDate]: [null] for an absent, empty or unparsable string. *)
Definition parseDate (dateString : option string) : option Date :=
  match dateString with
  | None => None
  | Some s =>
      if falsy s then None
      else
        let date := Date_parse s in
        if isNaN_getTime date then None else Some date
  end.

(** [parseJsonSafely]: the fallback for an absent or empty string and when
    [JSON.parse] throws, and else whatever [JSON.parse] returns. *)
Definition parseJsonSafely (jsonString : option string) (fallback : Json) : Json :=
  match jsonString with
  | None => fallback
  | Some s =>
      if falsy s then fallback
      else
        match JSON_parse s with
        | Some v => v
        | None => fallback
        end
  end.

(** [a || b] on a nullable date. *)
Definition or_else (a : option Date) (b : Date) : Date :=
  match a with
  | Some d => d
  | None => b
  end.

(** [transformDbConversation]; [now] is the [new Date()] it reads. *)
Definition transformDbConversation (now : Date) (dbConversation : DbConversation.t)
  : option Conversation.t :=
  if falsy (DbConversation.id dbConversation)
     || falsy (DbConversation.title dbConversation)
  then None
  else
    let createdAt := parseDate (DbConversation.created_at dbConversation) in
    let updatedAt := parseDate (DbConversation.updated_at dbConversation) in
    Some {| Conversation.id := DbConversation.id dbConversation;
            Conversation.title := DbConversation.title dbConversation;
            Conversation.messages := [];
            Conversation.createdAt := or_else createdAt now;
            Conversation.updatedAt := or_else updatedAt now |}.

(** [transformDbMessage]; the [catch] of the function turns a throw of
    [sources.length] into the absence value. *)
Definition transformDbMessage (dbMessage : DbMessage.t) : option Message.t :=
  if falsy (DbMessage.id dbMessage)
     || falsy (DbMessage.content dbMessage)
     || falsy (DbMessage.type dbMessage)
  then None
  else if negb (DbMessage.type dbMessage =? "user")
          && negb (DbMessage.type dbMessage =? "assistant")
  then None
  else
    match parseDate (DbMessage.timestamp dbMessage) with
    | None => None
    | Some timestamp =>
        let sources := parseJsonSafely (DbMessage.sources dbMessage) (JArray []) in
        match lengthAboveZero sources with
        | Thrown _ => None
        | Returned nonEmpty =>
            Some {| Message.id := DbMessage.id dbMessage;
                    Message.type :=
                      if DbMessage.type dbMessage =? "user" then user else assistant;
                    Message.content := DbMessage.content dbMessage;
                    Message.timestamp := timestamp;
                    Message.isLoading := None;
                    Message.sources := if nonEmpty then Some sources else None |}
        end
    end.

(** [transformDbConversations]: the loop pushes every record that
    transforms; [now i] is the clock as iteration [i] reads it. *)
Definition transformDbConversations (now : nat -> Date)
  (dbConversations : list DbConversation.t) : list Conversation.t :=
  snd (fold_left
         (fun (st : nat * list Conversation.t) dbConvo =>
            let (i, transformedConversations) := st in
            match transformDbConversation (now i) dbConvo with
            | Some transformed => (S i, transformedConversations ++ [transformed])
            | None => (S i, transformedConversations)
            end)
         dbConversations (0, [])).

(** [transformDbMessages] *)
Definition transformDbMessages (dbMessages : list DbMessage.t) : list Message.t :=
  fold_left
    (fun transformedMessages dbMessage =>
       match transformDbMessage dbMessage with
       | Some transformed => transformedMessages ++ [transformed]
       | None => transformedMessages
       end)
    dbMessages [].

(** [createDbConversation] *)
Definition createDbConversation (id userId title : string) : NewDbConversation.t :=
  {| NewDbConversation.id := id;
     NewDbConversation.user_id := userId;
     NewDbConversation.title := title |}.

(** The [type] column of a message. *)
Definition MessageType_to_string (t : MessageType) : string :=
  match t with
  | user => "user"
  | assistant => "assistant"
  end.

(** [message.sources && message.sources.length > 0] *)
Definition hasSources (message : Message.t) : Outcome bool :=
  match Message.sources message with
  | Some sources => if truthy sources then lengthAboveZero sources else Returned false
  | None => Returned false
  end.

(** [createDbMessage]: throws when the timestamp is the invalid date. *)
Definition createDbMessage (message : Message.t) (conversationId userId : string)
  : Outcome DbMessage.t :=
  match hasSources message with
  | Thrown e => Thrown e
  | Returned some =>
      let sourcesJson :=
        match Message.sources message with
        | Some sources => if some then Some (JSON_stringify sources) else None
        | None => None
        end in
      match toISOString (Message.timestamp message) with
      | Thrown e => Thrown e
      | Returned iso =>
          Returned {| DbMessage.id := Message.id message;
                      DbMessage.conversation_id := conversationId;
                      DbMessage.user_id := userId;
                      DbMessage.type := MessageType_to_string (Message.type message);
                      DbMessage.content := Message.content message;
                      DbMessage.timestamp := Some iso;
                      DbMessage.sources := sourcesJson |}
      end
  end.

End Transforms.

(** ** The chat-state hook: state, environment, effects *)

Module User.
Record t := mk {
  id : string;
  email : string
}.
End User.

(** The [useState] cells of [useChat]. *)
Module State.
Record t := mk {
  conversations : list Conversation.t;
  currentConversationId : option string;
  isLoading : bool;
  user : option User.t;
  isAuthenticated : bool;
  initialized : bool
}.
End State.

(** One entry of the message sequence sent to the generation provider. *)
Module AiMessage.
Record t := mk {
  role : string;
  content : string
}.
End AiMessage.

(** What the program does to the outside, in the order it does it: the
    calls it issues (whether they then succeed or not) and the toasts. *)
Inductive Event :=
| DbConversationsCreate (record : NewDbConversation.t)
| DbConversationsUpdate (id title : string)
| DbConversationsDelete (id : string)
| DbMessagesList (conversation_id : string)
| DbMessagesCreate (record : DbMessage.t)
| DbMessagesDelete (id : string)
| AiStreamText (messages : list AiMessage.t)
| Toast (title description variant : string).

(** The environment.  The first argument of every field is the number of
    the consultation, so an answer may depend on when the question is asked.
    [ai_streamText] answers with the chunks it feeds to the callback and
    with how the call ends: rejected, or resolved with [result?.sources].
    [Date_now] is the time value of [new Date()]; [generateId_at] is what
    [generateId] builds from [Math.random()] and [Date.now()]. *)
Record Env := {
  db_conversations_create : nat -> NewDbConversation.t -> Outcome DbConversation.t;
  db_conversations_update : nat -> string -> string -> Outcome unit;
  db_conversations_delete : nat -> string -> Outcome unit;
  db_messages_list : nat -> string -> Outcome (list DbMessage.t);
  db_messages_create : nat -> DbMessage.t -> Outcome unit;
  db_messages_delete : nat -> string -> Outcome unit;
  ai_streamText : nat -> list AiMessage.t -> list string * Outcome (option (list string));
  Date_now : nat -> Z;
  generateId_at : nat -> string
}.

(** The live state of the hook, what happened so far, and the number of
    the next consultation of the environment. *)
Record World := {
  state : State.t;
  trace : list Event;
  tick : nat
}.

(** An asynchronous unit of work: it may change the world and then returns
    or throws.  A throw keeps the changes made before it. *)
Definition Task (A : Type) : Type := World -> Outcome A * World.

Definition ret {A} (a : A) : Task A := fun w => (Returned a, w).

Definition throw {A} (e : Exn) : Task A := fun w => (Thrown e, w).

Definition bind {A B} (t : Task A) (k : A -> Task B) : Task B :=
  fun w =>
    match t w with
    | (Returned a, w') => k a w'
    | (Thrown e, w') => (Thrown e, w')
    end.

Declare Scope task_scope.
Delimit Scope task_scope with task.
Notation "x <- c1 ;; c2" := (bind c1 (fun x => c2))
  (at level 61, c1 at next level, right associativity) : task_scope.
Notation "c1 ;; c2" := (bind c1 (fun _ => c2))
  (at level 61, right associativity) : task_scope.
Local Open Scope task_scope.

(** [try { t } catch (e) { handler e }] *)
Definition try_catch {A} (t : Task A) (handler : Exn -> Task A) : Task A :=
  fun w =>
    match t w with
    | (Returned a, w') => (Returned a, w')
    | (Thrown e, w') => handler e w'
    end.

(** [try { t } finally { cleanup }] *)
Definition finally {A} (t : Task A) (cleanup : Task unit) : Task A :=
  fun w =>
    match t w with
    | (r, w') =>
        match cleanup w' with
        | (Returned _, w'') => (r, w'')
        | (Thrown e, w'') => (Thrown e, w'')
        end
    end.

(** Runs [t] and hands back how it ended. *)
Definition attempt {A} (t : Task A) : Task (Outcome A) :=
  fun w => match t w with (r, w') => (Returned r, w') end.

(** [for (const x of l) { await body x }] *)
Fixpoint forEach {A} (l : list A) (body : A -> Task unit) : Task unit :=
  match l with
  | [] => ret tt
  | x :: rest => body x ;; forEach rest body
  end.

Definition emit (ev : Event) : Task unit :=
  fun w => (Returned tt, {| state := state w; trace := trace w ++ [ev]; tick := tick w |}).

(** A question to the environment: it takes the next number. *)
Definition consult {A} (answer : nat -> A) : Task A :=
  fun w => (Returned (answer (tick w)),
            {| state := state w; trace := trace w; tick := S (tick w) |}).

(** [await] of an SDK call: the call is recorded, then it resolves or
    rejects as the environment says. *)
Definition await {A} (call : Event) (answer : nat -> Outcome A) : Task A :=
  emit call ;;
  r <- consult answer ;;
  match r with
  | Returned a => ret a
  | Thrown e => throw e
  end.

Definition toast (title description variant : string) : Task unit :=
  emit (Toast title description variant).

Definition modify (f : State.t -> State.t) : Task unit :=
  fun w => (Returned tt, {| state := f (state w); trace := trace w; tick := tick w |}).

(** [setConversations(prev => f prev)] *)
Definition setConversations (f : list Conversation.t -> list Conversation.t) : Task unit :=
  modify (fun s =>
    {| State.conversations := f (State.conversations s);
       State.currentConversationId := State.currentConversationId s;
       State.isLoading := State.isLoading s;
       State.user := State.user s;
       State.isAuthenticated := State.isAuthenticated s;
       State.initialized := State.initialized s |}).

Definition setCurrentConversationId (id : option string) : Task unit :=
  modify (fun s =>
    {| State.conversations := State.conversations s;
       State.currentConversationId := id;
       State.isLoading := State.isLoading s;
       State.user := State.user s;
       State.isAuthenticated := State.isAuthenticated s;
       State.initialized := State.initialized s |}).

Definition setIsLoading (b : bool) : Task unit :=
  modify (fun s =>
    {| State.conversations := State.conversations s;
       State.currentConversationId := State.currentConversationId s;
       State.isLoading := b;
       State.user := State.user s;
       State.isAuthenticated := State.isAuthenticated s;
       State.initialized := State.initialized s |}).

(** ** JavaScript string and array helpers *)

(** The white space of [String.prototype.trim] among the code units below
    256: tab, line feed, vertical tab, form feed, carriage return, space and
    no-break space. *)
Definition is_whitespace (c : ascii) : bool :=
  let n := nat_of_ascii c in
  ((n =? 9) || (n =? 10) || (n =? 11) || (n =? 12) || (n =? 13)
   || (n =? 32) || (n =? 160))%nat.

Fixpoint trimStart (s : string) : string :=
  match s with
  | EmptyString => EmptyString
  | String c rest => if is_whitespace c then trimStart rest else s
  end.

Fixpoint trimEnd (s : string) : string :=
  match s with
  | EmptyString => EmptyString
  | String c rest =>
      match trimEnd rest with
      | EmptyString => if is_whitespace c then EmptyString else String c EmptyString
      | rest' => String c rest'
      end
  end.

(** [s.trim()] *)
Definition trim (s : string) : string := trimEnd (trimStart s).

(** [l.slice(-n)]: the last [n] elements, all of [l] when it is shorter. *)
Definition slice_last {A} (n : nat) (l : list A) : list A :=
  skipn (List.length l - n) l.

(** [c.id === id] for a possibly undefined [id]. *)
Definition id_is (id : option string) (s : string) : bool :=
  match id with
  | Some i => (s =? i)%string
  | None => false
  end.

Definition MAX_CONTEXT_MESSAGES : nat := 20.

(** ** The operations of [useChat]

    [render] is the state as the render saw it that created the handlers:
    what the closures read as [conversations], [currentConversationId],
    [isAuthenticated] and [user].  The live state is in the world and is
    only reached through the functional updates. *)

Section UseChat.
Context `{Runtime}.
Variable env : Env.
Variable render : State.t.

(** [generateId()] *)
Definition generateId : Task string := consult (generateId_at env).

(** [new Date()] *)
Definition newDate : Task Date := consult (fun t => DateAt (Date_now env t)).

(** [new Date(s)] for a column that may be absent: [new Date(null)] is
    the epoch. *)
Definition dateOf (s : option string) : Date :=
  match s with
  | Some s => Date_parse s
  | None => DateAt 0
  end.

(** [isAuthenticated && user] *)
Definition signedIn : option User.t :=
  if State.isAuthenticated render then State.user render else None.

(** Lifts a pure computation that may throw. *)
Definition lift {A} (r : Outcome A) : Task A :=
  match r with
  | Returned a => ret a
  | Thrown e => throw e
  end.

(** [prev.map(c => c.id === conversationId ? f c : c)] *)
Definition updateWhere (conversationId : string)
  (f : Conversation.t -> Conversation.t) (prev : list Conversation.t)
  : list Conversation.t :=
  map (fun c => if (Conversation.id c =? conversationId)%string then f c else c) prev.

(** [{ ...c, messages: [...c.messages, message], updatedAt }] *)
Definition withMessage (message : Message.t) (updatedAt : Date) (c : Conversation.t)
  : Conversation.t :=
  {| Conversation.id := Conversation.id c;
     Conversation.title := Conversation.title c;
     Conversation.messages := Conversation.messages c ++ [message];
     Conversation.createdAt := Conversation.createdAt c;
     Conversation.updatedAt := updatedAt |}.

(** [{ ...c, title, updatedAt }] *)
Definition withTitle (title : string) (updatedAt : Date) (c : Conversation.t)
  : Conversation.t :=
  {| Conversation.id := Conversation.id c;
     Conversation.title := title;
     Conversation.messages := Conversation.messages c;
     Conversation.createdAt := Conversation.createdAt c;
     Conversation.updatedAt := updatedAt |}.

(** [{ ...c, messages: c.messages.map(m => m.id === messageId ? f m : m),
       updatedAt }] *)
Definition withMessagesMapped (messageId : string) (f : Message.t -> Message.t)
  (updatedAt : Date) (c : Conversation.t) : Conversation.t :=
  {| Conversation.id := Conversation.id c;
     Conversation.title := Conversation.title c;
     Conversation.messages :=
       map (fun m => if (Message.id m =? messageId)%string then f m else m)
           (Conversation.messages c);
     Conversation.createdAt := Conversation.createdAt c;
     Conversation.updatedAt := updatedAt |}.

(** [{ ...m, content: streamingText, isLoading: true }] *)
Definition streamingInto (streamingText : string) (m : Message.t) : Message.t :=
  {| Message.id := Message.id m;
     Message.type := Message.type m;
     Message.content := streamingText;
     Message.timestamp := Message.timestamp m;
     Message.isLoading := Some true;
     Message.sources := Message.sources m |}.

(** [{ ...m, content: streamingText, isLoading: false, sources }] *)
Definition finalized (streamingText : string) (sources : list string) (m : Message.t)
  : Message.t :=
  {| Message.id := Message.id m;
     Message.type := Message.type m;
     Message.content := streamingText;
     Message.timestamp := Message.timestamp m;
     Message.isLoading := Some false;
     Message.sources := Some (strings sources) |}.

(** [createNewConversation]: a failed insert leaves a local-only
    conversation, after a warning. *)
Definition createNewConversation : Task Conversation.t :=
  id <- generateId ;;
  let title := "New Chat" in
  now <- newDate ;;
  let localOnly :=
    {| Conversation.id := id;
       Conversation.title := title;
       Conversation.messages := [];
       Conversation.createdAt := now;
       Conversation.updatedAt := now |} in
  match signedIn with
  | Some u =>
      try_catch
        (let dbConvoData := createDbConversation id (User.id u) title in
         convo <- await (DbConversationsCreate dbConvoData)
                    (fun t => db_conversations_create env t dbConvoData) ;;
         ret {| Conversation.id := DbConversation.id convo;
                Conversation.title := DbConversation.title convo;
                Conversation.messages := [];
                Conversation.createdAt := dateOf (DbConversation.created_at convo);
                Conversation.updatedAt := dateOf (DbConversation.updated_at convo) |})
        (fun _ =>
           toast "Warning"
             "Failed to save conversation to database. Working in offline mode."
             "destructive" ;;
           ret localOnly)
  | None => ret localOnly
  end.

(** [startNewConversation] *)
Definition startNewConversation : Task unit :=
  newConversation <- createNewConversation ;;
  setConversations (fun prev => newConversation :: prev) ;;
  setCurrentConversationId (Some (Conversation.id newConversation)).

(** [selectConversation] *)
Definition selectConversation (id : string) : Task unit :=
  setCurrentConversationId (Some id).

(** [prev.filter(c => c.id !== id)] *)
Definition without (id : string) (prev : list Conversation.t) : list Conversation.t :=
  filter (fun c => negb (Conversation.id c =? id)%string) prev.

(** The body of the loop of [deleteConversation]:
    [await blink.db.messages.delete(message.id)] *)
Definition deleteMessage (message : DbMessage.t) : Task unit :=
  await (DbMessagesDelete (DbMessage.id message))
    (fun t => db_messages_delete env t (DbMessage.id message)).

(** The remote part of [deleteConversation]: list the messages, delete
    each, then delete the conversation. *)
Definition deleteRemote (id : string) : Task unit :=
  messages <- await (DbMessagesList id) (fun t => db_messages_list env t id) ;;
  forEach messages deleteMessage ;;
  await (DbConversationsDelete id) (fun t => db_conversations_delete env t id).

(** [deleteConversation]: the remote part and the removal from the local
    state stand in one [try]; the handler only reports. *)
Definition deleteConversation (id : string) : Task unit :=
  try_catch
    (match signedIn with
     | Some _ => deleteRemote id
     | None => ret tt
     end ;;
     setConversations (without id) ;;
     if id_is (State.currentConversationId render) id then
       let remaining := without id (State.conversations render) in
       setCurrentConversationId (option_map Conversation.id (hd_error remaining))
     else ret tt)
    (fun _ => toast "Error" "Failed to delete conversation" "destructive").

(** The title [updateConversationTitle] derives from the first message. *)
Definition titleFrom (firstMessage : string) : string :=
  if (50 <? String.length firstMessage)%nat
  then (substring 0 47 firstMessage ++ "...")%string
  else firstMessage.

(** [updateConversationTitle] *)
Definition updateConversationTitle (conversationId firstMessage : string) : Task unit :=
  let title := titleFrom firstMessage in
  match signedIn with
  | Some _ =>
      try_catch
        (await (DbConversationsUpdate conversationId title)
           (fun t => db_conversations_update env t conversationId title))
        (fun _ => ret tt)
  | None => ret tt
  end ;;
  now <- newDate ;;
  setConversations (updateWhere conversationId (withTitle title now)).

(** [addMessage] *)
Definition addMessage (conversationId : string) (message : Message.t) : Task unit :=
  match signedIn with
  | Some u =>
      try_catch
        (dbMessageData <- lift (createDbMessage message conversationId (User.id u)) ;;
         await (DbMessagesCreate dbMessageData)
           (fun t => db_messages_create env t dbMessageData))
        (fun _ =>
           toast "Warning"
             "Failed to save message to database. Your conversation may not persist."
             "destructive")
  | None => ret tt
  end ;;
  now <- newDate ;;
  setConversations (updateWhere conversationId (withMessage message now)).

(** The callback of [streamText], once per chunk: the text so far replaces
    the content of the placeholder. *)
Fixpoint onChunks (conversationId assistantMessageId streamingText : string)
  (chunks : list string) : Task string :=
  match chunks with
  | [] => ret streamingText
  | chunk :: rest =>
      let streamingText := (streamingText ++ chunk)%string in
      now <- newDate ;;
      setConversations
        (updateWhere conversationId
           (withMessagesMapped assistantMessageId (streamingInto streamingText) now)) ;;
      onChunks conversationId assistantMessageId streamingText rest
  end.

(** [m => ({ role: m.type === 'user' ? 'user' : 'assistant', content })] *)
Definition toAiMessage (m : Message.t) : AiMessage.t :=
  {| AiMessage.role := if MessageType_eqb (Message.type m) user then "user" else "assistant";
     AiMessage.content := Message.content m |}.

(** [messagesForAI] *)
Definition messagesForAI (conversation : Conversation.t) (content : string)
  : list AiMessage.t :=
  let contextMessages :=
    map toAiMessage (slice_last MAX_CONTEXT_MESSAGES (Conversation.messages conversation)) in
  contextMessages ++ [ {| AiMessage.role := "user"; AiMessage.content := content |} ].

(** [blink.ai.streamText(request, onChunk)]: the text streamed and
    [result?.sources], or a throw after the chunks that did arrive. *)
Definition streamText (conversationId assistantMessageId : string)
  (messages : list AiMessage.t) : Task (string * option (list string)) :=
  emit (AiStreamText messages) ;;
  answer <- consult (fun t => ai_streamText env t messages) ;;
  streamingText <- onChunks conversationId assistantMessageId "" (fst answer) ;;
  match snd answer with
  | Returned result => ret (streamingText, result)
  | Thrown e => throw e
  end.

Definition errorText : string :=
  "Sorry, I encountered an error while processing your request. Please try again.".

(** The body of the [try] of [sendMessage] from "Add user message" on. *)
Definition sendMessage_try (content conversationId : string)
  (conversation : Conversation.t) : Task unit :=
  userMessageId <- generateId ;;
  userTimestamp <- newDate ;;
  let userMessage :=
    {| Message.id := userMessageId;
       Message.type := user;
       Message.content := content;
       Message.timestamp := userTimestamp;
       Message.isLoading := None;
       Message.sources := None |} in
  addMessage conversationId userMessage ;;
  (if (List.length (Conversation.messages conversation) =? 0)%nat
   then updateConversationTitle conversationId content
   else ret tt) ;;
  assistantMessageId <- generateId ;;
  assistantTimestamp <- newDate ;;
  let assistantMessage :=
    {| Message.id := assistantMessageId;
       Message.type := assistant;
       Message.content := "";
       Message.timestamp := assistantTimestamp;
       Message.isLoading := Some true;
       Message.sources := None |} in
  now <- newDate ;;
  setConversations (updateWhere conversationId (withMessage assistantMessage now)) ;;
  streamed <- streamText conversationId assistantMessageId
                (messagesForAI conversation content) ;;
  let streamingText := fst streamed in
  let sources := match snd streamed with Some l => l | None => [] end in
  now <- newDate ;;
  setConversations
    (updateWhere conversationId
       (withMessagesMapped assistantMessageId (finalized streamingText sources) now)) ;;
  match signedIn with
  | Some u =>
      try_catch
        (finalTimestamp <- newDate ;;
         let finalAssistantMessage :=
           {| Message.id := assistantMessageId;
              Message.type := assistant;
              Message.content := streamingText;
              Message.timestamp := finalTimestamp;
              Message.isLoading := None;
              Message.sources :=
                if (0 <? List.length sources)%nat then Some (strings sources) else None |} in
         dbMessageData <- lift (createDbMessage finalAssistantMessage conversationId (User.id u)) ;;
         await (DbMessagesCreate dbMessageData)
           (fun t => db_messages_create env t dbMessageData))
        (fun _ => toast "Warning" "Failed to save response to database." "destructive")
  | None => ret tt
  end.

(** The [catch] of [sendMessage]; [conversationId] is the variable as it
    stands when the handler runs. *)
Definition sendMessage_catch (conversationId : option string) : Task unit :=
  match conversationId with
  | Some cid =>
      if falsy cid then ret tt
      else
        errorMessageId <- generateId ;;
        errorTimestamp <- newDate ;;
        let errorMessage :=
          {| Message.id := errorMessageId;
             Message.type := assistant;
             Message.content := errorText;
             Message.timestamp := errorTimestamp;
             Message.isLoading := Some false;
             Message.sources := None |} in
        now <- newDate ;;
        setConversations (updateWhere cid (withMessage errorMessage now))
  | None => ret tt
  end ;;
  toast "Error" "Failed to generate response" "destructive".

(** [conversations.find(c => c.id === conversationId)] *)
Definition findConversation (conversationId : option string) : option Conversation.t :=
  find (fun c => id_is conversationId (Conversation.id c)) (State.conversations render).

(** "Create new conversation if none exists", then the rest of the [try].
    The variable [conversationId] is assigned once, after
    [createNewConversation] has returned and the list was updated; the
    handler is given the value the variable has when the throw happens. *)
Definition sendMessage_fresh (content : string) : Task unit :=
  created <- attempt
               (newConversation <- createNewConversation ;;
                setConversations (fun prev => newConversation :: prev) ;;
                ret newConversation) ;;
  match created with
  | Thrown _ => sendMessage_catch (State.currentConversationId render)
  | Returned newConversation =>
      let conversationId := Conversation.id newConversation in
      try_catch
        (setCurrentConversationId (Some conversationId) ;;
         sendMessage_try content conversationId newConversation)
        (fun _ => sendMessage_catch (Some conversationId))
  end.

(** [sendMessage] *)
Definition sendMessage (content : string) : Task unit :=
  if falsy (trim content) then ret tt
  else
    setIsLoading true ;;
    let conversationId := State.currentConversationId render in
    let conversation := findConversation conversationId in
    finally
      (match conversationId, conversation with
       | Some cid, Some found =>
           if falsy cid then sendMessage_fresh content
           else
             try_catch (sendMessage_try content cid found)
               (fun _ => sendMessage_catch (Some cid))
       | _, _ => sendMessage_fresh content
       end)
      (setIsLoading false).

End UseChat.

(** ** Sequences of operations

    The operations the hook hands to its consumers.  Each one is invoked on
    the handlers of the latest render, so its closure is the state of the
    world at the invocation, and it runs to its end before the next one
    starts. *)
Inductive Operation :=
| StartNewConversation
| SelectConversation (id : string)
| DeleteConversation (id : string)
| SendMessage (content : string).

Definition run `{Runtime} (env : Env) (op : Operation) : Task unit :=
  fun w =>
    match op with
    | StartNewConversation => startNewConversation env (state w) w
    | SelectConversation id => selectConversation id w
    | DeleteConversation id => deleteConversation env (state w) id w
    | SendMessage content => sendMessage env (state w) content w
    end.

Definition perform `{Runtime} (env : Env) (w : World) (op : Operation) : World :=
  snd (run env op w).

Definition performAll `{Runtime} (env : Env) (ops : list Operation) (w : World) : World :=
  fold_left (perform env) ops w.

(** ** A reference runtime

    One implementation of [Runtime], to run the program on concrete inputs:
    dates in the format of [toISOString] (proleptic Gregorian calendar, UTC,
    milliseconds) and JSON.  [new Date(s)] is implemented for that one
    format; what else an engine accepts is left invalid here. *)

Module Reference.

Local Open Scope Z_scope.

Definition msPerDay : Z := 86400000.

(** The civil date of a day number (days since 1970-01-01). *)
Definition civil_from_days (z : Z) : Z * Z * Z :=
  let z := z + 719468 in
  let era := z / 146097 in
  let doe := z - era * 146097 in
  let yoe := (doe - doe / 1460 + doe / 36524 - doe / 146096) / 365 in
  let y := yoe + era * 400 in
  let doy := doe - (365 * yoe + yoe / 4 - yoe / 100) in
  let mp := (5 * doy + 2) / 153 in
  let d := doy - (153 * mp + 2) / 5 + 1 in
  let m := if mp <? 10 then mp + 3 else mp - 9 in
  (if m <=? 2 then y + 1 else y, m, d).

(** The day number of a civil date. *)
Definition days_from_civil (y m d : Z) : Z :=
  let y := if m <=? 2 then y - 1 else y in
  let era := y / 400 in
  let yoe := y - era * 400 in
  let mp := (m + 9) mod 12 in
  let doy := (153 * mp + 2) / 5 + d - 1 in
  let doe := yoe * 365 + yoe / 4 - yoe / 100 + doy in
  era * 146097 + doe - 719468.

Definition digit (n : Z) : ascii := ascii_of_nat (48 + Z.to_nat (n mod 10)).

(** [n] in decimal on [width] digits, in front of [acc]. *)
Fixpoint digits (width : nat) (n : Z) (acc : string) : string :=
  match width with
  | O => acc
  | S width' => digits width' (n / 10) (String (digit n) acc)
  end.

Definition year_string (y : Z) : string :=
  if (0 <=? y) && (y <=? 9999) then digits 4 y ""
  else if y <? 0 then String "-"%char (digits 6 (- y) "")
  else String "+"%char (digits 6 y "").

Definition formatISO (ms : Z) : string :=
  let day := ms / msPerDay in
  let rest := ms mod msPerDay in
  match civil_from_days day with
  | (y, m, d) =>
      (year_string y ++ "-" ++ digits 2 m "" ++ "-" ++ digits 2 d ""
       ++ "T" ++ digits 2 (rest / 3600000) ""
       ++ ":" ++ digits 2 ((rest / 60000) mod 60) ""
       ++ ":" ++ digits 2 ((rest / 1000) mod 60) ""
       ++ "." ++ digits 3 (rest mod 1000) "" ++ "Z")%string
  end.

(** Reads [width] decimal digits. *)
Fixpoint readDigits (width : nat) (s : string) (acc : Z) : option (Z * string) :=
  match width with
  | O => Some (acc, s)
  | S width' =>
      match s with
      | EmptyString => None
      | String c rest =>
          let n := Z.of_nat (nat_of_ascii c) in
          if (48 <=? n) && (n <=? 57)
          then readDigits width' rest (acc * 10 + (n - 48))
          else None
      end
  end.

Definition expect (c : ascii) (s : string) : option string :=
  match s with
  | String c' rest => if Ascii.eqb c c' then Some rest else None
  | EmptyString => None
  end.

Definition readYear (s : string) : option (Z * string) :=
  match s with
  | String "+"%char rest => readDigits 6 rest 0
  | String "-"%char rest =>
      match readDigits 6 rest 0 with
      | Some (y, rest') => Some (- y, rest')
      | None => None
      end
  | _ => readDigits 4 s 0
  end.

Definition bindo {A B} (o : option A) (k : A -> option B) : option B :=
  match o with
  | Some a => k a
  | None => None
  end.

Definition parseISO (s : string) : option Z :=
  bindo (readYear s) (fun '(y, s) =>
  bindo (expect "-" s) (fun s =>
  bindo (readDigits 2 s 0) (fun '(m, s) =>
  bindo (expect "-" s) (fun s =>
  bindo (readDigits 2 s 0) (fun '(d, s) =>
  bindo (expect "T" s) (fun s =>
  bindo (readDigits 2 s 0) (fun '(h, s) =>
  bindo (expect ":" s) (fun s =>
  bindo (readDigits 2 s 0) (fun '(mi, s) =>
  bindo (expect ":" s) (fun s =>
  bindo (readDigits 2 s 0) (fun '(sec, s) =>
  bindo (expect "." s) (fun s =>
  bindo (readDigits 3 s 0) (fun '(milli, s) =>
  bindo (expect "Z" s) (fun s =>
    if falsy s
       && (1 <=? m) && (m <=? 12) && (1 <=? d) && (d <=? 31)
       && (h <=? 23) && (mi <=? 59) && (sec <=? 59)
    then Some (days_from_civil y m d * msPerDay
               + h * 3600000 + mi * 60000 + sec * 1000 + milli)
    else None)))))))))))))).

Definition dateFromString (s : string) : Date :=
  match parseISO s with
  | Some ms => DateAt ms
  | None => InvalidDate
  end.

Local Close Scope Z_scope.

(** *** JSON

    [JSON.parse], [JSON.stringify] and [v > 0] on the values of type
    [Json], for strings of code units below 256. *)

Definition quote : ascii := ascii_of_nat 34.
Definition backslash : ascii := ascii_of_nat 92.

Definition hexDigit (n : nat) : ascii :=
  if (n <? 10)%nat then ascii_of_nat (48 + n) else ascii_of_nat (87 + n).

(** The escape of one code unit inside a JSON string. *)
Definition escapeChar (c : ascii) : string :=
  let n := nat_of_ascii c in
  if Ascii.eqb c quote then String backslash (String quote "")
  else if Ascii.eqb c backslash then String backslash (String backslash "")
  else if (n =? 8)%nat then String backslash "b"
  else if (n =? 9)%nat then String backslash "t"
  else if (n =? 10)%nat then String backslash "n"
  else if (n =? 12)%nat then String backslash "f"
  else if (n =? 13)%nat then String backslash "r"
  else if (n <? 32)%nat
  then String backslash
         (String "u" (String "0" (String "0"
            (String (hexDigit (n / 16)) (String (hexDigit (n mod 16)) "")))))
  else String c "".

Fixpoint escape (s : string) : string :=
  match s with
  | EmptyString => EmptyString
  | String c rest => (escapeChar c ++ escape rest)%string
  end.

Definition quoted (s : string) : string :=
  String quote (escape s ++ String quote "")%string.

Definition hexValue (c : ascii) : option nat :=
  let n := nat_of_ascii c in
  if ((48 <=? n) && (n <=? 57))%nat then Some (n - 48)
  else if ((97 <=? n) && (n <=? 102))%nat then Some (n - 87)
  else if ((65 <=? n) && (n <=? 70))%nat then Some (n - 55)
  else None.

(** **** Numbers *)

Local Open Scope Z_scope.

(** A double is written here with an odd mantissa, and zero as [0 * 2^0]. *)
Fixpoint oddMantissa (fuel : nat) (m e : Z) : Number :=
  match fuel with
  | O => Finite m e
  | S fuel' =>
      if m =? 0 then Finite 0 0
      else if Z.even m then oddMantissa fuel' (m / 2) (e + 1)
      else Finite m e
  end.

(** The double nearest to [d * 10 ^ x] for [0 <= d], a tie going to the
    even mantissa: 53 bits of mantissa, exponents from -1074, and the
    infinity from [2 ^ 1024] on. *)
Definition nearest (d x : Z) : Number :=
  if d <=? 0 then Finite 0 0
  else
    let p := if 0 <=? x then d * 10 ^ x else d in
    let q := if 0 <=? x then 1 else 10 ^ (- x) in
    let e0 := Z.log2 p - Z.log2 q in
    let above := if 0 <=? e0 then q * 2 ^ e0 <=? p else q <=? p * 2 ^ (- e0) in
    let e := Z.max ((if above then e0 else e0 - 1) - 52) (-1074) in
    let num := if e <? 0 then p * 2 ^ (- e) else p in
    let den := if e <? 0 then q else q * 2 ^ e in
    let m := num / den in
    let r := num mod den in
    let m := if (den <? 2 * r) || ((den =? 2 * r) && Z.odd m) then m + 1 else m in
    if m =? 0 then Finite 0 0
    else if 1024 <=? e + Z.log2 m then Infinite false
    else oddMantissa 64 m e.

Definition negated (n : Number) : Number :=
  match n with
  | Finite m e => Finite (- m) e
  | Infinite negative => Infinite (negb negative)
  end.

Definition isDigit (c : ascii) : bool :=
  let n := nat_of_ascii c in ((48 <=? n) && (n <=? 57))%nat.

(** Reads decimal digits: their value after [acc], how many they are after
    [count], and the rest. *)
Fixpoint readDecimal (s : string) (acc : Z) (count : Z) : Z * Z * string :=
  match s with
  | String c rest =>
      if isDigit c
      then readDecimal rest (acc * 10 + (Z.of_nat (nat_of_ascii c) - 48)) (count + 1)
      else (acc, count, s)
  | EmptyString => (acc, count, s)
  end.

(** The exponent part of a literal, if there is one: [e], a sign, digits. *)
Definition readExponent (s : string) : option (Z * string) :=
  match s with
  | String c rest =>
      if Ascii.eqb c "e" || Ascii.eqb c "E" then
        let '(negative, rest) :=
          match rest with
          | String "-"%char rest' => (true, rest')
          | String "+"%char rest' => (false, rest')
          | _ => (false, rest)
          end in
        match readDecimal rest 0 0 with
        | (x, count, rest') =>
            if count =? 0 then None
            else Some (if negative then - x else x, rest')
        end
      else Some (0, s)
  | EmptyString => Some (0, s)
  end.

(** A JSON number: a minus sign, an integer without leading zero, a
    fraction, an exponent. *)
Definition readNumber (s : string) : option (Number * string) :=
  let '(negative, s) :=
    match s with
    | String "-"%char rest => (true, rest)
    | _ => (false, s)
    end in
  match readDecimal s 0 0 with
  | (int, count, rest) =>
      if (count =? 0) || ((1 <? count) && (match s with String "0"%char _ => true | _ => false end))
      then None
      else
        let fraction :=
          match rest with
          | String "."%char rest' =>
              match readDecimal rest' int 0 with
              | (d, places, rest'') =>
                  if places =? 0 then None else Some (d, places, rest'')
              end
          | _ => Some (int, 0, rest)
          end in
        match fraction with
        | None => None
        | Some (d, places, rest) =>
            match readExponent rest with
            | None => None
            | Some (x, rest) =>
                let n := nearest d (x - places) in
                Some (if negative then negated n else n, rest)
            end
        end
  end.

(** [z] in decimal, for [0 <= z]. *)
Fixpoint decimalFrom (fuel : nat) (z : Z) (acc : string) : string :=
  match fuel with
  | O => acc
  | S fuel' =>
      let acc := String (digit z) acc in
      if z <? 10 then acc else decimalFrom fuel' (z / 10) acc
  end.

Definition decimal (z : Z) : string :=
  decimalFrom (S (Z.to_nat (Z.log2 z))) z "".

(** The [n] with [10 ^ (n - 1) <= p / q < 10 ^ n], searched from [n]
    downwards. *)
Fixpoint magnitude (fuel : nat) (p q n : Z) : Z :=
  match fuel with
  | O => n
  | S fuel' =>
      let reached :=
        if 1 <=? n then q * 10 ^ (n - 1) <=? p else q <=? p * 10 ^ (1 - n) in
      if reached then n else magnitude fuel' p q (n - 1)
  end.

(** The shortest digits that read back as the double [m * 2 ^ e], for
    [0 < m]: [k] digits [s] and the position [n] of the decimal point, such
    that [s * 10 ^ (n - k)] is nearest to the double among those with [k]
    digits, for the least [k] that reads back. *)
Fixpoint shortest (fuel : nat) (k : Z) (m e n0 : Z) : Z * Z * Z :=
  match fuel with
  | O => (m, k, n0)
  | S fuel' =>
      let p := if 0 <=? e then m * 2 ^ e else m in
      let q := if 0 <=? e then 1 else 2 ^ (- e) in
      let x := k - n0 in
      let num := if 0 <=? x then p * 10 ^ x else p in
      let den := if 0 <=? x then q else q * 10 ^ (- x) in
      let low := num / den in
      let high := low + 1 in
      let back s :=
        match nearest s (n0 - k), oddMantissa 64 m e with
        | Finite a b, Finite c d => (a =? c) && (b =? d)
        | _, _ => false
        end in
      let lowFirst :=
        (2 * num <? (2 * low + 1) * den)
        || ((2 * num =? (2 * low + 1) * den) && Z.even low) in
      let pick s := if s =? 10 ^ k then (10 ^ (k - 1), k, n0 + 1) else (s, k, n0) in
      if back low && (lowFirst || negb (back high)) then pick low
      else if back high then pick high
      else shortest fuel' (k + 1) m e n0
  end.

Fixpoint zeros (n : nat) : string :=
  match n with
  | O => ""
  | S n' => String "0" (zeros n')
  end.

(** [Number.prototype.toString] of the double [m * 2 ^ e], for [0 < m]. *)
Definition positiveNumberText (m e : Z) : string :=
  let p := if 0 <=? e then m * 2 ^ e else m in
  let q := if 0 <=? e then 1 else 2 ^ (- e) in
  let n0 := magnitude 700 p q 310 in
  match shortest 17 1 m e n0 with
  | (s, k, n) =>
      let text := digits (Z.to_nat k) s "" in
      if (k <=? n) && (n <=? 21) then (text ++ zeros (Z.to_nat (n - k)))%string
      else if (0 <? n) && (n <=? 21)
      then (substring 0 (Z.to_nat n) text ++ "."
            ++ substring (Z.to_nat n) (Z.to_nat (k - n)) text)%string
      else if (-6 <? n) && (n <=? 0)
      then ("0." ++ zeros (Z.to_nat (- n)) ++ text)%string
      else
        let sign := if n - 1 <? 0 then "e-" else "e+" in
        let exponent := (sign ++ decimal (Z.abs (n - 1)))%string in
        if k =? 1 then (text ++ exponent)%string
        else (substring 0 1 text ++ "." ++ substring 1 (Z.to_nat (k - 1)) text
              ++ exponent)%string
  end.

(** [JSON.stringify] of a number: [null] for an infinity. *)
Definition numberText (n : Number) : string :=
  match n with
  | Infinite _ => "null"
  | Finite m e =>
      if m =? 0 then "0"
      else if m <? 0 then ("-" ++ positiveNumberText (- m) e)%string
      else positiveNumberText m e
  end.

(** [Number(s) > 0] for the text of an unsigned decimal literal of
    [StringToNumber]: digits with an optional fraction, or a fraction alone,
    and an optional exponent. *)
Definition positiveDecimal (s : string) : bool :=
  match readDecimal s 0 0 with
  | (int, count, rest) =>
      let fraction :=
        match rest with
        | String "."%char rest' =>
            match readDecimal rest' int 0 with
            | (d, places, rest'') =>
                if (count =? 0) && (places =? 0) then None else Some (d, places, rest'')
            end
        | _ => if count =? 0 then None else Some (int, 0, rest)
        end in
      match fraction with
      | None => false
      | Some (d, places, rest) =>
          match readExponent rest with
          | Some (x, EmptyString) =>
              match nearest d (x - places) with
              | Finite m _ => 0 <? m
              | Infinite _ => true
              end
          | _ => false
          end
      end
  end.

(** Whether [s] is made of digits below [radix], one of them not zero. *)
Fixpoint positiveDigits (radix : nat) (s : string) (seen : bool) : bool :=
  match s with
  | EmptyString => seen
  | String c rest =>
      match hexValue c with
      | Some n => (n <? radix)%nat && positiveDigits radix rest (seen || (0 <? n)%nat)
      | None => false
      end
  end.

Local Close Scope Z_scope.

(** [Number(s) > 0]: white space around a decimal literal with an optional
    sign, [Infinity], or a binary, octal or hexadecimal integer; the empty
    text is zero and any other text is [NaN]. *)
Definition positiveText (s : string) : bool :=
  match trim s with
  | String "-"%char _ => false
  | String "+"%char rest => (rest =? "Infinity")%string || positiveDecimal rest
  | String "0"%char (String c rest) =>
      if Ascii.eqb c "x" || Ascii.eqb c "X" then positiveDigits 16 rest false
      else if Ascii.eqb c "o" || Ascii.eqb c "O" then positiveDigits 8 rest false
      else if Ascii.eqb c "b" || Ascii.eqb c "B" then positiveDigits 2 rest false
      else positiveDecimal (trim s)
  | text => (text =? "Infinity")%string || positiveDecimal text
  end.

Definition positiveNumber (n : Number) : bool :=
  match n with
  | Finite m _ => (0 <? m)%Z
  | Infinite negative => negb negative
  end.

(** Whether [String(v)] throws: an object whose own [toString] is no
    function has no primitive value, and [join] asks every element of an
    array. *)
Fixpoint unprintable (v : Json) : bool :=
  match v with
  | JArray items => existsb unprintable items
  | JObject members =>
      match member "toString" members with
      | Some _ => true
      | None => false
      end
  | _ => false
  end.

(** [Number(String(v)) > 0] for an element [v] of an array whose text is
    the text of [v]: [null] gives the empty text, a number reads back as
    itself, and [true], [false] and [[object Object]] are no numbers; an
    array of several elements has a comma in its text. *)
Fixpoint positiveJoined (v : Json) : bool :=
  match v with
  | JNumber n => positiveNumber n
  | JString s => positiveText s
  | JArray [item] => positiveJoined item
  | _ => false
  end.

(** [v > 0] *)
Definition positive (v : Json) : Outcome bool :=
  if unprintable v then Thrown TypeError
  else
    Returned
      match v with
      | JNull => false
      | JBool b => b
      | JNumber n => positiveNumber n
      | JString s => positiveText s
      | JArray _ => positiveJoined v
      | JObject _ => false
      end.

(** **** Texts *)

(** [JSON.stringify] *)
Fixpoint stringify (v : Json) : string :=
  match v with
  | JNull => "null"
  | JBool true => "true"
  | JBool false => "false"
  | JNumber n => numberText n
  | JString s => quoted s
  | JArray items => ("[" ++ String.concat "," (map stringify items) ++ "]")%string
  | JObject members =>
      ("{" ++ String.concat ","
                (map (fun kv : string * Json =>
                        let (k, v) := kv in (quoted k ++ ":" ++ stringify v)%string)
                   members)
       ++ "}")%string
  end.

(** Reads the inside of a JSON string up to its closing quote; [acc] is
    what was read, last character first.  Escapes above code 255 have
    no code unit here and are refused. *)
Fixpoint readString (s : string) (acc : list ascii) : option (string * string) :=
  match s with
  | EmptyString => None
  | String c rest =>
      if Ascii.eqb c quote then Some (string_of_list_ascii (rev acc), rest)
      else if Ascii.eqb c backslash then
        match rest with
        | String "u"%char (String a (String b (String x (String y rest')))) =>
            match hexValue a, hexValue b, hexValue x, hexValue y with
            | Some 0, Some 0, Some h, Some l =>
                readString rest' (ascii_of_nat (16 * h + l) :: acc)
            | _, _, _, _ => None
            end
        | String e rest' =>
            if Ascii.eqb e "b" then readString rest' (ascii_of_nat 8 :: acc)
            else if Ascii.eqb e "t" then readString rest' (ascii_of_nat 9 :: acc)
            else if Ascii.eqb e "n" then readString rest' (ascii_of_nat 10 :: acc)
            else if Ascii.eqb e "f" then readString rest' (ascii_of_nat 12 :: acc)
            else if Ascii.eqb e "r" then readString rest' (ascii_of_nat 13 :: acc)
            else if Ascii.eqb e "/" || Ascii.eqb e quote || Ascii.eqb e backslash
            then readString rest' (e :: acc)
            else None
        | EmptyString => None
        end
      else if (nat_of_ascii c <? 32)%nat then None
      else readString rest (c :: acc)
  end.

(** JSON white space: space, tab, line feed, carriage return. *)
Fixpoint skipSpace (s : string) : string :=
  match s with
  | String c rest =>
      let n := nat_of_ascii c in
      if ((n =? 32) || (n =? 9) || (n =? 10) || (n =? 13))%nat
      then skipSpace rest else s
  | EmptyString => EmptyString
  end.

(** [s] without the prefix [word], if it starts with it. *)
Fixpoint after (word s : string) : option string :=
  match word, s with
  | EmptyString, _ => Some s
  | String a word', String b s' => if Ascii.eqb a b then after word' s' else None
  | String _ _, EmptyString => None
  end.

(** The property [key] set to [v]: in its place when the object has it
    already, and last when not. *)
Fixpoint setMember (key : string) (v : Json) (members : list (string * Json))
  : list (string * Json) :=
  match members with
  | [] => [(key, v)]
  | (k, old) :: rest =>
      if (k =? key)%string then (k, v) :: rest else (k, old) :: setMember key v rest
  end.

(** The array index a key is, if it is one: a decimal integer below
    [2 ^ 32 - 1] written without leading zero. *)
Definition arrayIndex (key : string) : option Z :=
  match readDecimal key 0 0 with
  | (n, count, EmptyString) =>
      if (0 <? count)%Z
         && ((count =? 1)%Z || negb (match key with String "0"%char _ => true | _ => false end))
         && (n <? 4294967295)%Z
      then Some n else None
  | _ => None
  end.

Fixpoint insertIndexed (n : Z) (entry : string * Json) (sorted : list (Z * (string * Json)))
  : list (Z * (string * Json)) :=
  match sorted with
  | [] => [(n, entry)]
  | (n', entry') :: rest =>
      if (n <? n')%Z then (n, entry) :: sorted else (n', entry') :: insertIndexed n entry rest
  end.

(** The own properties in the order an engine lists them: the array
    indices in ascending order, then the other keys in the order they were
    created. *)
Definition enumerated (members : list (string * Json)) : list (string * Json) :=
  let indexed :=
    fold_left
      (fun sorted entry =>
         match arrayIndex (fst entry) with
         | Some n => insertIndexed n entry sorted
         | None => sorted
         end) members [] in
  map snd indexed
  ++ filter (fun entry => match arrayIndex (fst entry) with Some _ => false | None => true end)
       members.

(** A JSON value and what follows it; [fuel] bounds the depth and the
    number of elements read. *)
Fixpoint readValue (fuel : nat) (s : string) : option (Json * string) :=
  match fuel with
  | O => None
  | S fuel' =>
      match skipSpace s with
      | String "n"%char _ =>
          option_map (fun rest => (JNull, rest)) (after "null" (skipSpace s))
      | String "t"%char _ =>
          option_map (fun rest => (JBool true, rest)) (after "true" (skipSpace s))
      | String "f"%char _ =>
          option_map (fun rest => (JBool false, rest)) (after "false" (skipSpace s))
      | String "["%char rest =>
          match skipSpace rest with
          | String "]"%char rest' => Some (JArray [], rest')
          | _ =>
              match readValue fuel' rest with
              | Some (item, rest') =>
                  option_map (fun '(items, rest'') => (JArray items, rest''))
                    (readItems fuel' rest' [item])
              | None => None
              end
          end
      | String "{"%char rest =>
          match skipSpace rest with
          | String "}"%char rest' => Some (JObject [], rest')
          | _ =>
              option_map (fun '(members, rest') => (JObject (enumerated members), rest'))
                (readMembers fuel' rest [])
          end
      | String c rest =>
          if Ascii.eqb c quote
          then option_map (fun '(text, rest') => (JString text, rest')) (readString rest [])
          else option_map (fun '(n, rest') => (JNumber n, rest')) (readNumber (skipSpace s))
      | EmptyString => None
      end
  end

(** The elements of an array after its first, up to the closing bracket;
    [acc] holds the elements read, last first. *)
with readItems (fuel : nat) (s : string) (acc : list Json) : option (list Json * string) :=
  match fuel with
  | O => None
  | S fuel' =>
      match skipSpace s with
      | String "]"%char rest => Some (rev acc, rest)
      | String ","%char rest =>
          match readValue fuel' rest with
          | Some (item, rest') => readItems fuel' rest' (item :: acc)
          | None => None
          end
      | _ => None
      end
  end

(** The members of an object from a key on, up to the closing brace. *)
with readMembers (fuel : nat) (s : string) (acc : list (string * Json))
  : option (list (string * Json) * string) :=
  match fuel with
  | O => None
  | S fuel' =>
      match skipSpace s with
      | String c rest =>
          if Ascii.eqb c quote then
            match readString rest [] with
            | Some (key, rest') =>
                match skipSpace rest' with
                | String ":"%char rest'' =>
                    match readValue fuel' rest'' with
                    | Some (v, rest3) =>
                        match skipSpace rest3 with
                        | String "}"%char rest4 => Some (setMember key v acc, rest4)
                        | String ","%char rest4 => readMembers fuel' rest4 (setMember key v acc)
                        | _ => None
                        end
                    | None => None
                    end
                | _ => None
                end
            | None => None
            end
          else None
      | EmptyString => None
      end
  end.

(** [JSON.parse]: one value and nothing but white space around it. *)
Definition parse (s : string) : option Json :=
  match readValue (S (String.length s)) s with
  | Some (v, rest) => if falsy (skipSpace rest) then Some v else None
  | None => None
  end.

#[export] Instance runtime : Runtime := {|
  Date_parse := dateFromString;
  Date_toISOString := formatISO;
  JSON_parse := parse;
  JSON_stringify := stringify;
  greaterThanZero := positive
|}.

End Reference.

(** ** Vocabulary of the specification *)

(** A timestamp column that is missing (absent or empty) or unparsable. *)
Definition unparsable_or_missing `{Runtime} (column : option string) : Prop :=
  match column with
  | None => True
  | Some s => s = "" \/ Date_parse s = InvalidDate
  end.

(** A timestamp column that parses: present, non-empty and a date. *)
Definition parsable `{Runtime} (column : option string) : bool :=
  match column with
  | None => false
  | Some s => negb (falsy s) && negb (isNaN_getTime (Date_parse s))
  end.

(** A valid message record: identifier, content and role are present, the
    role is one of the two, and the timestamp parses. *)
Definition validMessage `{Runtime} (r : DbMessage.t) : bool :=
  negb (falsy (DbMessage.id r))
  && negb (falsy (DbMessage.content r))
  && negb (falsy (DbMessage.type r))
  && ((DbMessage.type r =? "user") || (DbMessage.type r =? "assistant"))
  && parsable (DbMessage.timestamp r).

(** A valid conversation record: identifier and title are present. *)
Definition validConversation (r : DbConversation.t) : bool :=
  negb (falsy (DbConversation.id r)) && negb (falsy (DbConversation.title r)).

(** The batch transform in the words of the specification: the valid
    records, each transformed, in their original relative order. *)
Fixpoint transformBatch {R D : Type} (transform : R -> option D) (l : list R) : list D :=
  match l with
  | [] => []
  | r :: rest =>
      match transform r with
      | Some d => d :: transformBatch transform rest
      | None => transformBatch transform rest
      end
  end.

(** Each record of a list with the number of its loop iteration, from [i]. *)
Fixpoint numberedFrom {R : Type} (i : nat) (l : list R) : list (nat * R) :=
  match l with
  | [] => []
  | r :: rest => (i, r) :: numberedFrom (S i) rest
  end.

(** "No sources": absent and empty are one representation each of it. *)
Definition normalizedSources (s : option Json) : option Json :=
  match s with
  | Some (JArray []) => None
  | _ => s
  end.

(** The round trip of a message through its record: [createDbMessage]
    returns a record that [transformDbMessage] accepts, and the message read
    back has the same id, type, content and timestamp, and the same sources
    up to the representation of "none". *)
Definition roundTrips `{Runtime} (m : Message.t) (conversationId userId : string) : Prop :=
  exists r m',
    createDbMessage m conversationId userId = Returned r
    /\ transformDbMessage r = Some m'
    /\ Message.id m' = Message.id m
    /\ Message.type m' = Message.type m
    /\ Message.content m' = Message.content m
    /\ Message.timestamp m' = Message.timestamp m
    /\ normalizedSources (Message.sources m') = normalizedSources (Message.sources m).

(** A message is loading when its flag is set and true. *)
Definition loading (m : Message.t) : bool :=
  match Message.isLoading m with
  | Some true => true
  | _ => false
  end.

(** The generation requests of a trace, oldest first. *)
Fixpoint aiRequests (tr : list Event) : list (list AiMessage.t) :=
  match tr with
  | [] => []
  | AiStreamText messages :: rest => messages :: aiRequests rest
  | _ :: rest => aiRequests rest
  end.

(** The toasts of a trace, oldest first, by title and description. *)
Fixpoint toasts (tr : list Event) : list (string * string) :=
  match tr with
  | [] => []
  | Toast title description _ :: rest => (title, description) :: toasts rest
  | _ :: rest => toasts rest
  end.

(** The conversation of a state with a given id, the first if several. *)
Definition conversationOf (s : State.t) (id : string) : option Conversation.t :=
  find (fun c => (Conversation.id c =? id)%string) (State.conversations s).

(** The runtime reads its own ISO string of a time value back as that
    time value, and its own JSON text of a value back as that value; both
    texts are non-empty.  ECMAScript promises both. *)
Definition readsBackDate `{Runtime} (ms : Z) : Prop :=
  Date_toISOString ms <> "" /\ Date_parse (Date_toISOString ms) = DateAt ms.

Definition readsBack `{Runtime} (v : Json) : Prop :=
  JSON_stringify v <> "" /\ JSON_parse (JSON_stringify v) = Some v.

(** What the proofs follow through a task: the conversations of the live
    state and the generation requests issued so far. *)
Definition view (w : World) : list Conversation.t * list (list AiMessage.t) :=
  (State.conversations (state w), aiRequests (trace w)).

(** A task that leaves the view as it is, however it ends. *)
Definition quiet {A} (t : Task A) : Prop :=
  forall w, view (snd (t w)) = view w.

(** A task that returns and leaves the view as it is. *)
Definition calm {A} (t : Task A) : Prop :=
  forall w, exists a w', t w = (Returned a, w') /\ view w' = view w.

(** The latest render selects a conversation that [sendMessage] uses: the
    current id is non-empty and found in the list. *)
Definition selectsConversation (s : State.t) : bool :=
  match State.currentConversationId s with
  | Some cid =>
      match conversationOf s cid with
      | Some _ => negb (falsy cid)
      | None => false
      end
  | None => false
  end.

(** The remote deletion of conversation [id] starts at consultation [t]
    with the list call, which answers [messages]; the deletes of the
    messages take the consultations after it, in order, and the delete of
    the conversation the one after those.  Some delete of the sequence is
    rejected: *)
Definition someDeleteFails (env : Env) (t : nat) (id : string)
  (messages : list DbMessage.t) : Prop :=
  (exists k m e,
      nth_error messages k = Some m
      /\ db_messages_delete env (S t + k) (DbMessage.id m) = Thrown e)
  \/ (exists e, db_conversations_delete env (S t + List.length messages) id = Thrown e).

(** every delete of the sequence succeeds. *)
Definition everyDeleteSucceeds (env : Env) (t : nat) (id : string)
  (messages : list DbMessage.t) : Prop :=
  (forall k m,
      nth_error messages k = Some m ->
      db_messages_delete env (S t + k) (DbMessage.id m) = Returned tt)
  /\ db_conversations_delete env (S t + List.length messages) id = Returned tt.

(** ** Scenarios *)

Module Scenario.

(** Identifiers and times as the scenarios' environments hand them out. *)
Definition idAt (t : nat) : string :=
  ("id" ++ Reference.digits 3 (Z.of_nat t) "")%string.

Definition timeAt (t : nat) : Z := (1700000000000 + Z.of_nat t)%Z.

(** An assistant message with a citation, and one whose text is empty (a
    generation that streamed nothing). *)
Definition citedReply : Message.t :=
  {| Message.id := "m2";
     Message.type := assistant;
     Message.content := "Rocq is a proof assistant.";
     Message.timestamp := DateAt 1700000000123;
     Message.isLoading := None;
     Message.sources := Some (strings ["https://rocq-prover.org"]) |}.

Definition emptyReply : Message.t :=
  {| Message.id := "m3";
     Message.type := assistant;
     Message.content := "";
     Message.timestamp := DateAt 1700000000456;
     Message.isLoading := None;
     Message.sources := None |}.

(** A conversation record whose [created_at] is not a date and whose
    [updated_at] is missing, and a message record without a timestamp. *)
Definition datelessConversation : DbConversation.t :=
  {| DbConversation.id := "c1";
     DbConversation.user_id := "u1";
     DbConversation.title := "Trip plans";
     DbConversation.created_at := Some "yesterday";
     DbConversation.updated_at := None |}.

Definition datelessMessage : DbMessage.t :=
  {| DbMessage.id := "m1";
     DbMessage.conversation_id := "c1";
     DbMessage.user_id := "u1";
     DbMessage.type := "user";
     DbMessage.content := "hello";
     DbMessage.timestamp := Some "";
     DbMessage.sources := None |}.

Definition alice : User.t := {| User.id := "u1"; User.email := "alice@example.org" |}.

(** Turn [i] of a long conversation: the user and the assistant alternate. *)
Definition turn (i : nat) : Message.t :=
  {| Message.id := ("t" ++ Reference.digits 2 (Z.of_nat i) "")%string;
     Message.type := if Nat.even i then user else assistant;
     Message.content := ("turn " ++ Reference.digits 2 (Z.of_nat i) "")%string;
     Message.timestamp := DateAt (1690000000000 + Z.of_nat i);
     Message.isLoading := None;
     Message.sources := None |}.

(** A conversation with 25 messages. *)
Definition longChat : Conversation.t :=
  {| Conversation.id := "c1";
     Conversation.title := "Trip plans";
     Conversation.messages := map turn (seq 1 25);
     Conversation.createdAt := DateAt 1690000000000;
     Conversation.updatedAt := DateAt 1690000000025 |}.

(** A conversation without messages yet. *)
Definition newChat : Conversation.t :=
  {| Conversation.id := "c1";
     Conversation.title := "New Chat";
     Conversation.messages := [];
     Conversation.createdAt := DateAt 1690000000000;
     Conversation.updatedAt := DateAt 1690000000000 |}.

(** The hook with the given conversations, the first one selected. *)
Definition hook (u : option User.t) (conversations : list Conversation.t) : State.t :=
  {| State.conversations := conversations;
     State.currentConversationId := option_map Conversation.id (hd_error conversations);
     State.isLoading := false;
     State.user := u;
     State.isAuthenticated := match u with Some _ => true | None => false end;
     State.initialized := true |}.

Definition start (s : State.t) : World :=
  {| state := s; trace := []; tick := 0 |}.

Definition stored (t : nat) (r : NewDbConversation.t) : DbConversation.t :=
  {| DbConversation.id := NewDbConversation.id r;
     DbConversation.user_id := NewDbConversation.user_id r;
     DbConversation.title := NewDbConversation.title r;
     DbConversation.created_at := Some (Reference.formatISO (timeAt t));
     DbConversation.updated_at := Some (Reference.formatISO (timeAt t)) |}.

Definition persisted (id : string) : DbMessage.t :=
  {| DbMessage.id := id;
     DbMessage.conversation_id := "c1";
     DbMessage.user_id := "u1";
     DbMessage.type := "user";
     DbMessage.content := "hello";
     DbMessage.timestamp := Some "2023-07-22T04:26:40.000Z";
     DbMessage.sources := None |}.


(** Every remote call succeeds; the generation streams three chunks and
    returns without citations. *)
Definition fair : Env :=
  {| db_conversations_create := fun t r => Returned (stored t r);
     db_conversations_update := fun _ _ _ => Returned tt;
     db_conversations_delete := fun _ _ => Returned tt;
     db_messages_list := fun _ _ => Returned [persisted "m1"; persisted "m2"; persisted "m3"];
     db_messages_create := fun _ _ => Returned tt;
     db_messages_delete := fun _ _ => Returned tt;
     ai_streamText := fun _ _ => (["Hel"; "lo"; " world"], Returned None);
     Date_now := timeAt;
     generateId_at := idAt |}.

(** As [fair], but the generation call is rejected after its first chunk. *)
Definition brokenStream : Env :=
  {| db_conversations_create := db_conversations_create fair;
     db_conversations_update := db_conversations_update fair;
     db_conversations_delete := db_conversations_delete fair;
     db_messages_list := db_messages_list fair;
     db_messages_create := db_messages_create fair;
     db_messages_delete := db_messages_delete fair;
     ai_streamText := fun _ _ => (["Hel"], Thrown RemoteError);
     Date_now := timeAt;
     generateId_at := idAt |}.

(** As [fair], but the store refuses to delete the message [m2]. *)
Definition brokenDelete : Env :=
  {| db_conversations_create := db_conversations_create fair;
     db_conversations_update := db_conversations_update fair;
     db_conversations_delete := db_conversations_delete fair;
     db_messages_list := db_messages_list fair;
     db_messages_create := db_messages_create fair;
     db_messages_delete :=
       fun _ id => if (id =? "m2")%string then Thrown RemoteError else Returned tt;
     ai_streamText := ai_streamText fair;
     Date_now := timeAt;
     generateId_at := idAt |}.

(** A conversation whose three messages are persisted as [m1], [m2], [m3]. *)
Definition savedChat : Conversation.t :=
  {| Conversation.id := "c1";
     Conversation.title := "Trip plans";
     Conversation.messages :=
       @transformDbMessages Reference.runtime [persisted "m1"; persisted "m2"; persisted "m3"];
     Conversation.createdAt := DateAt 1690000000000;
     Conversation.updatedAt := DateAt 1690000000000 |}.

(** The messages of conversation [c1] in a world. *)
Definition messagesOfC1 (w : World) : list Message.t :=
  match conversationOf (state w) "c1" with
  | Some c => Conversation.messages c
  | None => []
  end.

End Scenario.

(** * The rest of the hook and its consumers *)

(** ** Start-up: the effect of [useChat] *)

Definition setUser (u : option User.t) : Task unit :=
  modify (fun s =>
    {| State.conversations := State.conversations s;
       State.currentConversationId := State.currentConversationId s;
       State.isLoading := State.isLoading s;
       State.user := u;
       State.isAuthenticated := State.isAuthenticated s;
       State.initialized := State.initialized s |}).

Definition setIsAuthenticated (b : bool) : Task unit :=
  modify (fun s =>
    {| State.conversations := State.conversations s;
       State.currentConversationId := State.currentConversationId s;
       State.isLoading := State.isLoading s;
       State.user := State.user s;
       State.isAuthenticated := b;
       State.initialized := State.initialized s |}).

Definition setInitialized (b : bool) : Task unit :=
  modify (fun s =>
    {| State.conversations := State.conversations s;
       State.currentConversationId := State.currentConversationId s;
       State.isLoading := State.isLoading s;
       State.user := State.user s;
       State.isAuthenticated := State.isAuthenticated s;
       State.initialized := b |}).

(** The state of the hook before its first render: the [useState]
    defaults. *)
Definition initialState : State.t :=
  {| State.conversations := [];
     State.currentConversationId := None;
     State.isLoading := false;
     State.user := None;
     State.isAuthenticated := false;
     State.initialized := false |}.

(** What the start-up asks of the SDK, by consultation number as in
    [Env]: [blink.auth.me()], the twenty latest conversations of a user
    ([blink.db.conversations.list] by [user_id]) and the first hundred
    messages of a conversation ([blink.db.messages.list] by
    [conversation_id], oldest first). *)
Record Startup := {
  auth_me : nat -> Outcome User.t;
  db_conversations_list : nat -> string -> Outcome (list DbConversation.t);
  db_messages_page : nat -> string -> Outcome (list DbMessage.t)
}.

(** [await] of a call that the trace does not record. *)
Definition ask {A} (answer : nat -> Outcome A) : Task A :=
  r <- consult answer ;;
  lift r.

(** [{ ...convo, messages }] *)
Definition withMessages (messages : list Message.t) (convo : Conversation.t)
  : Conversation.t :=
  {| Conversation.id := Conversation.id convo;
     Conversation.title := Conversation.title convo;
     Conversation.messages := messages;
     Conversation.createdAt := Conversation.createdAt convo;
     Conversation.updatedAt := Conversation.updatedAt convo |}.

Section Startup.
Context `{Runtime}.
Variable env : Env.
Variable sdk : Startup.

(** How often [transformDbConversations] reads the clock on a list of
    records: once for every record with an id and a title. *)
Definition clockReads (dbConvos : list DbConversation.t) : nat :=
  List.length
    (filter (fun dbConvo =>
               negb (falsy (DbConversation.id dbConvo)
                     || falsy (DbConversation.title dbConvo)))
       dbConvos).

(** [transformDbConversations(dbConvos)] inside a task: iteration [i]
    reads the clock after the readings of the iterations before it. *)
Definition transformingConversations (dbConvos : list DbConversation.t)
  : Task (list Conversation.t) :=
  fun w =>
    (Returned (transformDbConversations
                 (fun i => DateAt (Date_now env (tick w + clockReads (firstn i dbConvos))))
                 dbConvos),
     {| state := state w; trace := trace w;
        tick := tick w + clockReads dbConvos |}).

(** The body of the loop over the transformed conversations: the entry it
    pushes. *)
Definition loadMessages (convo : Conversation.t) : Task Conversation.t :=
  try_catch
    (dbMessages <- await (DbMessagesList (Conversation.id convo))
                     (fun t => db_messages_page sdk t (Conversation.id convo)) ;;
     let transformedMessages := transformDbMessages dbMessages in
     ret (withMessages transformedMessages convo))
    (fun _ => ret (withMessages [] convo)).

(** [for (const convo of transformedConvos) { ... convosWithMessages.push(...) }] *)
Fixpoint loadEach (transformedConvos convosWithMessages : list Conversation.t)
  : Task (list Conversation.t) :=
  match transformedConvos with
  | [] => ret convosWithMessages
  | convo :: rest =>
      loaded <- loadMessages convo ;;
      loadEach rest (convosWithMessages ++ [loaded])
  end.

(** "Load conversations from database with proper transformation" *)
Definition loadConversations (authUser : User.t) : Task unit :=
  try_catch
    (dbConvos <- ask (fun t => db_conversations_list sdk t (User.id authUser)) ;;
     transformedConvos <- transformingConversations dbConvos ;;
     convosWithMessages <- loadEach transformedConvos [] ;;
     setConversations (fun _ => convosWithMessages) ;;
     setCurrentConversationId (option_map Conversation.id (hd_error convosWithMessages)))
    (fun _ =>
       setConversations (fun _ => []) ;;
       setCurrentConversationId None).

(** [initializeChat] *)
Definition initializeChat : Task unit :=
  finally
    (try_catch
       (try_catch
          (authUser <- ask (auth_me sdk) ;;
           setUser (Some authUser) ;;
           setIsAuthenticated true ;;
           loadConversations authUser)
          (fun _ =>
             setUser None ;;
             setIsAuthenticated false ;;
             setConversations (fun _ => []) ;;
             setCurrentConversationId None))
       (fun _ =>
          setConversations (fun _ => []) ;;
          setCurrentConversationId None))
    (setInitialized true).

(** The effect, as created by a render: [if (initialized) return]. *)
Definition initializeEffect (render : State.t) : Task unit :=
  if State.initialized render then ret tt else initializeChat.

End Startup.

(** ** The consumers: [ChatInput] and [ChatMessage] *)

Module ChatInput.

(** [handleSubmit]: the argument of [onSend], if it is called, and the
    input afterwards. *)
Definition handleSubmit (input : string) (isLoading : bool) : option string * string :=
  if negb (falsy (trim input)) && negb isLoading
  then (Some (trim input), "")
  else (None, input).

(** [handleKeyDown] *)
Definition handleKeyDown (key : string) (shiftKey : bool) (input : string)
  (isLoading : bool) : option string * string :=
  if (key =? "Enter")%string && negb shiftKey
  then handleSubmit input isLoading
  else (None, input).

(** The form of [App]: [onSend] is [sendMessage] and [isLoading] the flag
    of the hook, both of the latest render. *)
Definition submit `{Runtime} (env : Env) (input : string) (w : World) : World * string :=
  match handleSubmit input (State.isLoading (state w)) with
  | (Some message, input') => (snd (sendMessage env (state w) message w), input')
  | (None, input') => (w, input')
  end.

End ChatInput.

Module ChatMessage.

(** [message.isLoading] as a condition. *)
Definition isLoading (m : Message.t) : bool :=
  match Message.isLoading m with
  | Some b => b
  | None => false
  end.

(** [message.isLoading && !message.content]: the "Thinking..." row in place
    of the content. *)
Definition showsThinking (m : Message.t) : bool :=
  isLoading m && falsy (Message.content m).

(** [message.isLoading && message.content]: the cursor after the content. *)
Definition showsCursor (m : Message.t) : bool :=
  negb (showsThinking m) && (isLoading m && negb (falsy (Message.content m))).

(** [message.sources && message.sources.length > 0 && !message.isLoading]:
    the sources block, with the sources it lists, one button each.  The
    block calls [message.sources.map], which only an array has. *)
Definition shownSources `{Runtime} (m : Message.t) : Outcome (option (list Json)) :=
  match hasSources m with
  | Thrown e => Thrown e
  | Returned some =>
      if some && negb (isLoading m) then
        match Message.sources m with
        | Some (JArray sources) => Returned (Some sources)
        | _ => Thrown TypeError
        end
      else Returned None
  end.

(** [!message.isLoading]: the copy action and the time. *)
Definition showsActions (m : Message.t) : bool :=
  negb (isLoading m).

End ChatMessage.

Module ConversationSidebar.

(** [formatTimeSafely]; [formatDistanceToNow] is the function of date-fns,
    which may throw. *)
Definition formatTimeSafely (formatDistanceToNow : Date -> Outcome string) (date : Date)
  : string :=
  if isNaN_getTime date then "Unknown time"
  else
    match formatDistanceToNow date with
    | Returned text => text
    | Thrown _ => "Unknown time"
    end.

(** A row of the list: the title, the time and whether the row is the
    active one. *)
Definition row (formatDistanceToNow : Date -> Outcome string)
  (currentConversationId : option string) (conversation : Conversation.t)
  : string * string * bool :=
  (Conversation.title conversation,
   formatTimeSafely formatDistanceToNow (Conversation.updatedAt conversation),
   id_is currentConversationId (Conversation.id conversation)).

Definition rows (formatDistanceToNow : Date -> Outcome string) (s : State.t)
  : list (string * string * bool) :=
  map (row formatDistanceToNow (State.currentConversationId s)) (State.conversations s).

(** What the sidebar lets the user do: "New chat", and for every row a
    click on it and its trash button. *)
Definition offers (s : State.t) : list Operation :=
  StartNewConversation
  :: flat_map
       (fun conversation =>
          [SelectConversation (Conversation.id conversation);
           DeleteConversation (Conversation.id conversation)])
       (State.conversations s).

End ConversationSidebar.

(** ** Vocabulary of the properties of the hook *)

(** A task that leaves an observation of the world as it is, however it
    ends; one that also returns; one that returns. *)
Definition keeps {X A} (obs : World -> X) (t : Task A) : Prop :=
  forall w, obs (snd (t w)) = obs w.

Definition passes {X A} (obs : World -> X) (t : Task A) : Prop :=
  forall w, exists a w', t w = (Returned a, w') /\ obs w' = obs w.

Definition total {A} (t : Task A) : Prop :=
  forall w, exists a, fst (t w) = Returned a.

(** The generation requests issued so far. *)
Definition requests (w : World) : list (list AiMessage.t) := aiRequests (trace w).

Definition withConversations (conversations : list Conversation.t) (s : State.t)
  : State.t :=
  {| State.conversations := conversations;
     State.currentConversationId := State.currentConversationId s;
     State.isLoading := State.isLoading s;
     State.user := State.user s;
     State.isAuthenticated := State.isAuthenticated s;
     State.initialized := State.initialized s |}.

(** The state apart from its conversations and its busy flag. *)
Definition session (s : State.t) : option string * option User.t * bool * bool :=
  (State.currentConversationId s, State.user s, State.isAuthenticated s,
   State.initialized s).

(** How an update of a conversation treats it. *)
Definition keepsId (F : Conversation.t -> Conversation.t) : Prop :=
  forall c, Conversation.id (F c) = Conversation.id c.

(** The messages of [c'] are those of [c], by id and in order, followed by
    further ones. *)
Definition continues (c c' : Conversation.t) : Prop :=
  exists added,
    map Message.id (Conversation.messages c')
    = map Message.id (Conversation.messages c) ++ added.

Definition growsOnly (F : Conversation.t -> Conversation.t) : Prop :=
  forall c, Conversation.createdAt (F c) = Conversation.createdAt c /\ continues c (F c).

(** The date of the last update is left as it was or set to a time. *)
Definition stampsOrKeeps (F : Conversation.t -> Conversation.t) : Prop :=
  forall c,
    Conversation.updatedAt (F c) = Conversation.updatedAt c
    \/ exists ms, Conversation.updatedAt (F c) = DateAt ms.

Definition stamps (F : Conversation.t -> Conversation.t) : Prop :=
  forall c, exists ms, Conversation.updatedAt (F c) = DateAt ms.

(** An update that only adds messages; one that adds some and stamps the
    conversation; one that also sets the title. *)
Definition adds (F : Conversation.t -> Conversation.t) : Prop :=
  growsOnly F
  /\ (forall c, Conversation.title (F c) = Conversation.title c)
  /\ stampsOrKeeps F.

Definition sends (F : Conversation.t -> Conversation.t) : Prop :=
  growsOnly F
  /\ (forall c, Conversation.title (F c) = Conversation.title c)
  /\ stamps F.

Definition entitles (title : string) (F : Conversation.t -> Conversation.t) : Prop :=
  growsOnly F
  /\ (forall c, Conversation.title (F c) = title)
  /\ stamps F.

(** A task whose whole effect on the state is an update of the
    conversations with id [cid], by a function with the property [P]. *)
Definition amends (P : (Conversation.t -> Conversation.t) -> Prop) (cid : string)
  {A} (t : Task A) : Prop :=
  forall w, exists F,
    keepsId F /\ P F
    /\ state (snd (t w))
       = withConversations (updateWhere cid F (State.conversations (state w))) (state w).

(** What a send may do to the conversations it found: each stays in its
    place with its id and creation date, those with another id than [cid]
    as they were, and the one with id [cid] keeps the messages it had, by
    id and in order. *)
Definition sentInto (cid : string) (before after : list Conversation.t) : Prop :=
  Forall2
    (fun c c' =>
       Conversation.id c' = Conversation.id c
       /\ Conversation.createdAt c' = Conversation.createdAt c
       /\ continues c c'
       /\ (Conversation.id c <> cid -> c' = c))
    before after.

(** The conversation that a send from a render goes into, if the render
    selects one: the current id is non-empty and found in the list. *)
Definition selected (render : State.t) : option Conversation.t :=
  match State.currentConversationId render with
  | Some cid => if falsy cid then None else conversationOf render cid
  | None => None
  end.

(** The generation request of a send from a render, in the words of the
    specification: the last twenty messages of the selected conversation,
    if there is one, each as its role and its content, and the new message
    as the user's. *)
Definition requestOf (render : State.t) (content : string) : list AiMessage.t :=
  let prior :=
    match selected render with
    | Some conversation => Conversation.messages conversation
    | None => []
    end in
  map (fun m =>
         {| AiMessage.role :=
              match Message.type m with
              | user => "user"
              | assistant => "assistant"
              end;
            AiMessage.content := Message.content m |})
    (skipn (List.length prior - 20) prior)
  ++ [ {| AiMessage.role := "user"; AiMessage.content := content |} ].

(** The title of the conversation of a send from a render, afterwards. *)
Definition titleAfter (render : State.t) (content : string) : string :=
  match selected render with
  | Some conversation =>
      if (List.length (Conversation.messages conversation) =? 0)%nat
      then titleFrom content
      else Conversation.title conversation
  | None => titleFrom content
  end.

Definition sameOperation (a b : Operation) : bool :=
  match a, b with
  | StartNewConversation, StartNewConversation => true
  | SelectConversation x, SelectConversation y => (x =? y)%string
  | DeleteConversation x, DeleteConversation y => (x =? y)%string
  | SendMessage x, SendMessage y => (x =? y)%string
  | _, _ => false
  end.

(** An operation that the interface offers in a state: one of the sidebar,
    or a send (the form and the suggestions of [App]). *)
Definition offered (s : State.t) (op : Operation) : bool :=
  match op with
  | SendMessage _ => true
  | _ => existsb (sameOperation op) (ConversationSidebar.offers s)
  end.

(** A sequence of operations each of which the interface offers when its
    turn comes. *)
Fixpoint userDriven `{Runtime} (env : Env) (w : World) (ops : list Operation) : bool :=
  match ops with
  | [] => true
  | op :: rest => offered (state w) op && userDriven env (perform env w op) rest
  end.

(** The calls of the store in a trace: neither the generation requests nor
    the toasts. *)
Definition isStoreCall (ev : Event) : bool :=
  match ev with
  | AiStreamText _ => false
  | Toast _ _ _ => false
  | _ => true
  end.

Definition storeLog (w : World) : list Event := filter isStoreCall (trace w).

(** A message record of a conversation and a user with the given role,
    content and sources column, stamped with the ISO text of a time. *)
Definition recordOf `{Runtime} (cid uid type content : string) (sources : option string)
  (r : DbMessage.t) : Prop :=
  DbMessage.conversation_id r = cid
  /\ DbMessage.user_id r = uid
  /\ DbMessage.type r = type
  /\ DbMessage.content r = content
  /\ DbMessage.sources r = sources
  /\ exists ms, DbMessage.timestamp r = Some (Date_toISOString ms).

(** The sources column written for the citations of a generation result:
    their JSON text when there is at least one. *)
Definition citationsColumn `{Runtime} (result : option (list string)) : option string :=
  match result with
  | Some (source :: sources) => Some (JSON_stringify (strings (source :: sources)))
  | _ => None
  end.

(** The selection of a state points into its list, or is empty. *)
Definition selectionValid (s : State.t) : bool :=
  match State.currentConversationId s with
  | Some cid =>
      match conversationOf s cid with
      | Some _ => true
      | None => false
      end
  | None => true
  end.

(** No message of the state is shown as loading. *)
Definition settled (s : State.t) : bool :=
  forallb (fun c => forallb (fun m => negb (loading m)) (Conversation.messages c))
    (State.conversations s).

(** The remote part of a deletion, started at consultation [t], goes
    through: the list call answers and every delete succeeds. *)
Definition deletesRemotely (env : Env) (t : nat) (id : string) : Prop :=
  exists messages,
    db_messages_list env t id = Returned messages
    /\ everyDeleteSucceeds env t id messages.

(** ** Further scenarios *)

Module Walkthrough.

(** As [Scenario.fair], but the store rejects every write. *)
Definition readOnly : Env :=
  {| db_conversations_create := fun _ _ => Thrown RemoteError;
     db_conversations_update := fun _ _ _ => Thrown RemoteError;
     db_conversations_delete := db_conversations_delete Scenario.fair;
     db_messages_list := db_messages_list Scenario.fair;
     db_messages_create := fun _ _ => Thrown RemoteError;
     db_messages_delete := db_messages_delete Scenario.fair;
     ai_streamText := ai_streamText Scenario.fair;
     Date_now := Scenario.timeAt;
     generateId_at := Scenario.idAt |}.

(** As [Scenario.fair], but the messages of a conversation cannot be
    listed. *)
Definition sealed : Env :=
  {| db_conversations_create := db_conversations_create Scenario.fair;
     db_conversations_update := db_conversations_update Scenario.fair;
     db_conversations_delete := db_conversations_delete Scenario.fair;
     db_messages_list := fun _ _ => Thrown RemoteError;
     db_messages_create := db_messages_create Scenario.fair;
     db_messages_delete := db_messages_delete Scenario.fair;
     ai_streamText := ai_streamText Scenario.fair;
     Date_now := Scenario.timeAt;
     generateId_at := Scenario.idAt |}.

(** As [Scenario.fair], but the generation returns two citations. *)
Definition cited : Env :=
  {| db_conversations_create := db_conversations_create Scenario.fair;
     db_conversations_update := db_conversations_update Scenario.fair;
     db_conversations_delete := db_conversations_delete Scenario.fair;
     db_messages_list := db_messages_list Scenario.fair;
     db_messages_create := db_messages_create Scenario.fair;
     db_messages_delete := db_messages_delete Scenario.fair;
     ai_streamText :=
       fun _ _ => (["Hel"; "lo"],
                   Returned (Some ["https://rocq-prover.org"; "https://example.org"]));
     Date_now := Scenario.timeAt;
     generateId_at := Scenario.idAt |}.

Definition record (id title : string) : DbConversation.t :=
  {| DbConversation.id := id;
     DbConversation.user_id := "u1";
     DbConversation.title := title;
     DbConversation.created_at := Some "2023-07-22T04:26:40.000Z";
     DbConversation.updated_at := Some "2023-07-22T04:26:40.000Z" |}.

(** A store with three conversation records, the second without a title;
    the messages of [c3] cannot be listed, and one of the messages of
    [c1] has no timestamp. *)
Definition store : Startup :=
  {| auth_me := fun _ => Returned Scenario.alice;
     db_conversations_list :=
       fun _ _ => Returned [record "c1" "Trip plans"; record "c2" ""; record "c3" "Recipes"];
     db_messages_page :=
       fun _ id =>
         if (id =? "c3")%string then Thrown RemoteError
         else Returned [Scenario.persisted "m1"; Scenario.datelessMessage;
                        Scenario.persisted "m3"] |}.

(** Nobody is signed in. *)
Definition signedOut : Startup :=
  {| auth_me := fun _ => Thrown RemoteError;
     db_conversations_list := db_conversations_list store;
     db_messages_page := db_messages_page store |}.

(** The user is signed in, but the conversations cannot be listed. *)
Definition unlistable : Startup :=
  {| auth_me := auth_me store;
     db_conversations_list := fun _ _ => Thrown RemoteError;
     db_messages_page := db_messages_page store |}.

(** A second conversation beside [Scenario.newChat]. *)
Definition otherChat : Conversation.t :=
  {| Conversation.id := "c2";
     Conversation.title := "Recipes";
     Conversation.messages := [Scenario.turn 1; Scenario.turn 2];
     Conversation.createdAt := DateAt 1680000000000;
     Conversation.updatedAt := DateAt 1680000000002 |}.

(** A state in which nothing is selected. *)
Definition unselected (u : option User.t) (conversations : list Conversation.t)
  : State.t :=
  {| State.conversations := conversations;
     State.currentConversationId := None;
     State.isLoading := false;
     State.user := u;
     State.isAuthenticated := match u with Some _ => true | None => false end;
     State.initialized := true |}.

(** A message record whose sources column is as given. *)
Definition withSourcesColumn (column : option string) : DbMessage.t :=
  {| DbMessage.id := "m1";
     DbMessage.conversation_id := "c1";
     DbMessage.user_id := "u1";
     DbMessage.type := "assistant";
     DbMessage.content := "hello";
     DbMessage.timestamp := Some "2023-07-22T04:26:40.000Z";
     DbMessage.sources := column |}.

End Walkthrough.

(** * Properties *)

(** ** Strings *)

Lemma falsy_true (s : string) : falsy s = true <-> s = "".
Proof. destruct s; simpl; split; intros E; congruence. Qed.

Lemma falsy_false (s : string) : falsy s = false <-> s <> "".
Proof. destruct s; simpl; split; intros E; congruence. Qed.

Lemma length_append (a b : string) :
  String.length (a ++ b) = String.length a + String.length b.
Proof. induction a as [| c a IH]; simpl; [reflexivity | now rewrite IH]. Qed.

Lemma length_substring_prefix (n : nat) (s : string) :
  n <= String.length s -> String.length (substring 0 n s) = n.
Proof.
  revert s. induction n as [| n IH]; intros s Hn.
  - destruct s; reflexivity.
  - destruct s as [| c s]; simpl in *; [lia |].
    rewrite IH by lia. reflexivity.
Qed.

Lemma substring_skip_append (a b : string) (n : nat) :
  substring (String.length a) n (a ++ b) = substring 0 n b.
Proof. induction a as [| c a IH]; simpl; [reflexivity | exact IH]. Qed.

Lemma append_nil_r (s : string) : (s ++ "")%string = s.
Proof. induction s as [| c s IH]; cbn; [reflexivity | now rewrite IH]. Qed.

Lemma append_assoc (a b c : string) : ((a ++ b) ++ c = a ++ (b ++ c))%string.
Proof. induction a as [| x a IH]; cbn; [reflexivity | now rewrite IH]. Qed.

(** Joining chunks with the empty separator is appending them. *)
Lemma concat_empty_cons (x : string) (l : list string) :
  String.concat "" (x :: l) = (x ++ String.concat "" l)%string.
Proof. destruct l; cbn; [now rewrite append_nil_r | reflexivity]. Qed.

(** ** The record transform layer *)

Section TransformFacts.
Context `{Runtime}.

Lemma parseDate_None (column : option string) :
  parseDate column = None <-> unparsable_or_missing column.
Proof.
  unfold parseDate, unparsable_or_missing.
  destruct column as [s |]; [| tauto].
  destruct (falsy s) eqn:F.
  - apply falsy_true in F. tauto.
  - apply falsy_false in F.
    destruct (Date_parse s) eqn:P; simpl; split; intros E; try congruence; auto.
    destruct E as [E | E]; congruence.
Qed.


Lemma transformDbConversation_valid (now : Date) (r : DbConversation.t) :
  DbConversation.id r <> "" -> DbConversation.title r <> "" ->
  transformDbConversation now r =
    Some {| Conversation.id := DbConversation.id r;
            Conversation.title := DbConversation.title r;
            Conversation.messages := [];
            Conversation.createdAt := or_else (parseDate (DbConversation.created_at r)) now;
            Conversation.updatedAt := or_else (parseDate (DbConversation.updated_at r)) now |}.
Proof.
  intros Hid Htitle. unfold transformDbConversation.
  apply falsy_false in Hid, Htitle. rewrite Hid, Htitle. reflexivity.
Qed.

Lemma transformDbMessage_needs_timestamp (m : DbMessage.t) :
  parseDate (DbMessage.timestamp m) = None -> transformDbMessage m = None.
Proof.
  intros E. unfold transformDbMessage. rewrite E.
  destruct (_ || _); [reflexivity |]. destruct (_ && _); reflexivity.
Qed.

(** A record is valid exactly when its transform yields an entity. *)
Lemma transformDbConversation_valid_iff (now : Date) (r : DbConversation.t) :
  validConversation r
  = match transformDbConversation now r with Some _ => true | None => false end.
Proof.
  unfold validConversation, transformDbConversation.
  destruct (falsy (DbConversation.id r)), (falsy (DbConversation.title r)); reflexivity.
Qed.

Lemma parsable_parseDate (column : option string) :
  parsable column = match parseDate column with Some _ => true | None => false end.
Proof.
  unfold parsable, parseDate. destruct column as [s |]; [| reflexivity].
  destruct (falsy s); [reflexivity |].
  destruct (isNaN_getTime (Date_parse s)); reflexivity.
Qed.

(** What [transformDbMessage] does with a valid record hangs on its
    sources alone: the record is lost when reading their length throws. *)
Lemma transformDbMessage_valid (r : DbMessage.t) :
  validMessage r = true ->
  exists timestamp,
    parseDate (DbMessage.timestamp r) = Some timestamp
    /\ transformDbMessage r
       = match lengthAboveZero (parseJsonSafely (DbMessage.sources r) (JArray [])) with
         | Thrown _ => None
         | Returned nonEmpty =>
             Some {| Message.id := DbMessage.id r;
                     Message.type :=
                       if DbMessage.type r =? "user" then user else assistant;
                     Message.content := DbMessage.content r;
                     Message.timestamp := timestamp;
                     Message.isLoading := None;
                     Message.sources :=
                       if nonEmpty
                       then Some (parseJsonSafely (DbMessage.sources r) (JArray []))
                       else None |}
         end.
Proof.
  unfold validMessage, transformDbMessage. rewrite parsable_parseDate.
  destruct (falsy (DbMessage.id r)), (falsy (DbMessage.content r)),
    (falsy (DbMessage.type r)); cbn [negb andb orb]; try discriminate.
  destruct (DbMessage.type r =? "user")%string,
    (DbMessage.type r =? "assistant")%string; cbn [negb andb orb]; try discriminate;
    (destruct (parseDate (DbMessage.timestamp r)) as [timestamp |]; [| discriminate]);
    intros _; exists timestamp; (split; [reflexivity |]);
    destruct (lengthAboveZero _); reflexivity.
Qed.

(** Only a valid record is transformed. *)
Lemma transformDbMessage_Some_valid (r : DbMessage.t) (m : Message.t) :
  transformDbMessage r = Some m -> validMessage r = true.
Proof.
  unfold validMessage, transformDbMessage. rewrite parsable_parseDate.
  destruct (falsy (DbMessage.id r)), (falsy (DbMessage.content r)),
    (falsy (DbMessage.type r)); cbn [negb andb orb]; try discriminate.
  destruct (DbMessage.type r =? "user")%string,
    (DbMessage.type r =? "assistant")%string; cbn [negb andb orb]; try discriminate;
    destruct (parseDate (DbMessage.timestamp r)); (discriminate || reflexivity).
Qed.


Lemma transformDbMessages_from (l : list DbMessage.t) (acc : list Message.t) :
  fold_left
    (fun transformedMessages dbMessage =>
       match transformDbMessage dbMessage with
       | Some transformed => transformedMessages ++ [transformed]
       | None => transformedMessages
       end) l acc
  = acc ++ transformBatch transformDbMessage l.
Proof.
  revert acc. induction l as [| r l IH]; intros acc; simpl.
  - now rewrite app_nil_r.
  - rewrite IH. destruct (transformDbMessage r); [| reflexivity].
    now rewrite <- app_assoc.
Qed.

Lemma transformDbConversations_from (now : nat -> Date) (l : list DbConversation.t)
  (i : nat) (acc : list Conversation.t) :
  snd (fold_left
         (fun (st : nat * list Conversation.t) dbConvo =>
            let (i, transformedConversations) := st in
            match transformDbConversation (now i) dbConvo with
            | Some transformed => (S i, transformedConversations ++ [transformed])
            | None => (S i, transformedConversations)
            end) l (i, acc))
  = acc ++ transformBatch (fun ir => transformDbConversation (now (fst ir)) (snd ir))
             (numberedFrom i l).
Proof.
  revert i acc. induction l as [| r l IH]; intros i acc; simpl.
  - now rewrite app_nil_r.
  - destruct (transformDbConversation (now i) r); rewrite IH; [| reflexivity].
    now rewrite <- app_assoc.
Qed.

Lemma transformBatch_length {R D : Type} (transform : R -> option D) (l : list R) :
  List.length (transformBatch transform l)
  = List.length l
    - List.length (filter (fun r => match transform r with Some _ => false | None => true end) l).
Proof.
  induction l as [| r l IH]; [reflexivity |].
  pose proof (filter_length_le
    (fun r => match transform r with Some _ => false | None => true end) l) as Hle.
  cbn [transformBatch filter]. destruct (transform r); cbn [List.length]; lia.
Qed.

Lemma transformBatch_app {R D : Type} (transform : R -> option D) (a b : list R) :
  transformBatch transform (a ++ b)
  = transformBatch transform a ++ transformBatch transform b.
Proof.
  induction a as [| r a IH]; [reflexivity |]. cbn [app transformBatch].
  destruct (transform r); [cbn [app]; now rewrite IH | exact IH].
Qed.

Lemma transformDbMessages_batch (l : list DbMessage.t) :
  transformDbMessages l = transformBatch transformDbMessage l.
Proof. unfold transformDbMessages. now rewrite transformDbMessages_from. Qed.


Lemma transformBatch_Forall2 {R D : Type} (transform : R -> option D) (l : list R) :
  Forall2 (fun r d => transform r = Some d)
    (filter (fun r => match transform r with Some _ => true | None => false end) l)
    (transformBatch transform l).
Proof.
  induction l as [| r l IH]; simpl; [constructor |].
  destruct (transform r) eqn:E; [constructor; assumption | assumption].
Qed.

Lemma numbered_valid_Forall2 (now : nat -> Date) (l : list DbConversation.t) (i : nat) :
  Forall2 (fun r c => exists j, transformDbConversation (now j) r = Some c)
    (filter validConversation l)
    (transformBatch (fun ir => transformDbConversation (now (fst ir)) (snd ir))
       (numberedFrom i l)).
Proof.
  revert i. induction l as [| r l IH]; intros i; simpl; [constructor |].
  rewrite (transformDbConversation_valid_iff (now i) r).
  destruct (transformDbConversation (now i) r) eqn:E; [| apply IH].
  constructor; [exists i; exact E | apply IH].
Qed.

Lemma numbered_invalid_length (now : nat -> Date) (l : list DbConversation.t) (i : nat) :
  List.length (transformBatch (fun ir => transformDbConversation (now (fst ir)) (snd ir))
                 (numberedFrom i l))
  = List.length l - List.length (filter (fun r => negb (validConversation r)) l).
Proof.
  revert i. induction l as [| r l IH]; intros i; [reflexivity |].
  pose proof (filter_length_le (fun r => negb (validConversation r)) l) as Hle.
  specialize (IH (S i)).
  cbn [transformBatch numberedFrom filter fst snd].
  rewrite (transformDbConversation_valid_iff (now i) r).
  destruct (transformDbConversation (now i) r); cbn [negb List.length]; lia.
Qed.

End TransformFacts.

(** C8.  A conversation record with an id and a title is transformed
    whatever its dates: a [created_at] or [updated_at] that is missing or
    unparsable is replaced by the current time, one that parses is kept.  A
    message record whose [timestamp] is missing or unparsable is rejected:
    [transformDbMessage] returns the absence value. *)
Theorem conversation_dates_fall_back_message_timestamp_rejects :
  forall `{Runtime} (now : Date) (r : DbConversation.t) (m : DbMessage.t),
    DbConversation.id r <> "" ->
    DbConversation.title r <> "" ->
    unparsable_or_missing (DbMessage.timestamp m) ->
    (exists c,
        transformDbConversation now r = Some c
        /\ Conversation.id c = DbConversation.id r
        /\ Conversation.title c = DbConversation.title r
        /\ (unparsable_or_missing (DbConversation.created_at r) ->
            Conversation.createdAt c = now)
        /\ (unparsable_or_missing (DbConversation.updated_at r) ->
            Conversation.updatedAt c = now)
        /\ (forall d, parseDate (DbConversation.created_at r) = Some d ->
                      Conversation.createdAt c = d)
        /\ (forall d, parseDate (DbConversation.updated_at r) = Some d ->
                      Conversation.updatedAt c = d))
    /\ transformDbMessage m = None.
Proof.
  intros rt now r m Hid Htitle Hbad. split.
  - eexists. split; [apply transformDbConversation_valid; assumption |].
    simpl. repeat split.
    + intros B. apply parseDate_None in B. now rewrite B.
    + intros B. apply parseDate_None in B. now rewrite B.
    + intros d E. now rewrite E.
    + intros d E. now rewrite E.
  - apply transformDbMessage_needs_timestamp, parseDate_None, Hbad.
Qed.

(** C8 on a record: the unparsable [created_at] and the missing
    [updated_at] both become the current time, and the message without a
    timestamp is rejected. *)
Lemma conversation_dates_fall_back_message_timestamp_rejects_witness :
  (exists c,
      @transformDbConversation Reference.runtime (DateAt 1700000000000)
        Scenario.datelessConversation = Some c
      /\ Conversation.createdAt c = DateAt 1700000000000
      /\ Conversation.updatedAt c = DateAt 1700000000000)
  /\ @transformDbMessage Reference.runtime Scenario.datelessMessage = None.
Proof.
  destruct (@conversation_dates_fall_back_message_timestamp_rejects
              Reference.runtime (DateAt 1700000000000)
              Scenario.datelessConversation Scenario.datelessMessage)
    as [(c & Hc & _ & _ & Hcreated & Hupdated & _) Hm].
  - discriminate.
  - discriminate.
  - simpl. left. reflexivity.
  - split; [| exact Hm].
    exists c. split; [exact Hc |]. split.
    + apply Hcreated. simpl. right. vm_compute. reflexivity.
    + apply Hupdated. simpl. exact I.
Defined.



(** Apart from that the batch of messages is as specified: when no valid
    record of the list has sources whose length cannot be read, the
    messages line up one to one, in order, with the valid records, and a
    list of [n] records with [k] invalid ones yields [n - k] messages. *)
Lemma transformDbMessages_keeps_the_valid_whose_sources_are_read :
  forall `{Runtime} (dbMessages : list DbMessage.t),
    (forall r, In r dbMessages -> validMessage r = true ->
               exists nonEmpty,
                 lengthAboveZero (parseJsonSafely (DbMessage.sources r) (JArray []))
                 = Returned nonEmpty) ->
    Forall2 (fun r m => transformDbMessage r = Some m)
      (filter validMessage dbMessages) (transformDbMessages dbMessages)
    /\ List.length (transformDbMessages dbMessages)
       = List.length dbMessages
         - List.length (filter (fun r => negb (validMessage r)) dbMessages).
Proof.
  intros rt l Hread. rewrite transformDbMessages_batch.
  assert (Hall : Forall2 (fun r m => transformDbMessage r = Some m)
                   (filter validMessage l) (transformBatch transformDbMessage l)).
  { induction l as [| r l IH]; [constructor |]. cbn [filter transformBatch].
    assert (IH' := IH (fun r' Hin => Hread r' (or_intror Hin))).
    destruct (validMessage r) eqn:Hvalid.
    - destruct (Hread r (or_introl eq_refl) Hvalid) as (nonEmpty & Hlen).
      destruct (transformDbMessage_valid r Hvalid) as (timestamp & _ & E).
      rewrite Hlen in E. rewrite E. constructor; [exact E | exact IH'].
    - destruct (transformDbMessage r) as [m |] eqn:E; [| exact IH'].
      rewrite (transformDbMessage_Some_valid r m E) in Hvalid. discriminate. }
  split; [exact Hall |].
  rewrite <- (Forall2_length Hall).
  clear. induction l as [| r l IH]; [reflexivity |].
  pose proof (filter_length_le (fun r => negb (validMessage r)) l) as Hle.
  cbn [filter]. destruct (validMessage r); cbn [negb List.length]; lia.
Qed.

(** The batch of conversations is as specified: the filtering transform
    over the single transform; the conversations that come out line up one
    to one with the valid records, and a list of [n] conversation records
    with [k] invalid ones yields [n - k] conversations. *)
Lemma batch_transforms_filter :
  forall `{Runtime} (now : nat -> Date)
         (dbConversations : list DbConversation.t) (dbMessages : list DbMessage.t),
    transformDbMessages dbMessages = transformBatch transformDbMessage dbMessages
    /\ (transformDbConversations now dbConversations
        = transformBatch (fun ir => transformDbConversation (now (fst ir)) (snd ir))
            (numberedFrom 0 dbConversations)
        /\ Forall2 (fun r c => exists i, transformDbConversation (now i) r = Some c)
             (filter validConversation dbConversations)
             (transformDbConversations now dbConversations)
        /\ List.length (transformDbConversations now dbConversations)
           = List.length dbConversations
             - List.length (filter (fun r => negb (validConversation r)) dbConversations)).
Proof.
  intros rt now cs ms.
  assert (Ec : transformDbConversations now cs
               = transformBatch (fun ir => transformDbConversation (now (fst ir)) (snd ir))
                   (numberedFrom 0 cs)).
  { unfold transformDbConversations. now rewrite transformDbConversations_from. }
  split; [apply transformDbMessages_batch |].
  split; [exact Ec |]. rewrite Ec. split.
  - apply numbered_valid_Forall2.
  - apply numbered_invalid_length.
Qed.

(** ** Round trip of a message through its record *)

Section RoundTrip.
Context `{Runtime}.

Lemma MessageType_to_string_back (t : MessageType) :
  (if MessageType_to_string t =? "user" then user else assistant) = t.
Proof. destruct t; reflexivity. Qed.

Lemma MessageType_to_string_known (t : MessageType) :
  falsy (MessageType_to_string t) = false
  /\ negb (MessageType_to_string t =? "user")
     && negb (MessageType_to_string t =? "assistant") = false.
Proof. destruct t; split; reflexivity. Qed.

Lemma parseDate_reads_back (ms : Z) :
  readsBackDate ms -> parseDate (Some (Date_toISOString ms)) = Some (DateAt ms).
Proof.
  intros [Hne Hparse]. unfold parseDate.
  apply falsy_false in Hne. rewrite Hne, Hparse. reflexivity.
Qed.

Lemma parseJsonSafely_reads_back (v : Json) :
  readsBack v -> parseJsonSafely (Some (JSON_stringify v)) (JArray []) = v.
Proof.
  intros [Hne Hparse]. unfold parseJsonSafely.
  apply falsy_false in Hne. rewrite Hne, Hparse. reflexivity.
Qed.

(** What [transformDbMessage] yields carries no sources or a value whose
    length is above zero: never an empty list. *)
Lemma transformDbMessage_sources (r : DbMessage.t) (m : Message.t) :
  transformDbMessage r = Some m ->
  Message.sources m = None
  \/ exists v, Message.sources m = Some v /\ lengthAboveZero v = Returned true.
Proof.
  unfold transformDbMessage.
  destruct (_ || _); [discriminate |].
  destruct (_ && _); [discriminate |].
  destruct (parseDate _); [| discriminate].
  destruct (lengthAboveZero _) as [[|] |] eqn:E; [| | discriminate];
    intros [= <-]; cbn [Message.sources].
  - right. eexists. split; [reflexivity | exact E].
  - now left.
Qed.

End RoundTrip.

(** C4, as amended.  A message with a non-empty id, a non-empty content
    and a valid timestamp, whose sources are absent or an array, survives
    [createDbMessage] followed by [transformDbMessage]: same id, type,
    content and timestamp, and the same sources up to empty against absent,
    on a runtime that reads its own date and JSON texts back. *)
Theorem message_with_id_and_content_round_trips :
  forall `{Runtime} (m : Message.t) (conversationId userId : string) (ms : Z),
    Message.id m <> "" ->
    Message.content m <> "" ->
    Message.timestamp m = DateAt ms ->
    readsBackDate ms ->
    (forall v, Message.sources m = Some v ->
               exists items, v = JArray items /\ (items <> [] -> readsBack v)) ->
    roundTrips m conversationId userId.
Proof.
  intros rt m cid uid ms Hid Hcontent Hts Hdate Hjson.
  apply falsy_false in Hid, Hcontent.
  destruct (MessageType_to_string_known (Message.type m)) as [Ht1 Ht2].
  unfold roundTrips, createDbMessage, hasSources.
  destruct (Message.sources m) as [v |] eqn:Es.
  - destruct (Hjson v eq_refl) as (items & -> & Hback).
    cbn [truthy lengthAboveZero]. rewrite Hts. cbn [toISOString].
    destruct items as [| x l].
    + eexists. eexists. split; [reflexivity |].
      unfold transformDbMessage. cbn [DbMessage.id DbMessage.content DbMessage.type
                                      DbMessage.timestamp DbMessage.sources].
      rewrite Hid, Hcontent, Ht1, Ht2. cbn [orb].
      rewrite (parseDate_reads_back ms Hdate).
      cbn [List.length Nat.ltb Nat.leb parseJsonSafely lengthAboveZero].
      split; [reflexivity |].
      cbn [Message.id Message.type Message.content Message.timestamp Message.sources].
      rewrite MessageType_to_string_back. now repeat split.
    + change (0 <? List.length (x :: l))%nat with true. cbv iota.
      eexists. eexists. split; [reflexivity |].
      unfold transformDbMessage. cbn [DbMessage.id DbMessage.content DbMessage.type
                                      DbMessage.timestamp DbMessage.sources].
      rewrite Hid, Hcontent, Ht1, Ht2. cbn [orb].
      rewrite (parseDate_reads_back ms Hdate).
      rewrite (parseJsonSafely_reads_back (JArray (x :: l)));
        [| apply Hback; discriminate].
      cbn [lengthAboveZero].
      change (0 <? List.length (x :: l))%nat with true. cbv iota.
      split; [reflexivity |].
      cbn [Message.id Message.type Message.content Message.timestamp Message.sources].
      rewrite MessageType_to_string_back. now repeat split.
  - rewrite Hts. cbn [toISOString].
    eexists. eexists. split; [reflexivity |].
    unfold transformDbMessage. cbn [DbMessage.id DbMessage.content DbMessage.type
                                    DbMessage.timestamp DbMessage.sources].
    rewrite Hid, Hcontent, Ht1, Ht2. cbn [orb].
    rewrite (parseDate_reads_back ms Hdate).
    cbn [parseJsonSafely lengthAboveZero List.length Nat.ltb Nat.leb].
    split; [reflexivity |].
    cbn [Message.id Message.type Message.content Message.timestamp Message.sources].
    rewrite MessageType_to_string_back. now repeat split.
Qed.

(** A message with one citation makes the round trip on the reference
    runtime. *)
Lemma message_with_id_and_content_round_trips_witness :
  @roundTrips Reference.runtime Scenario.citedReply "c1" "u1".
Proof.
  apply (@message_with_id_and_content_round_trips Reference.runtime
           Scenario.citedReply "c1" "u1" 1700000000123%Z).
  - discriminate.
  - discriminate.
  - reflexivity.
  - split; [vm_compute; discriminate | vm_compute; reflexivity].
  - intros v [= <-]. eexists. split; [reflexivity |]. intros _.
    split; [vm_compute; discriminate | vm_compute; reflexivity].
Defined.

(** C4, the claim as stated fails: an assistant message whose generation
    streamed no text is a domain message, [createDbMessage] writes its
    record, and [transformDbMessage] rejects that record for its empty
    content. *)
Lemma empty_content_does_not_round_trip :
  ~ @roundTrips Reference.runtime Scenario.emptyReply "c1" "u1".
Proof.
  intros (r & m' & Hcreate & Hback & _).
  vm_compute in Hcreate. injection Hcreate as <-.
  vm_compute in Hback. discriminate.
Qed.

(** ** Tasks *)

Lemma bind_Returned {A B} (t : Task A) (k : A -> Task B) (w w' : World) (a : A) :
  t w = (Returned a, w') -> bind t k w = k a w'.
Proof. intros E. unfold bind. now rewrite E. Qed.

Lemma bind_Thrown {A B} (t : Task A) (k : A -> Task B) (w w' : World) (e : Exn) :
  t w = (Thrown e, w') -> bind t k w = (Thrown e, w').
Proof. intros E. unfold bind. now rewrite E. Qed.

Lemma aiRequests_app (a b : list Event) :
  aiRequests (a ++ b) = aiRequests a ++ aiRequests b.
Proof.
  induction a as [| ev a IH]; simpl; [reflexivity |].
  destruct ev; simpl; now rewrite ?IH.
Qed.

Lemma toasts_app (a b : list Event) : toasts (a ++ b) = toasts a ++ toasts b.
Proof.
  induction a as [| ev a IH]; simpl; [reflexivity |].
  destruct ev; simpl; now rewrite ?IH.
Qed.

Lemma view_conversations (w w' : World) :
  view w' = view w -> State.conversations (state w') = State.conversations (state w).
Proof. unfold view. now intros [= E _]. Qed.

Lemma view_requests (w w' : World) :
  view w' = view w -> aiRequests (trace w') = aiRequests (trace w).
Proof. unfold view. now intros [= _ E]. Qed.

Lemma view_conversationOf (w w' : World) (id : string) :
  view w' = view w -> conversationOf (state w') id = conversationOf (state w) id.
Proof. intros V. unfold conversationOf. now rewrite (view_conversations _ _ V). Qed.

Lemma calm_quiet {A} (t : Task A) : calm t -> quiet t.
Proof. intros C w. destruct (C w) as (a & w' & E & Q). now rewrite E. Qed.

Lemma calm_ret {A} (a : A) : calm (ret a).
Proof. intros w. now exists a, w. Qed.

Lemma quiet_throw {A} (e : Exn) : quiet (@throw A e).
Proof. intros w. reflexivity. Qed.

Lemma calm_bind {A B} (t : Task A) (k : A -> Task B) :
  calm t -> (forall a, calm (k a)) -> calm (bind t k).
Proof.
  intros Ct Ck w. destruct (Ct w) as (a & w1 & E1 & Q1).
  destruct (Ck a w1) as (b & w2 & E2 & Q2).
  exists b, w2. split; [now rewrite (bind_Returned _ _ _ _ _ E1) | congruence].
Qed.

Lemma quiet_bind {A B} (t : Task A) (k : A -> Task B) :
  quiet t -> (forall a, quiet (k a)) -> quiet (bind t k).
Proof.
  intros Qt Qk w. specialize (Qt w). unfold bind.
  destruct (t w) as [[a | e] w1]; cbn [snd] in *; [| exact Qt].
  now rewrite Qk.
Qed.


Lemma calm_try_catch {A} (t : Task A) (h : Exn -> Task A) :
  quiet t -> (forall e, calm (h e)) -> calm (try_catch t h).
Proof.
  intros Qt Ch w. specialize (Qt w). unfold try_catch.
  destruct (t w) as [[a | e] w1]; cbn [snd] in *.
  - now exists a, w1.
  - destruct (Ch e w1) as (a & w2 & E & Q). exists a, w2. split; congruence.
Qed.



Lemma calm_consult {A} (answer : nat -> A) : calm (consult answer).
Proof. intros w. eexists. eexists. split; reflexivity. Qed.

(** An update of the cells other than the conversation list. *)
Lemma calm_modify (f : State.t -> State.t) :
  (forall s, State.conversations (f s) = State.conversations s) -> calm (modify f).
Proof.
  intros Hf w. eexists. eexists. split; [reflexivity |].
  unfold view. cbn [state trace]. now rewrite Hf.
Qed.

Lemma calm_emit (ev : Event) : aiRequests [ev] = [] -> calm (emit ev).
Proof.
  intros E w. eexists. eexists. split; [reflexivity |].
  unfold view. cbn [state trace]. now rewrite aiRequests_app, E, app_nil_r.
Qed.

Lemma quiet_await {A} (call : Event) (answer : nat -> Outcome A) :
  aiRequests [call] = [] -> quiet (await call answer).
Proof.
  intros E. unfold await.
  apply quiet_bind; [apply calm_quiet, calm_emit, E | intros _].
  apply quiet_bind; [apply calm_quiet, calm_consult | intros [a | e]].
  - apply calm_quiet, calm_ret.
  - apply quiet_throw.
Qed.


Lemma calm_toast (title description variant : string) :
  calm (toast title description variant).
Proof. apply calm_emit. reflexivity. Qed.

Lemma calm_setCurrentConversationId id : calm (setCurrentConversationId id).
Proof. apply calm_modify. reflexivity. Qed.

Lemma calm_setIsLoading b : calm (setIsLoading b).
Proof. apply calm_modify. reflexivity. Qed.

(** [setConversations] applies its function to the list and to nothing
    else. *)
Lemma setConversations_runs f (w : World) :
  exists w',
    setConversations f w = (Returned tt, w')
    /\ view w' = (f (State.conversations (state w)), aiRequests (trace w)).
Proof. eexists. split; reflexivity. Qed.


Lemma view_finally {A} (t : Task A) (c : Task unit) (w : World) :
  quiet c -> view (snd (finally t c w)) = view (snd (t w)).
Proof.
  intros Qc. unfold finally. destruct (t w) as [r w1]. specialize (Qc w1).
  destruct (c w1) as [[[] | e] w2]; exact Qc.
Qed.

(** Runs the task at the head of a sequence with the lemma [H], which
    says that it returns [a] in a world [w'] ([E]) and what this world is
    like ([V]); the sequence goes on in [w']. *)
Tactic Notation "step" constr(H) "as"
  simple_intropattern(a) ident(w') ident(E) ident(V) :=
  destruct H as (a & w' & E & V); rewrite (bind_Returned _ _ _ _ _ E).

(** ** Conversations under the functional updates *)

Lemma find_updateWhere (cid : string) (f : Conversation.t -> Conversation.t)
  (l : list Conversation.t) :
  (forall c, Conversation.id (f c) = Conversation.id c) ->
  find (fun c => (Conversation.id c =? cid)%string) (updateWhere cid f l)
  = option_map f (find (fun c => (Conversation.id c =? cid)%string) l).
Proof.
  intros Hid. induction l as [| c l IH]; [reflexivity |].
  cbn [updateWhere map find].
  destruct (Conversation.id c =? cid)%string eqn:E.
  - now rewrite Hid, E.
  - rewrite E. exact IH.
Qed.

(** After [setConversations (updateWhere cid f)] the conversation [cid] is
    [f] of what it was. *)
Lemma conversationOf_updated (w w' : World) (cid : string)
  (f : Conversation.t -> Conversation.t) (c : Conversation.t) :
  (forall c, Conversation.id (f c) = Conversation.id c) ->
  view w' = (updateWhere cid f (State.conversations (state w)), aiRequests (trace w)) ->
  conversationOf (state w) cid = Some c ->
  conversationOf (state w') cid = Some (f c).
Proof.
  intros Hid V Hc. unfold conversationOf in *.
  injection V as -> _. now rewrite find_updateWhere, Hc.
Qed.

Lemma map_last_matching (mid : string) (f : Message.t -> Message.t)
  (older : list Message.t) (last : Message.t) :
  Message.id last = mid ->
  map (fun m => if (Message.id m =? mid)%string then f m else m) (older ++ [last])
  = map (fun m => if (Message.id m =? mid)%string then f m else m) older ++ [f last].
Proof.
  intros <-. rewrite map_app. cbn [map]. now rewrite String.eqb_refl.
Qed.

Section HookFacts.
Context `{Runtime}.
Variable env : Env.
Variable render : State.t.

Lemma calm_generateId : calm (generateId env).
Proof. apply calm_consult. Qed.

Lemma calm_newDate : calm (newDate env).
Proof. apply calm_consult. Qed.

Lemma quiet_lift {A} (r : Outcome A) : quiet (lift r).
Proof. destruct r; [apply calm_quiet, calm_ret | apply quiet_throw]. Qed.

Lemma calm_createNewConversation : calm (createNewConversation env render).
Proof.
  unfold createNewConversation.
  apply calm_bind; [apply calm_generateId | intros id].
  apply calm_bind; [apply calm_newDate | intros now].
  destruct (signedIn render); [| apply calm_ret].
  apply calm_try_catch.
  - apply quiet_bind; [now apply quiet_await | intros convo].
    apply calm_quiet, calm_ret.
  - intros _. apply calm_bind; [apply calm_toast | intros _; apply calm_ret].
Qed.

(** [updateConversationTitle] returns; the conversation gets the title and
    a date, and keeps its messages. *)
Lemma updateConversationTitle_runs conversationId firstMessage (w : World) :
  exists now w',
    updateConversationTitle env render conversationId firstMessage w = (Returned tt, w')
    /\ view w'
       = (updateWhere conversationId (withTitle (titleFrom firstMessage) now)
            (State.conversations (state w)),
          aiRequests (trace w)).
Proof.
  unfold updateConversationTitle.
  assert (C : calm (match signedIn render with
                    | Some _ =>
                        try_catch
                          (await (DbConversationsUpdate conversationId (titleFrom firstMessage))
                             (fun t => db_conversations_update env t conversationId
                                         (titleFrom firstMessage)))
                          (fun _ => ret tt)
                    | None => ret tt
                    end)).
  { destruct (signedIn render); [| apply calm_ret].
    apply calm_try_catch; [now apply quiet_await | intros _; apply calm_ret]. }
  step (C w) as [] w1 E1 V1.
  step (calm_newDate w1) as now w2 E2 V2.
  destruct (setConversations_runs
              (updateWhere conversationId (withTitle (titleFrom firstMessage) now)) w2)
    as (w3 & E3 & V3).
  exists now, w3. split; [exact E3 |].
  rewrite V3. rewrite (view_conversations _ _ V2), (view_conversations _ _ V1).
  now rewrite (view_requests _ _ V2), (view_requests _ _ V1).
Qed.

(** [addMessage] returns; the conversation gets the message at its end. *)
Lemma addMessage_runs conversationId message (w : World) :
  exists now w',
    addMessage env render conversationId message w = (Returned tt, w')
    /\ view w'
       = (updateWhere conversationId (withMessage message now)
            (State.conversations (state w)),
          aiRequests (trace w)).
Proof.
  unfold addMessage.
  assert (C : calm (match signedIn render with
                    | Some u =>
                        try_catch
                          (dbMessageData <- lift (createDbMessage message conversationId
                                                    (User.id u)) ;;
                           await (DbMessagesCreate dbMessageData)
                             (fun t => db_messages_create env t dbMessageData))
                          (fun _ =>
                             toast "Warning"
                               "Failed to save message to database. Your conversation may not persist."
                               "destructive")
                    | None => ret tt
                    end)).
  { destruct (signedIn render); [| apply calm_ret].
    apply calm_try_catch.
    - apply quiet_bind; [apply quiet_lift | intros r]. now apply quiet_await.
    - intros _. apply calm_toast. }
  step (C w) as [] w1 E1 V1.
  step (calm_newDate w1) as now w2 E2 V2.
  destruct (setConversations_runs
              (updateWhere conversationId (withMessage message now)) w2)
    as (w3 & E3 & V3).
  exists now, w3. split; [exact E3 |].
  rewrite V3. rewrite (view_conversations _ _ V2), (view_conversations _ _ V1).
  now rewrite (view_requests _ _ V2), (view_requests _ _ V1).
Qed.

(** The callback, chunk after chunk: the placeholder, last in its
    conversation, holds the text streamed so far and stays loading. *)
Lemma onChunks_runs cid mid (chunks : list string) :
  forall (text : string) (w : World) (c : Conversation.t)
         (older : list Message.t) (ph : Message.t),
    conversationOf (state w) cid = Some c ->
    Conversation.messages c = older ++ [ph] ->
    Message.id ph = mid ->
    Message.content ph = text ->
    Message.isLoading ph = Some true ->
    exists w' c' older' ph',
      onChunks env cid mid text chunks w
      = (Returned (text ++ String.concat "" chunks)%string, w')
      /\ aiRequests (trace w') = aiRequests (trace w)
      /\ conversationOf (state w') cid = Some c'
      /\ Conversation.messages c' = older' ++ [ph']
      /\ List.length older' = List.length older
      /\ Message.id ph' = mid
      /\ Message.type ph' = Message.type ph
      /\ Message.sources ph' = Message.sources ph
      /\ Message.content ph' = (text ++ String.concat "" chunks)%string
      /\ Message.isLoading ph' = Some true.
Proof.
  induction chunks as [| chunk rest IH]; intros text w c older ph Hc Hm Hid Htext Hload.
  - exists w, c, older, ph. cbn [onChunks String.concat].
    rewrite append_nil_r. repeat split; try assumption; reflexivity.
  - cbn [onChunks].
    step (calm_newDate w) as now w1 E1 V1.
    destruct (setConversations_runs
                (updateWhere cid
                   (withMessagesMapped mid (streamingInto (text ++ chunk)) now)) w1)
      as (w2 & E2 & V2).
    rewrite (bind_Returned _ _ _ _ _ E2).
    rewrite <- (view_conversationOf _ _ cid V1) in Hc.
    pose proof (conversationOf_updated w1 w2 cid
                  (withMessagesMapped mid (streamingInto (text ++ chunk)) now)
                  c (fun _ => eq_refl) V2 Hc) as Hc2.
    destruct (IH (text ++ chunk)%string w2 _
                 (map (fun m => if (Message.id m =? mid)%string
                                then streamingInto (text ++ chunk) m else m) older)
                 (streamingInto (text ++ chunk) ph) Hc2)
      as (w' & c' & older' & ph' & E & R & Hc' & Hm' & Hlen & Hid' & Hty & Hsrc & Hct & Hld).
    + cbn [withMessagesMapped Conversation.messages]. rewrite Hm.
      now apply map_last_matching.
    + exact Hid.
    + reflexivity.
    + reflexivity.
    + exists w', c', older', ph'. rewrite E.
      assert (Ecat : ((text ++ chunk) ++ String.concat "" rest
                      = text ++ String.concat "" (chunk :: rest))%string)
        by now rewrite concat_empty_cons, append_assoc.
      rewrite <- Ecat.
      repeat split; try assumption.
      * rewrite R. injection V2 as _ ->. exact (view_requests _ _ V1).
      * now rewrite Hlen, length_map.
Qed.

End HookFacts.

Lemma bind_assoc {A B C} (t : Task A) (r : A -> Task B) (k : B -> Task C) (w : World) :
  bind (bind t r) k w = bind t (fun a => bind (r a) k) w.
Proof. unfold bind. destruct (t w) as [[a | e] w']; reflexivity. Qed.

Section SendFacts.
Context `{Runtime}.
Variable env : Env.
Variable render : State.t.

(** The [try] body of [sendMessage], from the user message on, run on a
    world in which the conversation exists.  It issues one generation
    request, [messagesForAI] of the conversation as the closure holds it.
    Afterwards the conversation ends with the assistant message of this
    run, whose content is the text of the chunks.  When the call returns,
    the body returns, the message is no longer loading and carries the
    citations of the result, an empty list when there are none.  When the
    call throws, the body throws, and the message is still loading. *)
Lemma sendMessage_try_runs (content cid : string) (conversation : Conversation.t)
  (w : World) (c0 : Conversation.t) :
  conversationOf (state w) cid = Some c0 ->
  exists t c' older reply,
    aiRequests (trace (snd (sendMessage_try env render content cid conversation w)))
    = aiRequests (trace w) ++ [messagesForAI conversation content]
    /\ conversationOf (state (snd (sendMessage_try env render content cid conversation w))) cid
       = Some c'
    /\ Conversation.messages c' = older ++ [reply]
    /\ List.length older = S (List.length (Conversation.messages c0))
    /\ Message.type reply = assistant
    /\ Message.content reply
       = String.concat "" (fst (ai_streamText env t (messagesForAI conversation content)))
    /\ match snd (ai_streamText env t (messagesForAI conversation content)) with
       | Returned result =>
           fst (sendMessage_try env render content cid conversation w) = Returned tt
           /\ Message.isLoading reply = Some false
           /\ Message.sources reply
              = Some (strings (match result with Some l => l | None => [] end))
       | Thrown e =>
           fst (sendMessage_try env render content cid conversation w) = Thrown e
           /\ Message.isLoading reply = Some true
           /\ Message.sources reply = None
       end.
Proof.
  intros Hc0. unfold sendMessage_try.
  (* the user message *)
  step (calm_generateId env w) as i1 w1 E1 V1.
  step (calm_newDate env w1) as t1 w2 E2 V2.
  match goal with |- context [addMessage env render cid ?m] => set (userMessage := m) end.
  step (addMessage_runs env render cid userMessage w2) as n3 w3 E3 V3.
  assert (Hc2 : conversationOf (state w2) cid = Some c0).
  { now rewrite (view_conversationOf _ _ cid V2), (view_conversationOf _ _ cid V1). }
  pose proof (conversationOf_updated w2 w3 cid (withMessage userMessage n3) c0
                (fun _ => eq_refl) V3 Hc2) as Hc3.
  assert (R3 : aiRequests (trace w3) = aiRequests (trace w)).
  { injection V3 as _ ->. now rewrite (view_requests _ _ V2), (view_requests _ _ V1). }
  (* the title, for a first message *)
  assert (S4 : exists w4 c4,
             (if (List.length (Conversation.messages conversation) =? 0)%nat
              then updateConversationTitle env render cid content
              else ret tt) w3 = (Returned tt, w4)
             /\ conversationOf (state w4) cid = Some c4
             /\ Conversation.messages c4 = Conversation.messages c0 ++ [userMessage]
             /\ aiRequests (trace w4) = aiRequests (trace w)).
  { destruct (List.length (Conversation.messages conversation) =? 0)%nat.
    - destruct (updateConversationTitle_runs env render cid content w3)
        as (n4 & w4 & E4 & V4).
      exists w4, (withTitle (titleFrom content) n4 (withMessage userMessage n3 c0)).
      split; [exact E4 |]. split; [| split; [reflexivity |]].
      + exact (conversationOf_updated w3 w4 cid (withTitle (titleFrom content) n4)
                 (withMessage userMessage n3 c0) (fun _ => eq_refl) V4 Hc3).
      + injection V4 as _ ->. exact R3.
    - exists w3, (withMessage userMessage n3 c0). repeat split; assumption. }
  destruct S4 as (w4 & c4 & E4 & Hc4 & Hm4 & R4).
  rewrite (bind_Returned _ _ _ _ _ E4).
  (* the placeholder *)
  step (calm_generateId env w4) as mid w5 E5 V5.
  step (calm_newDate env w5) as t5 w6 E6 V6.
  step (calm_newDate env w6) as n7 w7 E7 V7.
  match goal with |- context [withMessage ?m n7] => set (placeholder := m) end.
  destruct (setConversations_runs (updateWhere cid (withMessage placeholder n7)) w7)
    as (w8 & E8 & V8).
  rewrite (bind_Returned _ _ _ _ _ E8).
  assert (Hc7 : conversationOf (state w7) cid = Some c4).
  { now rewrite (view_conversationOf _ _ cid V7), (view_conversationOf _ _ cid V6),
      (view_conversationOf _ _ cid V5). }
  pose proof (conversationOf_updated w7 w8 cid (withMessage placeholder n7) c4
                (fun _ => eq_refl) V8 Hc7) as Hc8.
  assert (R8 : aiRequests (trace w8) = aiRequests (trace w)).
  { injection V8 as _ ->.
    now rewrite (view_requests _ _ V7), (view_requests _ _ V6), (view_requests _ _ V5). }
  (* the request and the chunks *)
  unfold streamText. rewrite !bind_assoc.
  set (request := messagesForAI conversation content).
  set (w9 := {| state := state w8; trace := trace w8 ++ [AiStreamText request];
                tick := tick w8 |}).
  rewrite (bind_Returned (emit (AiStreamText request)) _ w8 w9 tt eq_refl).
  rewrite !bind_assoc.
  set (w10 := {| state := state w9; trace := trace w9; tick := S (tick w9) |}).
  rewrite (bind_Returned (consult (fun t => ai_streamText env t request)) _ w9 w10
             (ai_streamText env (tick w8) request) eq_refl).
  rewrite !bind_assoc.
  destruct (onChunks_runs env cid mid (fst (ai_streamText env (tick w8) request))
              "" w10 (withMessage placeholder n7 c4)
              (Conversation.messages c4) placeholder Hc8 eq_refl eq_refl eq_refl eq_refl)
    as (w11 & c11 & older & ph & E11 & R11 & Hc11 & Hm11 & Hlen & Hid & Hty & Hsrc & Hct & Hld).
  rewrite (bind_Returned _ _ _ _ _ E11).
  assert (R11' : aiRequests (trace w11) = aiRequests (trace w) ++ [request]).
  { rewrite R11. cbn [w10 w9 trace]. rewrite aiRequests_app, R8. reflexivity. }
  exists (tick w8).
  destruct (snd (ai_streamText env (tick w8) request)) as [result | e].
  - (* the call returned *)
    rewrite (bind_Returned (ret _) _ w11 w11 _ eq_refl). cbn [fst snd].
    step (calm_newDate env w11) as n12 w12 E12 V12.
    set (sources := match result with Some l => l | None => [] end).
    set (text := ("" ++ String.concat "" (fst (ai_streamText env (tick w8) request)))%string) in *.
    destruct (setConversations_runs
                (updateWhere cid (withMessagesMapped mid (finalized text sources) n12)) w12)
      as (w13 & E13 & V13).
    rewrite (bind_Returned _ _ _ _ _ E13).
    assert (Hc12 : conversationOf (state w12) cid = Some c11)
      by now rewrite (view_conversationOf _ _ cid V12).
    pose proof (conversationOf_updated w12 w13 cid
                  (withMessagesMapped mid (finalized text sources) n12) c11
                  (fun _ => eq_refl) V13 Hc12) as Hc13.
    match goal with |- context [fst (?persist w13)] =>
      assert (C14 : calm persist) end.
    { destruct (signedIn render); [| apply calm_ret].
      apply calm_try_catch.
      - apply quiet_bind; [apply calm_quiet, calm_newDate | intros tf].
        apply quiet_bind; [apply quiet_lift | intros r]. now apply quiet_await.
      - intros _. apply calm_toast. }
    destruct (C14 w13) as ([] & w14 & E14 & V14).
    rewrite E14. cbn [fst snd].
    exists (withMessagesMapped mid (finalized text sources) n12 c11),
      (map (fun m => if (Message.id m =? mid)%string then finalized text sources m else m)
           older),
      (finalized text sources ph).
    split; [| split; [| split; [| split; [| split; [| split]]]]].
    + rewrite (view_requests _ _ V14). injection V13 as _ ->.
      now rewrite (view_requests _ _ V12).
    + now rewrite (view_conversationOf _ _ cid V14).
    + cbn [withMessagesMapped Conversation.messages]. rewrite Hm11.
      now apply map_last_matching.
    + rewrite length_map, Hlen, Hm4, length_app. cbn. lia.
    + cbn. exact Hty.
    + reflexivity.
    + repeat split.
  - (* the call threw *)
    rewrite (bind_Thrown (throw e) _ w11 w11 e eq_refl). cbn [fst snd].
    exists c11, older, ph.
    split; [exact R11' |]. split; [exact Hc11 |]. split; [exact Hm11 |].
    split; [rewrite Hlen, Hm4, length_app; cbn; lia |].
    split; [exact Hty |]. split; [exact Hct |].
    repeat split; assumption.
Qed.

End SendFacts.

Section SendMessageFacts.
Context `{Runtime}.
Variable env : Env.

(** The handler of [sendMessage] for a non-empty conversation id: the
    fixed-text assistant message is appended, not loading, and one error
    toast is shown. *)
Lemma sendMessage_catch_runs (cid : string) (w : World) (c : Conversation.t) :
  cid <> "" ->
  conversationOf (state w) cid = Some c ->
  exists err now w',
    sendMessage_catch env (Some cid) w = (Returned tt, w')
    /\ conversationOf (state w') cid = Some (withMessage err now c)
    /\ Message.type err = assistant
    /\ Message.content err = errorText
    /\ Message.isLoading err = Some false
    /\ aiRequests (trace w') = aiRequests (trace w)
    /\ toasts (trace w') = toasts (trace w) ++ [("Error", "Failed to generate response")].
Proof.
  intros Hcid Hc. unfold sendMessage_catch.
  apply falsy_false in Hcid. rewrite Hcid.
  rewrite !bind_assoc.
  exists {| Message.id := generateId_at env (tick w);
            Message.type := assistant;
            Message.content := errorText;
            Message.timestamp := DateAt (Date_now env (S (tick w)));
            Message.isLoading := Some false;
            Message.sources := None |},
    (DateAt (Date_now env (S (S (tick w))))).
  eexists. split; [reflexivity |].
  split; [| split; [reflexivity | split; [reflexivity | split; [reflexivity | split]]]].
  - cbn [state]. unfold conversationOf in *. cbn [State.conversations].
    rewrite find_updateWhere by reflexivity. now rewrite Hc.
  - cbn [trace]. rewrite aiRequests_app. cbn. now rewrite app_nil_r.
  - cbn [trace]. rewrite toasts_app. reflexivity.
Qed.

(** The handler issues no generation request. *)
Lemma sendMessage_catch_requests (conversationId : option string) (w : World) :
  aiRequests (trace (snd (sendMessage_catch env conversationId w))) = aiRequests (trace w).
Proof.
  unfold sendMessage_catch.
  destruct conversationId as [cid |]; [destruct (falsy cid) |];
    cbn [bind ret toast emit consult generateId newDate setConversations modify snd trace];
    rewrite aiRequests_app; cbn; now rewrite app_nil_r.
Qed.

(** [sendMessage] on the selected conversation, from a render that is the
    live state: one request is issued; when the generation returns, the
    conversation ends with the finalized reply; when it throws, the
    conversation ends with the reply still loading, followed by the error
    message.  The busy flag of the hook is cleared either way. *)
Lemma sendMessage_selected_runs (content cid : string) (conversation : Conversation.t)
  (w : World) :
  trim content <> "" ->
  State.currentConversationId (state w) = Some cid ->
  cid <> "" ->
  conversationOf (state w) cid = Some conversation ->
  exists t c older reply,
    aiRequests (trace (snd (sendMessage env (state w) content w)))
    = aiRequests (trace w) ++ [messagesForAI conversation content]
    /\ conversationOf (state (snd (sendMessage env (state w) content w))) cid = Some c
    /\ State.isLoading (state (snd (sendMessage env (state w) content w))) = false
    /\ List.length older = S (List.length (Conversation.messages conversation))
    /\ Message.type reply = assistant
    /\ Message.content reply
       = String.concat "" (fst (ai_streamText env t (messagesForAI conversation content)))
    /\ match snd (ai_streamText env t (messagesForAI conversation content)) with
       | Returned result =>
           Conversation.messages c = older ++ [reply]
           /\ Message.isLoading reply = Some false
           /\ Message.sources reply
              = Some (strings (match result with Some l => l | None => [] end))
       | Thrown _ =>
           exists err,
             Conversation.messages c = older ++ [reply; err]
             /\ Message.isLoading reply = Some true
             /\ Message.type err = assistant
             /\ Message.content err = errorText
             /\ Message.isLoading err = Some false
       end.
Proof.
  intros Hcontent Hcur Hcid Hfind.
  unfold sendMessage. pose proof Hcontent as Hc'. apply falsy_false in Hc'. rewrite Hc'.
  rewrite Hcur.
  assert (Hfound : findConversation (state w) (Some cid) = Some conversation)
    by exact Hfind.
  rewrite Hfound. pose proof Hcid as Hcid'. apply falsy_false in Hcid'. rewrite Hcid'.
  step (calm_setIsLoading true w) as [] w1 E1 V1.
  assert (Hc1 : conversationOf (state w1) cid = Some conversation)
    by now rewrite (view_conversationOf _ _ cid V1).
  destruct (sendMessage_try_runs env (state w) content cid conversation w1 conversation Hc1)
    as (t & c & older & reply & R & Hc & Hm & Hlen & Hty & Hct & Hend).
  exists t.
  unfold finally, try_catch.
  destruct (sendMessage_try env (state w) content cid conversation w1) as [r w2] eqn:Etry.
  cbn [fst snd] in *.
  destruct (snd (ai_streamText env t (messagesForAI conversation content))) as [result | e].
  - destruct Hend as (-> & Hld & Hsrc).
    exists c, older, reply. cbn [fst snd setIsLoading modify state trace State.conversations].
    rewrite R, (view_requests _ _ V1).
    repeat split; try assumption.
  - destruct Hend as (-> & Hld & Hsrc).
    destruct (sendMessage_catch_runs cid w2 c Hcid Hc)
      as (err & now & w3 & E3 & Hc3 & Hety & Hect & Held & R3 & _).
    rewrite E3.
    exists (withMessage err now c), older, reply.
    cbn [fst snd setIsLoading modify state trace State.conversations].
    rewrite R3, R, (view_requests _ _ V1).
    split; [reflexivity |]. split; [exact Hc3 |]. split; [reflexivity |].
    split; [exact Hlen |]. split; [exact Hty |]. split; [exact Hct |].
    exists err. cbn [withMessage Conversation.messages]. rewrite Hm, <- app_assoc.
    repeat split; assumption.
Qed.

(** [sendMessage] when no conversation is selected: a new conversation is
    created and put first, and the message is sent in it. *)
Lemma sendMessage_fresh_runs (render : State.t) (content : string) (w : World) :
  exists cid conversation t c older reply,
    aiRequests (trace (snd (sendMessage_fresh env render content w)))
    = aiRequests (trace w) ++ [messagesForAI conversation content]
    /\ Conversation.messages conversation = []
    /\ Message.type reply = assistant
    /\ Message.content reply
       = String.concat "" (fst (ai_streamText env t (messagesForAI conversation content)))
    /\ match snd (ai_streamText env t (messagesForAI conversation content)) with
       | Returned result =>
           conversationOf (state (snd (sendMessage_fresh env render content w))) cid
           = Some c
           /\ Conversation.messages c = older ++ [reply]
           /\ Message.isLoading reply = Some false
           /\ Message.sources reply
              = Some (strings (match result with Some l => l | None => [] end))
       | Thrown _ => True
       end.
Proof.
  unfold sendMessage_fresh.
  destruct (calm_createNewConversation env render w) as (nc & w1 & E1 & V1).
  assert (Hnc : Conversation.messages nc = []).
  { clear - E1. unfold createNewConversation, bind, try_catch, await, emit, consult,
      generateId, newDate, toast, ret, throw in E1. cbn in E1.
    destruct (signedIn render); [destruct (db_conversations_create env _ _) |];
      cbn in E1; injection E1 as <- _; reflexivity. }
  destruct (setConversations_runs (fun prev => nc :: prev) w1) as (w2 & E2 & V2).
  assert (Eatt : attempt
                   (newConversation <- createNewConversation env render ;;
                    setConversations (fun prev => newConversation :: prev) ;;
                    ret newConversation) w = (Returned (Returned nc), w2)).
  { unfold attempt. rewrite (bind_Returned _ _ _ _ _ E1).
    now rewrite (bind_Returned _ _ _ _ _ E2). }
  rewrite (bind_Returned _ _ _ _ _ Eatt).
  unfold try_catch.
  destruct (calm_setCurrentConversationId (Some (Conversation.id nc)) w2)
    as ([] & w3 & E3 & V3).
  rewrite (bind_Returned _ _ _ _ _ E3).
  assert (Hc3 : conversationOf (state w3) (Conversation.id nc) = Some nc).
  { rewrite (view_conversationOf _ _ _ V3). unfold conversationOf.
    injection V2 as -> _. cbn [find]. now rewrite String.eqb_refl. }
  destruct (sendMessage_try_runs env render content (Conversation.id nc) nc w3 nc Hc3)
    as (t & c & older & reply & R & Hc & Hm & Hlen & Hty & Hct & Hend).
  exists (Conversation.id nc), nc, t, c, older, reply.
  assert (R3 : aiRequests (trace w3) = aiRequests (trace w)).
  { rewrite (view_requests _ _ V3). injection V2 as _ ->. exact (view_requests _ _ V1). }
  destruct (sendMessage_try env render content (Conversation.id nc) nc w3)
    as [r w4] eqn:Etry.
  cbn [fst snd] in *.
  destruct (snd (ai_streamText env t (messagesForAI nc content))) as [result | e].
  - destruct Hend as (-> & Hld & Hsrc). cbn [snd].
    rewrite R, R3. repeat split; assumption.
  - destruct Hend as (-> & Hld & Hsrc).
    rewrite sendMessage_catch_requests, R, R3. repeat split; assumption.
Qed.

End SendMessageFacts.

Lemma slice_last_length {A} (n : nat) (l : list A) :
  List.length (slice_last n l) = Nat.min n (List.length l).
Proof. unfold slice_last. rewrite length_skipn. lia. Qed.

(** C6.  When the selected conversation holds 25 messages, [sendMessage]
    issues exactly one generation request, of 21 entries: the last 20 of the
    25 prior messages, in their order, each as the pair of its role (the
    text [user] for a user message, [assistant] for an assistant message)
    and its content, then the new user message. *)
Theorem sendMessage_sends_last_twenty_and_new_message :
  forall `{Runtime} (env : Env) (content cid : string)
         (conversation : Conversation.t) (w : World),
    trim content <> "" ->
    State.currentConversationId (state w) = Some cid ->
    cid <> "" ->
    conversationOf (state w) cid = Some conversation ->
    List.length (Conversation.messages conversation) = 25 ->
    exists request,
      aiRequests (trace (perform env w (SendMessage content)))
      = aiRequests (trace w) ++ [request]
      /\ List.length request = 21
      /\ request
         = map (fun m =>
                  {| AiMessage.role :=
                       match Message.type m with
                       | user => "user"
                       | assistant => "assistant"
                       end;
                     AiMessage.content := Message.content m |})
             (skipn 5 (Conversation.messages conversation))
           ++ [ {| AiMessage.role := "user"; AiMessage.content := content |} ].
Proof.
  intros rt env content cid conversation w Hcontent Hcur Hcid Hfind Hlen.
  exists (messagesForAI conversation content). split; [| split].
  - destruct (sendMessage_selected_runs env content cid conversation w
                Hcontent Hcur Hcid Hfind) as (t & c & older & reply & R & _).
    exact R.
  - unfold messagesForAI. rewrite length_app, length_map, slice_last_length, Hlen.
    reflexivity.
  - unfold messagesForAI, slice_last. rewrite Hlen.
    change (25 - MAX_CONTEXT_MESSAGES) with 5. f_equal.
    apply map_ext. intros m. unfold toAiMessage. now destruct (Message.type m).
Qed.

(** The 26th message of a conversation of 25 turns, the user speaking at
    the even ones: the request starts at the sixth turn, the user's, and
    ends with the last turn, the assistant's, and the new message. *)
Lemma sendMessage_sends_last_twenty_and_new_message_witness :
  exists request,
    aiRequests (trace (@perform Reference.runtime Scenario.fair
                         (Scenario.start (Scenario.hook None [Scenario.longChat]))
                         (SendMessage "and then?")))
    = [request]
    /\ List.length request = 21
    /\ firstn 2 request
       = [ {| AiMessage.role := "user"; AiMessage.content := "turn 06" |};
           {| AiMessage.role := "assistant"; AiMessage.content := "turn 07" |} ]
    /\ skipn 19 request
       = [ {| AiMessage.role := "assistant"; AiMessage.content := "turn 25" |};
           {| AiMessage.role := "user"; AiMessage.content := "and then?" |} ].
Proof.
  destruct (@sendMessage_sends_last_twenty_and_new_message Reference.runtime
              Scenario.fair "and then?" "c1" Scenario.longChat
              (Scenario.start (Scenario.hook None [Scenario.longChat])))
    as (request & Hrequests & Hlength & Hrequest).
  - discriminate.
  - reflexivity.
  - discriminate.
  - reflexivity.
  - reflexivity.
  - exists request. split; [exact Hrequests | split; [exact Hlength |]].
    rewrite Hrequest. split; vm_compute; reflexivity.
Defined.

(** C10.  A content that is empty once trimmed makes [sendMessage] return
    at once: the world is the same afterwards, so the conversation list,
    the selection, the loading flag and every conversation are unchanged,
    and no call was issued. *)
Theorem sendMessage_blank_changes_nothing :
  forall `{Runtime} (env : Env) (render : State.t) (content : string) (w : World),
    trim content = "" ->
    sendMessage env render content w = (Returned tt, w).
Proof.
  intros rt env render content w Hblank.
  unfold sendMessage. rewrite Hblank. reflexivity.
Qed.

(** Two spaces and a line feed. *)
Lemma sendMessage_blank_changes_nothing_witness :
  let blank := String " " (String " " (String (ascii_of_nat 10) "")) in
  let w := Scenario.start (Scenario.hook (Some Scenario.alice) [Scenario.longChat]) in
  @sendMessage Reference.runtime Scenario.fair (state w) blank w = (Returned tt, w).
Proof.
  intros blank w.
  apply (@sendMessage_blank_changes_nothing Reference.runtime Scenario.fair
           (state w) blank w).
  reflexivity.
Defined.

(** ** Titles *)

Lemma titleFrom_long (firstMessage : string) :
  50 < String.length firstMessage ->
  titleFrom firstMessage = (substring 0 47 firstMessage ++ "...")%string
  /\ String.length (titleFrom firstMessage) = 50
  /\ substring 47 3 (titleFrom firstMessage) = "...".
Proof.
  intros Hlong. unfold titleFrom.
  destruct (Nat.ltb_spec 50 (String.length firstMessage)) as [_ | Hle]; [| lia].
  assert (L : String.length (substring 0 47 firstMessage) = 47)
    by (apply length_substring_prefix; lia).
  split; [reflexivity | split].
  - rewrite length_append, L. reflexivity.
  - rewrite <- L at 1. rewrite substring_skip_append. reflexivity.
Qed.

Lemma titleFrom_short (firstMessage : string) :
  String.length firstMessage <= 50 -> titleFrom firstMessage = firstMessage.
Proof.
  intros Hshort. unfold titleFrom.
  destruct (Nat.ltb_spec 50 (String.length firstMessage)) as [Hlt | _]; [lia | reflexivity].
Qed.


(** A seed of 80 characters and one of 10. *)
Example titleFrom_eighty_and_ten :
  let eighty := string_of_list_ascii (repeat "a"%char 80) in
  String.length eighty = 80
  /\ String.length (titleFrom eighty) = 50
  /\ titleFrom eighty = (string_of_list_ascii (repeat "a"%char 47) ++ "...")%string
  /\ titleFrom "Hello Rocq" = "Hello Rocq".
Proof. vm_compute. repeat split. Qed.

(** ** Deleting a conversation *)

Lemma await_Returned {A} (call : Event) (answer : nat -> Outcome A) (w : World) (a : A) :
  answer (tick w) = Returned a ->
  await call answer w
  = (Returned a, {| state := state w; trace := trace w ++ [call]; tick := S (tick w) |}).
Proof. intros E. unfold await, bind, emit, consult. cbn. now rewrite E. Qed.

Lemma await_Thrown {A} (call : Event) (answer : nat -> Outcome A) (w : World) (e : Exn) :
  answer (tick w) = Thrown e ->
  await call answer w
  = (Thrown e, {| state := state w; trace := trace w ++ [call]; tick := S (tick w) |}).
Proof. intros E. unfold await, bind, emit, consult. cbn. now rewrite E. Qed.

Section Deletion.
Variable env : Env.

Lemma delete_loop_succeeds (messages : list DbMessage.t) (w : World) :
  (forall k m, nth_error messages k = Some m ->
               db_messages_delete env (tick w + k) (DbMessage.id m) = Returned tt) ->
  forEach messages (deleteMessage env) w
  = (Returned tt,
     {| state := state w;
        trace := trace w ++ map (fun m => DbMessagesDelete (DbMessage.id m)) messages;
        tick := tick w + List.length messages |}).
Proof.
  revert w. induction messages as [| m0 rest IH]; intros w Hok.
  - cbn. destruct w; cbn. now rewrite app_nil_r, Nat.add_0_r.
  - cbn [forEach]. unfold deleteMessage at 1.
    assert (E0 : db_messages_delete env (tick w) (DbMessage.id m0) = Returned tt).
    { specialize (Hok 0 m0 eq_refl). now rewrite Nat.add_0_r in Hok. }
    rewrite (bind_Returned _ _ _ _ _ (await_Returned _ _ w tt E0)).
    rewrite IH.
    + cbn [state trace tick map List.length]. rewrite <- app_assoc.
      rewrite <- Nat.add_succ_comm. reflexivity.
    + intros k m Hk. cbn [tick]. specialize (Hok (S k) m Hk).
      now rewrite <- Nat.add_succ_comm in Hok.
Qed.

Lemma delete_loop_fails (messages : list DbMessage.t) (w : World) :
  (exists k m e, nth_error messages k = Some m
                 /\ db_messages_delete env (tick w + k) (DbMessage.id m) = Thrown e) ->
  exists e w',
    forEach messages (deleteMessage env) w = (Thrown e, w')
    /\ state w' = state w
    /\ toasts (trace w') = toasts (trace w).
Proof.
  revert w. induction messages as [| m0 rest IH]; intros w (k & m & e & Hk & Hfail).
  - destruct k; discriminate.
  - cbn [forEach]. unfold deleteMessage at 1.
    destruct (db_messages_delete env (tick w) (DbMessage.id m0)) as [[] | e0] eqn:E0.
    + rewrite (bind_Returned _ _ _ _ _ (await_Returned _ _ w tt E0)).
      destruct k as [| k].
      { injection Hk as <-. rewrite Nat.add_0_r in Hfail. congruence. }
      destruct (IH {| state := state w;
                      trace := trace w ++ [DbMessagesDelete (DbMessage.id m0)];
                      tick := S (tick w) |}) as (e' & w' & E & Hs & Ht).
      { exists k, m, e. split; [exact Hk |]. cbn [tick].
        now rewrite Nat.add_succ_comm. }
      exists e', w'. split; [exact E | split; [exact Hs |]].
      rewrite Ht. cbn [trace]. rewrite toasts_app. cbn. now rewrite app_nil_r.
    + rewrite (bind_Thrown _ _ _ _ _ (await_Thrown _ _ w e0 E0)).
      eexists. eexists. split; [reflexivity | split; [reflexivity |]].
      cbn [trace]. rewrite toasts_app. cbn. now rewrite app_nil_r.
Qed.

Lemma toasts_deletes (messages : list DbMessage.t) :
  toasts (map (fun m => DbMessagesDelete (DbMessage.id m)) messages) = [].
Proof. induction messages; [reflexivity | exact IHmessages]. Qed.

Lemma delete_loop_cases (messages : list DbMessage.t) (t : nat) :
  (forall k m, nth_error messages k = Some m ->
               db_messages_delete env (t + k) (DbMessage.id m) = Returned tt)
  \/ (exists k m e, nth_error messages k = Some m
                    /\ db_messages_delete env (t + k) (DbMessage.id m) = Thrown e).
Proof.
  revert t. induction messages as [| m0 rest IH]; intros t.
  - left. intros [| k] m Hk; discriminate.
  - destruct (db_messages_delete env t (DbMessage.id m0)) as [[] | e0] eqn:E0.
    + destruct (IH (S t)) as [Hall | (k & m & e & Hk & Hf)].
      * left. intros [| k] m Hk.
        -- injection Hk as <-. now rewrite Nat.add_0_r.
        -- rewrite <- Nat.add_succ_comm. now apply Hall.
      * right. exists (S k), m, e. split; [exact Hk |].
        now rewrite <- Nat.add_succ_comm.
    + right. exists 0, m0, e0. split; [reflexivity | now rewrite Nat.add_0_r].
Qed.

(** The remote part rejects as soon as one of its deletes does; the state
    is as before and no toast was shown yet. *)
Lemma deleteRemote_fails (id : string) (messages : list DbMessage.t) (w : World) :
  db_messages_list env (tick w) id = Returned messages ->
  someDeleteFails env (tick w) id messages ->
  exists e w',
    deleteRemote env id w = (Thrown e, w')
    /\ state w' = state w
    /\ toasts (trace w') = toasts (trace w).
Proof.
  intros Hlist Hfail. unfold deleteRemote.
  rewrite (bind_Returned _ _ _ _ _ (await_Returned _ _ w messages Hlist)).
  set (w1 := {| state := state w; trace := trace w ++ [DbMessagesList id];
                tick := S (tick w) |}).
  assert (T1 : toasts (trace w1) = toasts (trace w)).
  { unfold w1. cbn [trace]. rewrite toasts_app. cbn. now rewrite app_nil_r. }
  destruct (delete_loop_cases messages (tick w1)) as [Hall | Hsome].
  - (* every message is deleted: the conversation delete is the one rejected *)
    destruct Hfail as [(k & m & e & Hk & Hf) | (e & Hconv)].
    { specialize (Hall k m Hk). cbn [tick w1] in Hall. congruence. }
    rewrite (bind_Returned _ _ _ _ _ (delete_loop_succeeds messages w1 Hall)).
    cbv beta. eexists. eexists.
    split; [apply await_Thrown with (e := e); exact Hconv |].
    split; [reflexivity |].
    cbn [trace]. rewrite !toasts_app, toasts_deletes. cbn.
    now rewrite !app_nil_r.
  - destruct (delete_loop_fails messages w1 Hsome) as (e & w2 & E & Hs & Ht).
    rewrite (bind_Thrown _ _ _ _ _ E).
    exists e, w2. split; [reflexivity | split; [exact Hs | congruence]].
Qed.

(** The remote part when every delete succeeds: the list call, one delete
    per message in the order of the list, then the conversation delete. *)
Lemma deleteRemote_succeeds (id : string) (messages : list DbMessage.t) (w : World) :
  db_messages_list env (tick w) id = Returned messages ->
  everyDeleteSucceeds env (tick w) id messages ->
  deleteRemote env id w
  = (Returned tt,
     {| state := state w;
        trace := trace w ++ DbMessagesList id
                   :: map (fun m => DbMessagesDelete (DbMessage.id m)) messages
                   ++ [DbConversationsDelete id];
        tick := S (S (tick w) + List.length messages) |}).
Proof.
  intros Hlist [Hall Hconv]. unfold deleteRemote.
  rewrite (bind_Returned _ _ _ _ _ (await_Returned _ _ w messages Hlist)).
  set (w1 := {| state := state w; trace := trace w ++ [DbMessagesList id];
                tick := S (tick w) |}).
  rewrite (bind_Returned _ _ _ _ _ (delete_loop_succeeds messages w1 Hall)).
  cbv beta. erewrite await_Returned by exact Hconv.
  cbn [state trace tick w1]. rewrite <- !app_assoc. reflexivity.
Qed.

End Deletion.

(** C1.  The defect: [deleteConversation], called by a signed-in user,
    lists the messages of the conversation; when a delete of the remote
    sequence is then rejected, the state of the hook is left as it was, so
    the conversation stays in the in-memory list, and one error toast is
    shown.  The conversation is removed from the in-memory list only when
    every delete succeeds, after one delete per listed message, in the
    order of the list, and the delete of the conversation. *)
Theorem deleteConversation_removes_only_after_remote_success :
  forall (env : Env) (render : State.t) (id : string) (w : World)
         (u : User.t) (messages : list DbMessage.t),
    signedIn render = Some u ->
    db_messages_list env (tick w) id = Returned messages ->
    (someDeleteFails env (tick w) id messages ->
     fst (deleteConversation env render id w) = Returned tt
     /\ state (snd (deleteConversation env render id w)) = state w
     /\ toasts (trace (snd (deleteConversation env render id w)))
        = toasts (trace w) ++ [("Error", "Failed to delete conversation")])
    /\ (everyDeleteSucceeds env (tick w) id messages ->
        fst (deleteConversation env render id w) = Returned tt
        /\ State.conversations (state (snd (deleteConversation env render id w)))
           = without id (State.conversations (state w))
        /\ trace (snd (deleteConversation env render id w))
           = trace w ++ DbMessagesList id
               :: map (fun m => DbMessagesDelete (DbMessage.id m)) messages
               ++ [DbConversationsDelete id]).
Proof.
  intros env render id w u messages Hin Hlist. split.
  - intros Hfail.
    destruct (deleteRemote_fails env id messages w Hlist Hfail) as (e & w1 & E & Hs & Ht).
    unfold deleteConversation, try_catch. rewrite Hin.
    rewrite (bind_Thrown _ _ _ _ _ E).
    cbn [toast emit fst snd state trace].
    split; [reflexivity | split; [exact Hs |]].
    rewrite toasts_app, Ht. reflexivity.
  - intros Hok.
    unfold deleteConversation, try_catch. rewrite Hin.
    rewrite (bind_Returned _ _ _ _ _ (deleteRemote_succeeds env id messages w Hlist Hok)).
    destruct (id_is (State.currentConversationId render) id);
      cbn; repeat split.
Qed.

(** The store refuses the second of three message deletes: the state is
    as before the call and the error toast is the only toast. *)
Lemma deleteConversation_removes_only_after_remote_success_witness :
  let s := Scenario.hook (Some Scenario.alice) [Scenario.savedChat] in
  let w := Scenario.start s in
  state (snd (deleteConversation Scenario.brokenDelete s "c1" w)) = s
  /\ toasts (trace (snd (deleteConversation Scenario.brokenDelete s "c1" w)))
     = [("Error", "Failed to delete conversation")].
Proof.
  intros s w.
  destruct (deleteConversation_removes_only_after_remote_success
              Scenario.brokenDelete s "c1" w Scenario.alice
              [Scenario.persisted "m1"; Scenario.persisted "m2"; Scenario.persisted "m3"]
              eq_refl eq_refl) as [Hfail _].
  destruct Hfail as (_ & Hstate & Htoasts).
  - left. exists 1, (Scenario.persisted "m2"), RemoteError. split; reflexivity.
  - split; [exact Hstate | exact Htoasts].
Defined.

(** The same run through [perform]: the conversation has three persisted
    messages and the store rejects the delete of the second; two message
    deletes were issued, the error was reported once, and the conversation
    is still in the in-memory list, selected. *)
Example deleteConversation_failed_delete_keeps_conversation :
  let w := Scenario.start (Scenario.hook (Some Scenario.alice) [Scenario.savedChat]) in
  let w' := @perform Reference.runtime Scenario.brokenDelete w (DeleteConversation "c1") in
  conversationOf (state w') "c1" = Some Scenario.savedChat
  /\ State.conversations (state w') <> without "c1" (State.conversations (state w))
  /\ trace w'
     = [DbMessagesList "c1"; DbMessagesDelete "m1"; DbMessagesDelete "m2";
        Toast "Error" "Failed to delete conversation" "destructive"].
Proof.
  intros w w'. split; [reflexivity | split; [| reflexivity]].
  vm_compute. discriminate.
Qed.

(** Without a signed-in user nothing is asked of the store and the
    conversation is removed. *)
Lemma deleteConversation_signed_out (env : Env) (render : State.t) (id : string)
  (w : World) :
  signedIn render = None ->
  fst (deleteConversation env render id w) = Returned tt
  /\ State.conversations (state (snd (deleteConversation env render id w)))
     = without id (State.conversations (state w))
  /\ trace (snd (deleteConversation env render id w)) = trace w.
Proof.
  intros Hout. unfold deleteConversation, try_catch. rewrite Hout.
  destruct (id_is (State.currentConversationId render) id); cbn; repeat split.
Qed.

(** ** Streaming: finalization and failure *)

Section Streaming.
Context `{Runtime}.
Variable env : Env.

Lemma sendMessage_unselected (content : string) (w : World) :
  trim content <> "" ->
  selectsConversation (state w) = false ->
  sendMessage env (state w) content w
  = (setIsLoading true ;;
     finally (sendMessage_fresh env (state w) content) (setIsLoading false)) w.
Proof.
  intros Hcontent Hsel. unfold sendMessage, selectsConversation in *.
  apply falsy_false in Hcontent. rewrite Hcontent.
  destruct (State.currentConversationId (state w)) as [cid |]; [| reflexivity].
  change (findConversation (state w) (Some cid)) with (conversationOf (state w) cid).
  destruct (conversationOf (state w) cid); [| reflexivity].
  destruct (falsy cid); [reflexivity | discriminate].
Qed.

(** [sendMessage] called on the latest render, when the generation
    returns: whether the message goes to the selected conversation or to a
    new one, that conversation ends with the finalized reply. *)
Lemma sendMessage_returned (content : string) (w : World)
  (chunks : list string) (result : option (list string)) :
  trim content <> "" ->
  (forall t messages, ai_streamText env t messages = (chunks, Returned result)) ->
  exists cid c older reply,
    conversationOf (state (perform env w (SendMessage content))) cid = Some c
    /\ Conversation.messages c = older ++ [reply]
    /\ Message.type reply = assistant
    /\ Message.isLoading reply = Some false
    /\ Message.content reply = String.concat "" chunks
    /\ Message.sources reply = Some (strings (match result with Some l => l | None => [] end)).
Proof.
  intros Hcontent Hstream. unfold perform, run.
  destruct (selectsConversation (state w)) eqn:Hsel.
  - unfold selectsConversation in Hsel.
    destruct (State.currentConversationId (state w)) as [cid |] eqn:Hcur; [| discriminate].
    destruct (conversationOf (state w) cid) as [conversation |] eqn:Hfind; [| discriminate].
    destruct (falsy cid) eqn:Hcid; [discriminate |]. apply falsy_false in Hcid.
    destruct (sendMessage_selected_runs env content cid conversation w
                Hcontent Hcur Hcid Hfind)
      as (t & c & older & reply & _ & Hc & _ & _ & Hty & Hct & Hend).
    rewrite Hstream in Hct, Hend. cbn [fst snd] in Hct, Hend.
    destruct Hend as (Hm & Hld & Hsrc).
    now exists cid, c, older, reply.
  - rewrite (sendMessage_unselected content w Hcontent Hsel).
    step (calm_setIsLoading true w) as [] w1 E1 V1.
    destruct (sendMessage_fresh_runs env (state w) content w1)
      as (cid & nc & t & c & older & reply & _ & _ & Hty & Hct & Hend).
    rewrite Hstream in Hct, Hend. cbn [fst snd] in Hct, Hend.
    destruct Hend as (Hc & Hm & Hld & Hsrc).
    exists cid, c, older, reply.
    split; [| now repeat split].
    rewrite <- Hc. apply view_conversationOf, view_finally.
    apply calm_quiet, calm_setIsLoading.
Qed.

End Streaming.

(** C5.  The defect: when the generation returns no citation list, or an
    empty one, the reply that [sendMessage] finalizes in the conversation
    carries the empty list as its sources.  Every other path normalizes it:
    a message read from a record never carries the empty list, and the
    record written for a message without sources, or with the empty list,
    has no sources. *)
Theorem sendMessage_surfaces_an_empty_sources_list :
  forall `{Runtime} (env : Env) (content : string) (w : World)
         (chunks : list string) (result : option (list string)),
    trim content <> "" ->
    (forall t messages, ai_streamText env t messages = (chunks, Returned result)) ->
    result = None \/ result = Some [] ->
    (exists cid c older reply,
        conversationOf (state (perform env w (SendMessage content))) cid = Some c
        /\ Conversation.messages c = older ++ [reply]
        /\ Message.type reply = assistant
        /\ Message.isLoading reply = Some false
        /\ Message.content reply = String.concat "" chunks
        /\ Message.sources reply = Some (JArray []))
    /\ (forall r m,
           transformDbMessage r = Some m -> Message.sources m <> Some (JArray []))
    /\ (forall m conversationId userId r,
           createDbMessage m conversationId userId = Returned r ->
           Message.sources m = None \/ Message.sources m = Some (JArray []) ->
           DbMessage.sources r = None).
Proof.
  intros rt env content w chunks result Hcontent Hstream Hnone.
  split; [| split].
  - destruct (sendMessage_returned env content w chunks result Hcontent Hstream)
      as (cid & c & older & reply & Hc & Hm & Hty & Hld & Hct & Hsrc).
    exists cid, c, older, reply. repeat split; try assumption.
    rewrite Hsrc. now destruct Hnone as [-> | ->].
  - intros r m E Hs.
    destruct (transformDbMessage_sources r m E) as [Hn | (v & Hv & Hlen)].
    + congruence.
    + rewrite Hs in Hv. injection Hv as <-. discriminate.
  - intros m cid uid r. unfold createDbMessage, hasSources.
    intros E [Hs | Hs]; rewrite Hs in E; cbn [truthy lengthAboveZero List.length Nat.ltb Nat.leb] in E;
      (destruct (toISOString (Message.timestamp m)); [| discriminate]);
      injection E as <-; reflexivity.
Qed.

(** A generation that returns without citations: the reply in memory has
    the text of the three chunks and the empty list as its sources. *)
Lemma sendMessage_surfaces_an_empty_sources_list_witness :
  exists cid c older reply,
    conversationOf
      (state (@perform Reference.runtime Scenario.fair
                (Scenario.start (Scenario.hook None [Scenario.newChat]))
                (SendMessage "hi"))) cid = Some c
    /\ Conversation.messages c = older ++ [reply]
    /\ Message.type reply = assistant
    /\ Message.isLoading reply = Some false
    /\ Message.content reply = "Hello world"
    /\ Message.sources reply = Some (JArray []).
Proof.
  destruct (@sendMessage_surfaces_an_empty_sources_list Reference.runtime
              Scenario.fair "hi"
              (Scenario.start (Scenario.hook None [Scenario.newChat]))
              ["Hel"; "lo"; " world"] None) as (Hreply & _).
  - discriminate.
  - intros t messages. reflexivity.
  - now left.
  - exact Hreply.
Defined.

(** C2.  When the generation call throws, [sendMessage] leaves the
    selected conversation ending with the reply and the error message: the
    error message has the fixed text and is not loading, as the claim says,
    but the reply before it is still loading, with the text of the chunks
    that had arrived.  The busy flag of the hook is cleared. *)
Theorem sendMessage_stream_failure_leaves_reply_loading :
  forall `{Runtime} (env : Env) (content cid : string)
         (conversation : Conversation.t) (w : World)
         (chunks : list string) (e : Exn),
    trim content <> "" ->
    State.currentConversationId (state w) = Some cid ->
    cid <> "" ->
    conversationOf (state w) cid = Some conversation ->
    (forall t messages, ai_streamText env t messages = (chunks, Thrown e)) ->
    exists c older reply err,
      conversationOf (state (perform env w (SendMessage content))) cid = Some c
      /\ Conversation.messages c = older ++ [reply; err]
      /\ Message.type err = assistant
      /\ Message.content err = errorText
      /\ Message.isLoading err = Some false
      /\ Message.type reply = assistant
      /\ Message.content reply = String.concat "" chunks
      /\ Message.isLoading reply = Some true
      /\ State.isLoading (state (perform env w (SendMessage content))) = false.
Proof.
  intros rt env content cid conversation w chunks e Hcontent Hcur Hcid Hfind Hstream.
  destruct (sendMessage_selected_runs env content cid conversation w
              Hcontent Hcur Hcid Hfind)
    as (t & c & older & reply & _ & Hc & Hbusy & _ & Hty & Hct & Hend).
  rewrite Hstream in Hct, Hend. cbn [fst snd] in Hct, Hend.
  destruct Hend as (err & Hm & Hld & Hety & Hect & Held).
  exists c, older, reply, err. unfold perform, run.
  repeat split; assumption.
Qed.

(** The generation is rejected after its first chunk: the conversation
    holds the user message, the reply, loading, with that chunk, and the
    error message. *)
Lemma sendMessage_stream_failure_leaves_reply_loading_witness :
  exists c older reply err,
    conversationOf
      (state (@perform Reference.runtime Scenario.brokenStream
                (Scenario.start (Scenario.hook None [Scenario.newChat]))
                (SendMessage "hi"))) "c1" = Some c
    /\ Conversation.messages c = older ++ [reply; err]
    /\ Message.content err = errorText
    /\ Message.isLoading err = Some false
    /\ Message.content reply = "Hel"
    /\ Message.isLoading reply = Some true.
Proof.
  destruct (@sendMessage_stream_failure_leaves_reply_loading Reference.runtime
              Scenario.brokenStream "hi" "c1" Scenario.newChat
              (Scenario.start (Scenario.hook None [Scenario.newChat]))
              ["Hel"] RemoteError)
    as (c & older & reply & err & Hc & Hm & _ & Hect & Held & _ & Hct & Hld & _).
  - discriminate.
  - reflexivity.
  - discriminate.
  - reflexivity.
  - intros t messages. reflexivity.
  - exists c, older, reply, err. repeat split; assumption.
Defined.

(** C3.  Two messages sent one after the other, each generation rejected
    after its first chunk: the conversation then holds two messages that
    are loading at the same time, the replies of the two sends. *)
Theorem two_failed_sends_leave_two_loading_messages :
  let w' := @performAll Reference.runtime Scenario.brokenStream
              [SendMessage "hi"; SendMessage "again"]
              (Scenario.start (Scenario.hook None [Scenario.newChat])) in
  map loading (Scenario.messagesOfC1 w') = [false; true; false; false; true; false]
  /\ List.length (filter loading (Scenario.messagesOfC1 w')) = 2.
Proof. vm_compute. split; reflexivity. Qed.

(** * Further properties of the code *)

(** ** Observations kept by a task *)

Section Observations.
Context {X : Type} (obs : World -> X).

Lemma passes_keeps {A} (t : Task A) : passes obs t -> keeps obs t.
Proof. intros P w. destruct (P w) as (a & w' & E & Q). now rewrite E. Qed.

Lemma passes_total {A} (t : Task A) : passes obs t -> total t.
Proof. intros P w. destruct (P w) as (a & w' & E & Q). exists a. now rewrite E. Qed.

Lemma passes_ret {A} (a : A) : passes obs (ret a).
Proof. intros w. now exists a, w. Qed.

Lemma keeps_throw {A} (e : Exn) : keeps obs (@throw A e).
Proof. intros w. reflexivity. Qed.

Lemma passes_bind {A B} (t : Task A) (k : A -> Task B) :
  passes obs t -> (forall a, passes obs (k a)) -> passes obs (bind t k).
Proof.
  intros Pt Pk w. destruct (Pt w) as (a & w1 & E1 & Q1).
  destruct (Pk a w1) as (b & w2 & E2 & Q2).
  exists b, w2. split; [now rewrite (bind_Returned _ _ _ _ _ E1) | congruence].
Qed.

Lemma keeps_bind {A B} (t : Task A) (k : A -> Task B) :
  keeps obs t -> (forall a, keeps obs (k a)) -> keeps obs (bind t k).
Proof.
  intros Kt Kk w. specialize (Kt w). unfold bind.
  destruct (t w) as [[a | e] w1]; cbn [snd] in *; [| exact Kt].
  now rewrite Kk.
Qed.

Lemma passes_try_catch {A} (t : Task A) (h : Exn -> Task A) :
  keeps obs t -> (forall e, passes obs (h e)) -> passes obs (try_catch t h).
Proof.
  intros Kt Ph w. specialize (Kt w). unfold try_catch.
  destruct (t w) as [[a | e] w1]; cbn [snd] in *.
  - now exists a, w1.
  - destruct (Ph e w1) as (a & w2 & E & Q). exists a, w2. split; [exact E | congruence].
Qed.

Lemma keeps_try_catch {A} (t : Task A) (h : Exn -> Task A) :
  keeps obs t -> (forall e, keeps obs (h e)) -> keeps obs (try_catch t h).
Proof.
  intros Kt Kh w. specialize (Kt w). unfold try_catch.
  destruct (t w) as [[a | e] w1]; cbn [snd] in *; [exact Kt |].
  now rewrite Kh.
Qed.

Lemma keeps_finally {A} (t : Task A) (c : Task unit) :
  keeps obs t -> keeps obs c -> keeps obs (finally t c).
Proof.
  intros Kt Kc w. specialize (Kt w). unfold finally.
  destruct (t w) as [r w1]. specialize (Kc w1). cbn [snd] in *.
  destruct (c w1) as [[[] | e] w2]; cbn [snd] in *; congruence.
Qed.

Lemma passes_attempt {A} (t : Task A) : keeps obs t -> passes obs (attempt t).
Proof.
  intros Kt w. specialize (Kt w). unfold attempt.
  destruct (t w) as [r w1]. now exists r, w1.
Qed.

Lemma keeps_lift {A} (r : Outcome A) : keeps obs (lift r).
Proof. intros w. now destruct r. Qed.

Lemma keeps_forEach {A} (l : list A) (body : A -> Task unit) :
  (forall x, keeps obs (body x)) -> keeps obs (forEach l body).
Proof.
  intros Kb. induction l as [| x l IH]; [intros w; reflexivity |].
  cbn [forEach]. apply keeps_bind; [apply Kb | intros _; exact IH].
Qed.

Lemma passes_modify (f : State.t -> State.t) :
  (forall w, obs {| state := f (state w); trace := trace w; tick := tick w |} = obs w) ->
  passes obs (modify f).
Proof. intros Hf w. eexists. eexists. split; [reflexivity | apply Hf]. Qed.

Lemma passes_emit (ev : Event) :
  (forall w, obs {| state := state w; trace := trace w ++ [ev]; tick := tick w |} = obs w) ->
  passes obs (emit ev).
Proof. intros Hev w. eexists. eexists. split; [reflexivity | apply Hev]. Qed.

Hypothesis obs_tick :
  forall w, obs {| state := state w; trace := trace w; tick := S (tick w) |} = obs w.

Lemma passes_consult {A} (answer : nat -> A) : passes obs (consult answer).
Proof. intros w. eexists. eexists. split; [reflexivity | apply obs_tick]. Qed.

Lemma keeps_ask {A} (answer : nat -> Outcome A) : keeps obs (ask answer).
Proof.
  apply keeps_bind; [apply passes_keeps, passes_consult | intros r; apply keeps_lift].
Qed.

Lemma keeps_await {A} (call : Event) (answer : nat -> Outcome A) :
  (forall w, obs {| state := state w; trace := trace w ++ [call]; tick := tick w |} = obs w) ->
  keeps obs (await call answer).
Proof.
  intros Hcall. unfold await.
  apply keeps_bind; [apply passes_keeps, passes_emit, Hcall | intros _].
  apply keeps_bind; [apply passes_keeps, passes_consult | intros r].
  destruct r; [apply passes_keeps, passes_ret | apply keeps_throw].
Qed.

End Observations.

(** The state is touched by the setters only. *)
Section StateKept.
Context `{Runtime}.
Variable env : Env.
Variable render : State.t.

Lemma state_tick (w : World) :
  state {| state := state w; trace := trace w; tick := S (tick w) |} = state w.
Proof. reflexivity. Qed.

Lemma state_emit (ev : Event) (w : World) :
  state {| state := state w; trace := trace w ++ [ev]; tick := tick w |} = state w.
Proof. reflexivity. Qed.

Lemma passes_state_generateId : passes state (generateId env).
Proof. apply passes_consult, state_tick. Qed.

Lemma passes_state_newDate : passes state (newDate env).
Proof. apply passes_consult, state_tick. Qed.

Lemma passes_state_toast (title description variant : string) :
  passes state (toast title description variant).
Proof. apply passes_emit, state_emit. Qed.

Lemma keeps_state_await {A} (call : Event) (answer : nat -> Outcome A) :
  keeps state (await call answer).
Proof. apply keeps_await; [apply state_tick | apply state_emit]. Qed.

Lemma passes_state_createNewConversation :
  passes state (createNewConversation env render).
Proof.
  unfold createNewConversation.
  apply passes_bind; [apply passes_state_generateId | intros id].
  apply passes_bind; [apply passes_state_newDate | intros now].
  destruct (signedIn render) as [u |]; [| apply passes_ret].
  apply passes_try_catch.
  - apply keeps_bind; [apply keeps_state_await | intros convo].
    apply passes_keeps, passes_ret.
  - intros _. apply passes_bind; [apply passes_state_toast | intros _; apply passes_ret].
Qed.

Lemma keeps_state_deleteRemote (id : string) : keeps state (deleteRemote env id).
Proof.
  unfold deleteRemote.
  apply keeps_bind; [apply keeps_state_await | intros messages].
  apply keeps_bind; [| intros _; apply keeps_state_await].
  apply keeps_forEach. intros m. apply keeps_state_await.
Qed.

(** A write to the store whose failure is reported by a toast. *)
Lemma passes_state_persist {A} (r : Outcome A) (call : A -> Event)
  (answer : A -> nat -> Outcome unit) (title description variant : string) :
  passes state
    (try_catch (data <- lift r ;; await (call data) (answer data))
       (fun _ => toast title description variant)).
Proof.
  apply passes_try_catch.
  - apply keeps_bind; [apply keeps_lift | intros data; apply keeps_state_await].
  - intros _. apply passes_state_toast.
Qed.

End StateKept.

(** The generation requests grow with [streamText] only. *)
Section RequestsKept.
Context `{Runtime}.
Variable env : Env.
Variable render : State.t.

Lemma requests_tick (w : World) :
  requests {| state := state w; trace := trace w; tick := S (tick w) |} = requests w.
Proof. reflexivity. Qed.

Lemma requests_emit (ev : Event) (w : World) :
  aiRequests [ev] = [] ->
  requests {| state := state w; trace := trace w ++ [ev]; tick := tick w |} = requests w.
Proof.
  intros Hev. unfold requests. cbn [trace]. rewrite aiRequests_app, Hev. apply app_nil_r.
Qed.

Lemma passes_requests_modify (f : State.t -> State.t) : passes requests (modify f).
Proof. apply passes_modify. reflexivity. Qed.

Lemma keeps_requests_await {A} (call : Event) (answer : nat -> Outcome A) :
  aiRequests [call] = [] -> keeps requests (await call answer).
Proof.
  intros Hcall. apply keeps_await; [apply requests_tick |].
  intros w. now apply requests_emit.
Qed.

Lemma passes_requests_createNewConversation :
  passes requests (createNewConversation env render).
Proof.
  unfold createNewConversation.
  apply passes_bind; [apply passes_consult, requests_tick | intros id].
  apply passes_bind; [apply passes_consult, requests_tick | intros now].
  destruct (signedIn render) as [u |]; [| apply passes_ret].
  apply passes_try_catch.
  - apply keeps_bind; [now apply keeps_requests_await | intros convo].
    apply passes_keeps, passes_ret.
  - intros _. apply passes_bind; [| intros _; apply passes_ret].
    apply passes_emit. intros w. now apply requests_emit.
Qed.

Lemma keeps_requests_startNewConversation :
  keeps requests (startNewConversation env render).
Proof.
  unfold startNewConversation.
  apply keeps_bind; [apply passes_keeps, passes_requests_createNewConversation | intros c].
  apply keeps_bind; [apply passes_keeps, passes_requests_modify | intros _].
  apply passes_keeps, passes_requests_modify.
Qed.

Lemma keeps_requests_deleteConversation (id : string) :
  keeps requests (deleteConversation env render id).
Proof.
  unfold deleteConversation. apply keeps_try_catch.
  - apply keeps_bind.
    + destruct (signedIn render); [| apply passes_keeps, passes_ret].
      unfold deleteRemote.
      apply keeps_bind; [now apply keeps_requests_await | intros messages].
      apply keeps_bind; [| intros _; now apply keeps_requests_await].
      apply keeps_forEach. intros m. now apply keeps_requests_await.
    + intros _. apply keeps_bind; [apply passes_keeps, passes_requests_modify | intros _].
      destruct (id_is (State.currentConversationId render) id);
        apply passes_keeps; [apply passes_requests_modify | apply passes_ret].
  - intros _. apply passes_keeps, passes_emit. intros w. now apply requests_emit.
Qed.

End RequestsKept.

(** ** Creating and starting a conversation *)

Section Creation.
Context `{Runtime}.
Variable env : Env.
Variable render : State.t.

(** [createNewConversation], case by case. *)
Lemma createNewConversation_runs (w : World) :
  let id := generateId_at env (tick w) in
  let now := DateAt (Date_now env (S (tick w))) in
  let localOnly :=
    {| Conversation.id := id;
       Conversation.title := "New Chat";
       Conversation.messages := [];
       Conversation.createdAt := now;
       Conversation.updatedAt := now |} in
  createNewConversation env render w
  = match signedIn render with
    | None =>
        (Returned localOnly,
         {| state := state w; trace := trace w; tick := S (S (tick w)) |})
    | Some u =>
        let data := createDbConversation id (User.id u) "New Chat" in
        match db_conversations_create env (S (S (tick w))) data with
        | Returned convo =>
            (Returned
               {| Conversation.id := DbConversation.id convo;
                  Conversation.title := DbConversation.title convo;
                  Conversation.messages := [];
                  Conversation.createdAt := dateOf (DbConversation.created_at convo);
                  Conversation.updatedAt := dateOf (DbConversation.updated_at convo) |},
             {| state := state w;
                trace := trace w ++ [DbConversationsCreate data];
                tick := S (S (S (tick w))) |})
        | Thrown _ =>
            (Returned localOnly,
             {| state := state w;
                trace :=
                  (trace w ++ [DbConversationsCreate data])
                  ++ [Toast "Warning"
                        "Failed to save conversation to database. Working in offline mode."
                        "destructive"];
                tick := S (S (S (tick w))) |})
        end
    end.
Proof.
  cbv zeta. unfold createNewConversation.
  destruct (signedIn render) as [u |]; [| reflexivity].
  destruct (db_conversations_create env (S (S (tick w))) _) as [convo | e] eqn:E;
    cbv beta iota delta [bind try_catch await generateId newDate consult emit toast ret throw];
    cbn [state trace tick]; rewrite E; reflexivity.
Qed.

End Creation.




(** X2.  Without a signed-in user, or when the store rejects the new
    conversation, [createNewConversation] still returns a conversation:
    a local one with the generated id, the title "New Chat", no messages
    and the current time as both dates.  The state is untouched; the
    rejection is reported by one warning toast, and nothing is reported
    when nobody is signed in. *)
Theorem createNewConversation_falls_back_to_a_local_conversation :
  forall `{Runtime} (env : Env) (render : State.t) (w : World),
    (signedIn render = None
     \/ exists u e,
          signedIn render = Some u
          /\ db_conversations_create env (S (S (tick w)))
               (createDbConversation (generateId_at env (tick w)) (User.id u) "New Chat")
             = Thrown e) ->
    exists w',
      createNewConversation env render w
      = (Returned
           {| Conversation.id := generateId_at env (tick w);
              Conversation.title := "New Chat";
              Conversation.messages := [];
              Conversation.createdAt := DateAt (Date_now env (S (tick w)));
              Conversation.updatedAt := DateAt (Date_now env (S (tick w))) |},
         w')
      /\ state w' = state w
      /\ toasts (trace w')
         = toasts (trace w)
           ++ match signedIn render with
              | Some _ =>
                  [("Warning",
                    "Failed to save conversation to database. Working in offline mode.")]
              | None => []
              end.
Proof.
  intros R env render w Hcase.
  pose proof (createNewConversation_runs env render w) as E. cbv zeta in E.
  destruct Hcase as [Hout | (u & e & Hu & Hcreate)].
  - rewrite Hout in E |- *. eexists. split; [exact E |].
    split; [reflexivity | cbn [trace]; now rewrite app_nil_r].
  - rewrite Hu in E |- *. cbv zeta in E. rewrite Hcreate in E.
    eexists. split; [exact E |]. split; [reflexivity |].
    cbn [trace]. rewrite !toasts_app. cbn. now rewrite app_nil_r.
Qed.

Lemma createNewConversation_falls_back_to_a_local_conversation_witness :
  exists w',
    @createNewConversation Reference.runtime Walkthrough.readOnly
      (Scenario.hook (Some Scenario.alice) [])
      (Scenario.start (Scenario.hook (Some Scenario.alice) []))
    = (Returned
         {| Conversation.id := "id000";
            Conversation.title := "New Chat";
            Conversation.messages := [];
            Conversation.createdAt := DateAt 1700000000001;
            Conversation.updatedAt := DateAt 1700000000001 |},
       w')
    /\ toasts (trace w')
       = [("Warning", "Failed to save conversation to database. Working in offline mode.")].
Proof.
  destruct (@createNewConversation_falls_back_to_a_local_conversation Reference.runtime
              Walkthrough.readOnly (Scenario.hook (Some Scenario.alice) [])
              (Scenario.start (Scenario.hook (Some Scenario.alice) [])))
    as (w' & E & _ & T).
  - right. exists Scenario.alice, RemoteError. split; reflexivity.
  - exists w'. split; [exact E | exact T].
Defined.

(** X3.  [startNewConversation] never fails: it puts the conversation that
    [createNewConversation] returns first in the list and selects it.  The
    conversation has no messages, the other conversations and the rest of
    the state are as before, and no generation is requested. *)
Theorem startNewConversation_prepends_and_selects :
  forall `{Runtime} (env : Env) (w : World),
    exists c w1,
      createNewConversation env (state w) w = (Returned c, w1)
      /\ fst (run env StartNewConversation w) = Returned tt
      /\ state (perform env w StartNewConversation)
         = {| State.conversations := c :: State.conversations (state w);
              State.currentConversationId := Some (Conversation.id c);
              State.isLoading := State.isLoading (state w);
              State.user := State.user (state w);
              State.isAuthenticated := State.isAuthenticated (state w);
              State.initialized := State.initialized (state w) |}
      /\ Conversation.messages c = []
      /\ selectionValid (state (perform env w StartNewConversation)) = true
      /\ requests (perform env w StartNewConversation) = requests w.
Proof.
  intros R env w.
  destruct (passes_state_createNewConversation env (state w) w) as (c & w1 & E & S1).
  exists c, w1. split; [exact E |].
  assert (Hrun : run env StartNewConversation w
                 = (Returned tt,
                    {| state :=
                         {| State.conversations := c :: State.conversations (state w);
                            State.currentConversationId := Some (Conversation.id c);
                            State.isLoading := State.isLoading (state w);
                            State.user := State.user (state w);
                            State.isAuthenticated := State.isAuthenticated (state w);
                            State.initialized := State.initialized (state w) |};
                       trace := trace w1; tick := tick w1 |})).
  { unfold run, startNewConversation. rewrite (bind_Returned _ _ _ _ _ E).
    unfold bind, setConversations, setCurrentConversationId, modify.
    cbn [state trace tick]. now rewrite S1. }
  assert (Hreq : requests (perform env w StartNewConversation) = requests w)
    by apply (keeps_requests_startNewConversation env (state w) w).
  split; [now rewrite Hrun |]. split; [unfold perform; now rewrite Hrun |].
  split; [| split; [| exact Hreq]].
  - pose proof (createNewConversation_runs env (state w) w) as C. cbv zeta in C.
    rewrite E in C.
    destruct (signedIn (state w)); [| now injection C as -> _].
    cbv zeta in C. destruct (db_conversations_create env _ _); now injection C as -> _.
  - unfold perform. rewrite Hrun. unfold selectionValid, conversationOf.
    cbn [snd state State.currentConversationId State.conversations find].
    now rewrite String.eqb_refl.
Qed.

(** ** Adding a message and naming a conversation *)

(** [prev.map(c => c.id === id ? F(c) : c)], conversation by conversation. *)
Lemma updateWhere_Forall2 (id : string) (F : Conversation.t -> Conversation.t)
  (prev : list Conversation.t) :
  Forall2 (fun c c' => if (Conversation.id c =? id)%string then c' = F c else c' = c)
    prev (updateWhere id F prev).
Proof.
  induction prev as [| c prev IH]; [constructor |]. cbn [updateWhere map].
  constructor; [now destruct (Conversation.id c =? id)%string | exact IH].
Qed.

Lemma withConversations_own (s s' : State.t) (conversations : list Conversation.t) :
  s' = withConversations conversations s ->
  s' = withConversations (State.conversations s') s.
Proof. now intros ->. Qed.

(** What [addMessage] does, step by step: the store is asked if a user is
    signed in and the record could be written, then the clock is read and
    the conversations are updated. *)
Lemma addMessage_effect `{Runtime} (env : Env) (render : State.t) (conversationId : string)
  (message : Message.t) (w : World) :
  let asked :=
    match signedIn render with
    | Some u =>
        match createDbMessage message conversationId (User.id u) with
        | Returned _ => 1
        | Thrown _ => 0
        end
    | None => 0
    end in
  exists w',
    addMessage env render conversationId message w = (Returned tt, w')
    /\ state w'
       = withConversations
           (updateWhere conversationId
              (withMessage message (DateAt (Date_now env (asked + tick w))))
              (State.conversations (state w)))
           (state w)
    /\ tick w' = S (asked + tick w)
    /\ toasts (trace w')
       = toasts (trace w)
         ++ match signedIn render with
            | Some u =>
                match createDbMessage message conversationId (User.id u) with
                | Returned data =>
                    match db_messages_create env (tick w) data with
                    | Returned _ => []
                    | Thrown _ =>
                        [("Warning",
                          "Failed to save message to database. Your conversation may not persist.")]
                    end
                | Thrown _ =>
                    [("Warning",
                      "Failed to save message to database. Your conversation may not persist.")]
                end
            | None => []
            end.
Proof.
  unfold addMessage.
  destruct (signedIn render) as [u |].
  - destruct (createDbMessage message conversationId (User.id u)) as [data | e] eqn:Hdata.
    + destruct (db_messages_create env (tick w) data) as [[] | e] eqn:Hcreate;
        cbv beta iota delta [bind try_catch await lift newDate consult emit toast ret throw
                               setConversations modify];
        cbn [state trace tick]; rewrite Hcreate;
        (eexists; split; [reflexivity |]; split; [reflexivity |]; split; [reflexivity |]);
        cbn [trace]; rewrite ?toasts_app; cbn; now rewrite ?app_nil_r.
    + cbv beta iota delta [bind try_catch await lift newDate consult emit toast ret throw
                             setConversations modify].
      eexists; split; [reflexivity |]; split; [reflexivity |]; split; [reflexivity |].
      cbn [trace]. now rewrite toasts_app.
  - eexists; split; [reflexivity |]; split; [reflexivity |]; split; [reflexivity |].
    cbn [trace]. now rewrite app_nil_r.
Qed.

(** X4.  [addMessage] never fails and always appends the message to the
    conversations with the given id, in the live list, stamping them with
    the current time: when nobody is signed in, when the store accepts the
    message, when the store rejects it, and when the message cannot even be
    written as a record (its timestamp is the invalid date).  The current
    time is a reading of the clock made during the call, after the answer
    of the store if the store was asked.  Every other conversation and the
    rest of the state are untouched.  One warning toast is shown exactly
    when a user is signed in and the message was not stored. *)
Theorem addMessage_appends_whatever_the_store_says :
  forall `{Runtime} (env : Env) (render : State.t) (conversationId : string)
         (message : Message.t) (w : World),
    let asked :=
      match signedIn render with
      | Some u =>
          match createDbMessage message conversationId (User.id u) with
          | Returned _ => 1
          | Thrown _ => 0
          end
      | None => 0
      end in
    exists w',
      addMessage env render conversationId message w = (Returned tt, w')
      /\ Forall2
           (fun c c' =>
              if (Conversation.id c =? conversationId)%string
              then exists t,
                     asked + tick w <= t < tick w'
                     /\ c' = {| Conversation.id := Conversation.id c;
                                Conversation.title := Conversation.title c;
                                Conversation.messages := Conversation.messages c ++ [message];
                                Conversation.createdAt := Conversation.createdAt c;
                                Conversation.updatedAt := DateAt (Date_now env t) |}
              else c' = c)
           (State.conversations (state w)) (State.conversations (state w'))
      /\ state w' = withConversations (State.conversations (state w')) (state w)
      /\ toasts (trace w')
         = toasts (trace w)
           ++ match signedIn render with
              | Some u =>
                  match createDbMessage message conversationId (User.id u) with
                  | Returned data =>
                      match db_messages_create env (tick w) data with
                      | Returned _ => []
                      | Thrown _ =>
                          [("Warning",
                            "Failed to save message to database. Your conversation may not persist.")]
                      end
                  | Thrown _ =>
                      [("Warning",
                        "Failed to save message to database. Your conversation may not persist.")]
                  end
              | None => []
              end.
Proof.
  intros R env render cid m w asked.
  destruct (addMessage_effect env render cid m w) as (w' & E & Hstate & Htick & Htoasts).
  fold asked in Hstate, Htick.
  exists w'. split; [exact E |]. split; [| split; [| exact Htoasts]].
  - rewrite Hstate. cbn [withConversations State.conversations].
    eapply Forall2_impl; [| apply updateWhere_Forall2].
    intros c c'. cbv beta. destruct (Conversation.id c =? cid)%string; [| trivial].
    intros ->. exists (asked + tick w). split; [rewrite Htick; lia | reflexivity].
  - exact (withConversations_own _ _ _ Hstate).
Qed.

(** What [updateConversationTitle] does, step by step. *)
Lemma updateConversationTitle_effect `{Runtime} (env : Env) (render : State.t)
  (conversationId firstMessage : string) (w : World) :
  let asked := match signedIn render with Some _ => 1 | None => 0 end in
  exists w',
    updateConversationTitle env render conversationId firstMessage w = (Returned tt, w')
    /\ state w'
       = withConversations
           (updateWhere conversationId
              (withTitle (titleFrom firstMessage) (DateAt (Date_now env (asked + tick w))))
              (State.conversations (state w)))
           (state w)
    /\ tick w' = S (asked + tick w)
    /\ toasts (trace w') = toasts (trace w).
Proof.
  unfold updateConversationTitle.
  destruct (signedIn render) as [u |].
  - destruct (db_conversations_update env (tick w) conversationId (titleFrom firstMessage))
      as [[] | e] eqn:Hupdate;
      cbv beta iota delta [bind try_catch await lift newDate consult emit toast ret throw
                             setConversations modify];
      cbn [state trace tick]; rewrite Hupdate;
      (eexists; split; [reflexivity |]; split; [reflexivity |]; split; [reflexivity |]);
      cbn [trace]; rewrite ?toasts_app; cbn; now rewrite ?app_nil_r.
  - eexists; split; [reflexivity |]; split; [reflexivity |]; split; reflexivity.
Qed.

(** X5.  [updateConversationTitle] never fails and always sets the title of the
    conversations with the given id to [titleFrom] of the first message,
    at most fifty code units, stamping them with the current time: a
    reading of the clock made during the call, after the answer of the
    store when a user is signed in.  Their messages and creation dates, the
    other conversations and the rest of the state are untouched.  A store
    that rejects the new title goes unnoticed: no toast is shown. *)
Theorem updateConversationTitle_renames_locally_and_silently :
  forall `{Runtime} (env : Env) (render : State.t) (conversationId firstMessage : string)
         (w : World),
    let asked := match signedIn render with Some _ => 1 | None => 0 end in
    exists w',
      updateConversationTitle env render conversationId firstMessage w = (Returned tt, w')
      /\ Forall2
           (fun c c' =>
              if (Conversation.id c =? conversationId)%string
              then exists t,
                     asked + tick w <= t < tick w'
                     /\ c' = {| Conversation.id := Conversation.id c;
                                Conversation.title := titleFrom firstMessage;
                                Conversation.messages := Conversation.messages c;
                                Conversation.createdAt := Conversation.createdAt c;
                                Conversation.updatedAt := DateAt (Date_now env t) |}
              else c' = c)
           (State.conversations (state w)) (State.conversations (state w'))
      /\ state w' = withConversations (State.conversations (state w')) (state w)
      /\ toasts (trace w') = toasts (trace w)
      /\ String.length (titleFrom firstMessage) <= 50.
Proof.
  intros R env render cid first w asked.
  assert (Hlen : String.length (titleFrom first) <= 50).
  { destruct (Nat.ltb_spec 50 (String.length first)) as [Hlong | Hshort].
    - destruct (titleFrom_long first Hlong) as (_ & -> & _). apply Nat.le_refl.
    - now rewrite (titleFrom_short first Hshort). }
  destruct (updateConversationTitle_effect env render cid first w)
    as (w' & E & Hstate & Htick & Htoasts).
  fold asked in Hstate, Htick.
  exists w'. split; [exact E |]. split; [| split; [| split; [exact Htoasts | exact Hlen]]].
  - rewrite Hstate. cbn [withConversations State.conversations].
    eapply Forall2_impl; [| apply updateWhere_Forall2].
    intros c c'. cbv beta. destruct (Conversation.id c =? cid)%string; [| trivial].
    intros ->. exists (asked + tick w). split; [rewrite Htick; lia | reflexivity].
  - exact (withConversations_own _ _ _ Hstate).
Qed.

(** ** Deleting a conversation: the selection *)

Lemma find_without_same (id : string) (l : list Conversation.t) :
  find (fun c => (Conversation.id c =? id)%string) (without id l) = None.
Proof.
  induction l as [| c l IH]; [reflexivity |]. cbn [without filter].
  destruct (Conversation.id c =? id)%string eqn:E; cbn [negb]; [exact IH |].
  cbn [find]. rewrite E. exact IH.
Qed.

Lemma find_without_other (id other : string) (l : list Conversation.t) :
  other <> id ->
  find (fun c => (Conversation.id c =? other)%string) (without id l)
  = find (fun c => (Conversation.id c =? other)%string) l.
Proof.
  intros Hother. induction l as [| c l IH]; [reflexivity |]. cbn [without filter find].
  destruct (Conversation.id c =? id)%string eqn:E; cbn [negb].
  - destruct (Conversation.id c =? other)%string eqn:E'; [| exact IH].
    apply String.eqb_eq in E, E'. congruence.
  - cbn [find]. destruct (Conversation.id c =? other)%string; [reflexivity | exact IH].
Qed.

Lemma find_head (l : list Conversation.t) (c : Conversation.t) :
  hd_error l = Some c ->
  find (fun x => (Conversation.id x =? Conversation.id c)%string) l = Some c.
Proof.
  destruct l as [| x l]; [discriminate |]. intros [= ->].
  cbn [find]. now rewrite String.eqb_refl.
Qed.

Section DeletionState.
Variable env : Env.
Variable render : State.t.

(** [deleteConversation] once its remote part has gone through. *)
Lemma deleteConversation_removes (id : string) (w : World) :
  match signedIn render with
  | Some _ => exists w1, deleteRemote env id w = (Returned tt, w1)
  | None => True
  end ->
  fst (deleteConversation env render id w) = Returned tt
  /\ state (snd (deleteConversation env render id w))
     = {| State.conversations := without id (State.conversations (state w));
          State.currentConversationId :=
            if id_is (State.currentConversationId render) id
            then option_map Conversation.id
                   (hd_error (without id (State.conversations render)))
            else State.currentConversationId (state w);
          State.isLoading := State.isLoading (state w);
          State.user := State.user (state w);
          State.isAuthenticated := State.isAuthenticated (state w);
          State.initialized := State.initialized (state w) |}.
Proof.
  intros Hremote. unfold deleteConversation, try_catch.
  assert (E : exists w1,
             match signedIn render with
             | Some _ => deleteRemote env id
             | None => ret tt
             end w = (Returned tt, w1) /\ state w1 = state w).
  { destruct (signedIn render).
    - destruct Hremote as (w1 & E). exists w1. split; [exact E |].
      pose proof (keeps_state_deleteRemote env id w) as K. now rewrite E in K.
    - now exists w. }
  destruct E as (w1 & E & S1). rewrite (bind_Returned _ _ _ _ _ E).
  destruct (id_is (State.currentConversationId render) id);
    cbv beta iota delta [bind setConversations setCurrentConversationId modify ret];
    cbn [fst snd state State.conversations State.currentConversationId State.isLoading
         State.user State.isAuthenticated State.initialized];
    rewrite S1; split; reflexivity.
Qed.

(** [deleteConversation] when its remote part is rejected. *)
Lemma deleteConversation_keeps (id : string) (w w1 : World) (u : User.t) (e : Exn) :
  signedIn render = Some u ->
  deleteRemote env id w = (Thrown e, w1) ->
  deleteConversation env render id w
  = (Returned tt,
     {| state := state w;
        trace := trace w1 ++ [Toast "Error" "Failed to delete conversation" "destructive"];
        tick := tick w1 |}).
Proof.
  intros Hu E. unfold deleteConversation, try_catch. rewrite Hu.
  rewrite (bind_Thrown _ _ _ _ _ E).
  pose proof (keeps_state_deleteRemote env id w) as K. rewrite E in K. cbn [snd] in K.
  unfold toast, emit. now rewrite K.
Qed.

(** Either way [deleteConversation] returns, and the state is as before
    or as after the removal. *)
Lemma deleteConversation_cases (id : string) (w : World) :
  fst (deleteConversation env render id w) = Returned tt
  /\ (state (snd (deleteConversation env render id w)) = state w
      \/ state (snd (deleteConversation env render id w))
         = {| State.conversations := without id (State.conversations (state w));
              State.currentConversationId :=
                if id_is (State.currentConversationId render) id
                then option_map Conversation.id
                       (hd_error (without id (State.conversations render)))
                else State.currentConversationId (state w);
              State.isLoading := State.isLoading (state w);
              State.user := State.user (state w);
              State.isAuthenticated := State.isAuthenticated (state w);
              State.initialized := State.initialized (state w) |}).
Proof.
  destruct (signedIn render) as [u |] eqn:Hu.
  - destruct (deleteRemote env id w) as [[[] | e] w1] eqn:E.
    + destruct (deleteConversation_removes id w) as (F & S1).
      { rewrite Hu. now exists w1. }
      split; [exact F | right; exact S1].
    + rewrite (deleteConversation_keeps id w w1 u e Hu E). split; [reflexivity | now left].
  - destruct (deleteConversation_removes id w) as (F & S1); [now rewrite Hu |].
    split; [exact F | right; exact S1].
Qed.

End DeletionState.

(** The selection stays valid under a removal as [deleteConversation] on
    the latest render makes it. *)
Lemma selectionValid_removed (s : State.t) (id : string) :
  selectionValid s = true ->
  selectionValid
    {| State.conversations := without id (State.conversations s);
       State.currentConversationId :=
         if id_is (State.currentConversationId s) id
         then option_map Conversation.id (hd_error (without id (State.conversations s)))
         else State.currentConversationId s;
       State.isLoading := State.isLoading s;
       State.user := State.user s;
       State.isAuthenticated := State.isAuthenticated s;
       State.initialized := State.initialized s |} = true.
Proof.
  unfold selectionValid, conversationOf.
  cbn [State.currentConversationId State.conversations].
  destruct (State.currentConversationId s) as [cur |]; cbn [id_is]; [| reflexivity].
  destruct (cur =? id)%string eqn:E.
  - intros _. rewrite String.eqb_sym in E. rewrite E.
    destruct (hd_error (without id (State.conversations s))) as [c |] eqn:Hhd;
      cbn [option_map]; [| reflexivity].
    now rewrite (find_head _ _ Hhd).
  - rewrite String.eqb_sym in E. rewrite E.
    apply String.eqb_neq in E.
    rewrite find_without_other by congruence. trivial.
Qed.

(** X6.  When the deletion goes through (nobody is signed in, or every remote
    call succeeds), [deleteConversation] removes every conversation with
    the given id and keeps the others as they were and in their order.  If
    the deleted conversation was the selected one, the first of the
    remaining conversations becomes selected, or none when the list is
    empty; otherwise the selection stays.  A selection that pointed into
    the list still does. *)
Theorem deleteConversation_moves_the_selection :
  forall `{Runtime} (env : Env) (w : World) (id : string),
    (signedIn (state w) = None \/ deletesRemotely env (tick w) id) ->
    let s := state w in
    let s' := state (perform env w (DeleteConversation id)) in
    State.conversations s' = without id (State.conversations s)
    /\ conversationOf s' id = None
    /\ (forall other, other <> id -> conversationOf s' other = conversationOf s other)
    /\ State.currentConversationId s'
       = (if id_is (State.currentConversationId s) id
          then option_map Conversation.id (hd_error (State.conversations s'))
          else State.currentConversationId s)
    /\ (selectionValid s = true -> selectionValid s' = true)
    /\ (State.isLoading s', State.user s', State.isAuthenticated s', State.initialized s')
       = (State.isLoading s, State.user s, State.isAuthenticated s, State.initialized s).
Proof.
  intros R env w id Hcase. cbv zeta. unfold perform, run.
  destruct (deleteConversation_removes env (state w) id w) as (_ & S1).
  { destruct (signedIn (state w)) as [u |]; [| exact I].
    destruct Hcase as [Hout | (messages & Hlist & Hall)]; [discriminate |].
    eexists. apply (deleteRemote_succeeds env id messages w Hlist Hall). }
  rewrite S1. cbn [State.conversations State.currentConversationId State.isLoading
                   State.user State.isAuthenticated State.initialized].
  split; [reflexivity |].
  split; [apply find_without_same |].
  split; [intros other Hother; now apply find_without_other |].
  split; [reflexivity |].
  split; [apply selectionValid_removed | reflexivity].
Qed.

Lemma deleteConversation_moves_the_selection_witness :
  let w := Scenario.start (Scenario.hook (Some Scenario.alice)
                             [Scenario.savedChat; Walkthrough.otherChat]) in
  let s' := state (@perform Reference.runtime Scenario.fair w (DeleteConversation "c1")) in
  State.conversations s' = [Walkthrough.otherChat]
  /\ State.currentConversationId s' = Some "c2".
Proof.
  cbv zeta.
  destruct (@deleteConversation_moves_the_selection Reference.runtime Scenario.fair
              (Scenario.start (Scenario.hook (Some Scenario.alice)
                                 [Scenario.savedChat; Walkthrough.otherChat]))
              "c1")
    as (Hl & _ & _ & Hc & _).
  - right. exists [Scenario.persisted "m1"; Scenario.persisted "m2"; Scenario.persisted "m3"].
    split; [reflexivity |]. split; [intros k m _; reflexivity | reflexivity].
  - split; [rewrite Hl; reflexivity | rewrite Hc, Hl; reflexivity].
Defined.

(** X7.  When the messages of the conversation cannot be listed,
    [deleteConversation] deletes nothing, neither in the store nor in the
    state: the list call is its only call, and one error toast is shown. *)
Theorem deleteConversation_unlistable_deletes_nothing :
  forall (env : Env) (render : State.t) (id : string) (w : World) (u : User.t) (e : Exn),
    signedIn render = Some u ->
    db_messages_list env (tick w) id = Thrown e ->
    deleteConversation env render id w
    = (Returned tt,
       {| state := state w;
          trace := (trace w ++ [DbMessagesList id])
                   ++ [Toast "Error" "Failed to delete conversation" "destructive"];
          tick := S (tick w) |}).
Proof.
  intros env render id w u e Hu Hlist.
  apply (deleteConversation_keeps env render id w
           {| state := state w; trace := trace w ++ [DbMessagesList id];
              tick := S (tick w) |} u e Hu).
  unfold deleteRemote.
  now rewrite (bind_Thrown _ _ _ _ _ (await_Thrown _ _ w e Hlist)).
Qed.

Lemma deleteConversation_unlistable_deletes_nothing_witness :
  let s := Scenario.hook (Some Scenario.alice) [Scenario.savedChat] in
  state (snd (deleteConversation Walkthrough.sealed s "c1" (Scenario.start s))) = s.
Proof.
  cbv zeta.
  rewrite (deleteConversation_unlistable_deletes_nothing Walkthrough.sealed
             (Scenario.hook (Some Scenario.alice) [Scenario.savedChat]) "c1"
             (Scenario.start (Scenario.hook (Some Scenario.alice) [Scenario.savedChat]))
             Scenario.alice RemoteError eq_refl eq_refl).
  reflexivity.
Defined.

(** ** Tasks that return *)

Lemma total_ret {A} (a : A) : total (ret a).
Proof. intros w. now exists a. Qed.

Lemma total_bind {A B} (t : Task A) (k : A -> Task B) :
  total t -> (forall a, total (k a)) -> total (bind t k).
Proof.
  intros Tt Tk w. destruct (Tt w) as (a & E). unfold bind.
  destruct (t w) as [[a' | e] w1]; cbn [fst] in E; [| discriminate].
  apply Tk.
Qed.

Lemma total_try_catch {A} (t : Task A) (h : Exn -> Task A) :
  (forall e, total (h e)) -> total (try_catch t h).
Proof.
  intros Th w. unfold try_catch. destruct (t w) as [[a | e] w1]; [now exists a | apply Th].
Qed.

Lemma total_finally {A} (t : Task A) (c : Task unit) :
  total t -> total c -> total (finally t c).
Proof.
  intros Tt Tc w. destruct (Tt w) as (a & E). unfold finally.
  destruct (t w) as [r w1]. cbn [fst] in E. subst r.
  destruct (Tc w1) as ([] & E'). destruct (c w1) as [[[] | e] w2]; cbn [fst] in E';
    [now exists a | discriminate].
Qed.

Lemma total_modify (f : State.t -> State.t) : total (modify f).
Proof. intros w. now exists tt. Qed.

Lemma total_emit (ev : Event) : total (emit ev).
Proof. intros w. now exists tt. Qed.

Lemma total_consult {A} (answer : nat -> A) : total (consult answer).
Proof. intros w. now exists (answer (tick w)). Qed.

Lemma total_attempt {A} (t : Task A) : total (attempt t).
Proof. intros w. unfold attempt. destruct (t w) as [r w1]. now exists r. Qed.

(** ** Updates of the conversations with one id *)

Lemma updateWhere_same (cid : string) (l : list Conversation.t) :
  updateWhere cid (fun c => c) l = l.
Proof.
  unfold updateWhere. induction l as [| c l IH]; [reflexivity |].
  cbn [map]. rewrite IH. now destruct (Conversation.id c =? cid)%string.
Qed.

Lemma updateWhere_twice (cid : string) (F G : Conversation.t -> Conversation.t)
  (l : list Conversation.t) :
  keepsId F ->
  updateWhere cid G (updateWhere cid F l) = updateWhere cid (fun c => G (F c)) l.
Proof.
  intros HF. unfold updateWhere. rewrite map_map. apply map_ext. intros c.
  destruct (Conversation.id c =? cid)%string eqn:E; [now rewrite HF, E | now rewrite E].
Qed.

Lemma withConversations_same (s : State.t) :
  withConversations (State.conversations s) s = s.
Proof. now destruct s. Qed.

Lemma continues_refl (c : Conversation.t) : continues c c.
Proof. exists []. now rewrite app_nil_r. Qed.

Lemma continues_trans (a b c : Conversation.t) :
  continues a b -> continues b c -> continues a c.
Proof. intros [x Hx] [y Hy]. exists (x ++ y). now rewrite Hy, Hx, app_assoc. Qed.

Lemma growsOnly_compose (F G : Conversation.t -> Conversation.t) :
  growsOnly F -> growsOnly G -> growsOnly (fun c => G (F c)).
Proof.
  intros HF HG c. destruct (HF c) as [Fc Fm], (HG (F c)) as [Gc Gm].
  split; [congruence | now apply continues_trans with (F c)].
Qed.

Lemma stampsOrKeeps_compose (F G : Conversation.t -> Conversation.t) :
  stampsOrKeeps F -> stampsOrKeeps G -> stampsOrKeeps (fun c => G (F c)).
Proof.
  intros HF HG c. destruct (HG (F c)) as [E | E]; [| now right].
  rewrite E. apply HF.
Qed.

Lemma stamps_then (F G : Conversation.t -> Conversation.t) :
  stamps F -> stampsOrKeeps G -> stamps (fun c => G (F c)).
Proof.
  intros HF HG c. destruct (HG (F c)) as [E | E]; [| exact E].
  rewrite E. apply HF.
Qed.

Lemma adds_same : adds (fun c => c).
Proof.
  split; [intros c; split; [reflexivity | apply continues_refl] |].
  split; [intros c; reflexivity | intros c; now left].
Qed.

Lemma adds_compose (F G : Conversation.t -> Conversation.t) :
  adds F -> adds G -> adds (fun c => G (F c)).
Proof.
  intros (HF & TF & SF) (HG & TG & SG). split; [now apply growsOnly_compose |].
  split; [intros c; now rewrite TG, TF | now apply stampsOrKeeps_compose].
Qed.

Lemma sends_then_adds (F G : Conversation.t -> Conversation.t) :
  sends F -> adds G -> sends (fun c => G (F c)).
Proof.
  intros (HF & TF & SF) (HG & TG & SG). split; [now apply growsOnly_compose |].
  split; [intros c; now rewrite TG, TF | now apply stamps_then].
Qed.

Lemma sends_then_entitles (title : string) (F G : Conversation.t -> Conversation.t) :
  sends F -> entitles title G -> entitles title (fun c => G (F c)).
Proof.
  intros (HF & TF & SF) (HG & TG & SG). split; [now apply growsOnly_compose |].
  split; [intros c; apply TG | intros c; apply SG].
Qed.

Lemma entitles_then_adds (title : string) (F G : Conversation.t -> Conversation.t) :
  entitles title F -> adds G -> entitles title (fun c => G (F c)).
Proof.
  intros (HF & TF & SF) (HG & TG & SG). split; [now apply growsOnly_compose |].
  split; [intros c; now rewrite TG, TF | now apply stamps_then].
Qed.

Lemma growsOnly_withMessage (message : Message.t) (now : Date) :
  growsOnly (withMessage message now).
Proof.
  intros c. split; [reflexivity |].
  exists [Message.id message]. cbn [withMessage Conversation.messages]. now rewrite map_app.
Qed.

Lemma adds_withMessage (message : Message.t) (ms : Z) :
  keepsId (withMessage message (DateAt ms)) /\ adds (withMessage message (DateAt ms)).
Proof.
  split; [intros c; reflexivity |]. split; [apply growsOnly_withMessage |].
  split; [intros c; reflexivity | intros c; right; now exists ms].
Qed.

Lemma sends_withMessage (message : Message.t) (ms : Z) :
  keepsId (withMessage message (DateAt ms)) /\ sends (withMessage message (DateAt ms)).
Proof.
  split; [intros c; reflexivity |]. split; [apply growsOnly_withMessage |].
  split; [intros c; reflexivity | intros c; now exists ms].
Qed.

Lemma entitles_withTitle (title : string) (ms : Z) :
  keepsId (withTitle title (DateAt ms)) /\ entitles title (withTitle title (DateAt ms)).
Proof.
  split; [intros c; reflexivity |]. split.
  - intros c. split; [reflexivity |].
    exists []. cbn [withTitle Conversation.messages]. now rewrite app_nil_r.
  - split; [intros c; reflexivity | intros c; now exists ms].
Qed.

Lemma adds_withMessagesMapped (messageId : string) (f : Message.t -> Message.t)
  (ms : Z) :
  (forall m, Message.id (f m) = Message.id m) ->
  keepsId (withMessagesMapped messageId f (DateAt ms))
  /\ adds (withMessagesMapped messageId f (DateAt ms)).
Proof.
  intros Hf. split; [intros c; reflexivity |]. split.
  - intros c. split; [reflexivity |].
    exists []. cbn [withMessagesMapped Conversation.messages].
    rewrite map_map, app_nil_r. apply map_ext. intros m.
    now destruct (Message.id m =? messageId)%string.
  - split; [intros c; reflexivity | intros c; right; now exists ms].
Qed.

Section Amends.
Variable cid : string.

Lemma amends_keeps (P : (Conversation.t -> Conversation.t) -> Prop) {A} (t : Task A) :
  P (fun c => c) -> keeps state t -> amends P cid t.
Proof.
  intros HP K w. exists (fun c => c). split; [intros c; reflexivity |].
  split; [exact HP |]. now rewrite K, updateWhere_same, withConversations_same.
Qed.

Lemma amends_setConversations (P : (Conversation.t -> Conversation.t) -> Prop)
  (f : Conversation.t -> Conversation.t) :
  keepsId f /\ P f -> amends P cid (setConversations (updateWhere cid f)).
Proof. intros [Hf Pf] w. exists f. now repeat split. Qed.

(** A sequence: the updates compose. *)
Lemma amends_bind (P Q R : (Conversation.t -> Conversation.t) -> Prop) {A B}
  (t : Task A) (k : A -> Task B) :
  (forall F, P F -> R F) ->
  (forall F G, P F -> Q G -> R (fun c => G (F c))) ->
  amends P cid t -> (forall a, amends Q cid (k a)) -> amends R cid (bind t k).
Proof.
  intros HPR Hcomp At Ak w. destruct (At w) as (F & HF & PF & SF). unfold bind.
  destruct (t w) as [[a | e] w1]; cbn [snd] in *.
  - destruct (Ak a w1) as (G & HG & QG & SG). exists (fun c => G (F c)).
    split; [intros c; now rewrite HG, HF |]. split; [now apply Hcomp |].
    rewrite SG, SF. unfold withConversations.
    cbn [State.conversations State.currentConversationId State.isLoading State.user
         State.isAuthenticated State.initialized].
    now rewrite updateWhere_twice.
  - exists F. auto.
Qed.

(** A sequence whose first task always returns. *)
Lemma amends_then (P Q R : (Conversation.t -> Conversation.t) -> Prop) {A B}
  (t : Task A) (k : A -> Task B) :
  total t ->
  (forall F G, P F -> Q G -> R (fun c => G (F c))) ->
  amends P cid t -> (forall a, amends Q cid (k a)) -> amends R cid (bind t k).
Proof.
  intros Tt Hcomp At Ak w. destruct (At w) as (F & HF & PF & SF).
  destruct (Tt w) as (a & E). unfold bind.
  destruct (t w) as [[a' | e] w1]; cbn [fst snd] in *; [| discriminate].
  destruct (Ak a' w1) as (G & HG & QG & SG). exists (fun c => G (F c)).
  split; [intros c; now rewrite HG, HF |]. split; [now apply Hcomp |].
  rewrite SG, SF. unfold withConversations.
  cbn [State.conversations State.currentConversationId State.isLoading State.user
       State.isAuthenticated State.initialized].
  now rewrite updateWhere_twice.
Qed.

Lemma amends_try_catch (P Q R : (Conversation.t -> Conversation.t) -> Prop) {A}
  (t : Task A) (h : Exn -> Task A) :
  (forall F, P F -> R F) ->
  (forall F G, P F -> Q G -> R (fun c => G (F c))) ->
  amends P cid t -> (forall e, amends Q cid (h e)) -> amends R cid (try_catch t h).
Proof.
  intros HPR Hcomp At Ah w. destruct (At w) as (F & HF & PF & SF). unfold try_catch.
  destruct (t w) as [[a | e] w1]; cbn [snd] in *.
  - exists F. auto.
  - destruct (Ah e w1) as (G & HG & QG & SG). exists (fun c => G (F c)).
    split; [intros c; now rewrite HG, HF |]. split; [now apply Hcomp |].
    rewrite SG, SF. unfold withConversations.
    cbn [State.conversations State.currentConversationId State.isLoading State.user
         State.isAuthenticated State.initialized].
    now rewrite updateWhere_twice.
Qed.

(** A sequence after a task that returns and leaves the state alone. *)
Lemma amends_after (Q : (Conversation.t -> Conversation.t) -> Prop) {A B}
  (t : Task A) (k : A -> Task B) :
  passes state t -> (forall a, amends Q cid (k a)) -> amends Q cid (bind t k).
Proof.
  intros Pt Ak w. destruct (Pt w) as (a & w1 & E & S1).
  rewrite (bind_Returned _ _ _ _ _ E). destruct (Ak a w1) as (G & HG & QG & SG).
  exists G. split; [exact HG |]. split; [exact QG |]. now rewrite SG, S1.
Qed.

(** A sequence after [new Date()]: the date is a time. *)
Lemma amends_newDate (Q : (Conversation.t -> Conversation.t) -> Prop) {B}
  (env : Env) (k : Date -> Task B) :
  (forall ms, amends Q cid (k (DateAt ms))) -> amends Q cid (bind (newDate env) k).
Proof.
  intros Ak w. unfold bind, newDate, consult.
  destruct (Ak (Date_now env (tick w))
              {| state := state w; trace := trace w; tick := S (tick w) |})
    as (G & HG & QG & SG).
  exists G. split; [exact HG |]. split; [exact QG |]. exact SG.
Qed.

Lemma adds_bind {A B} (t : Task A) (k : A -> Task B) :
  amends adds cid t -> (forall a, amends adds cid (k a)) -> amends adds cid (bind t k).
Proof. apply amends_bind; [trivial | apply adds_compose]. Qed.

Lemma adds_try_catch {A} (t : Task A) (h : Exn -> Task A) :
  amends adds cid t -> (forall e, amends adds cid (h e)) ->
  amends adds cid (try_catch t h).
Proof. apply amends_try_catch; [trivial | apply adds_compose]. Qed.

Lemma adds_keeps {A} (t : Task A) : keeps state t -> amends adds cid t.
Proof. apply amends_keeps, adds_same. Qed.

End Amends.

(** Solves [amends adds cid t] for a task [t] built from sequences,
    handlers, calls of the environment and updates of the conversations
    with id [cid]. *)
Ltac amend :=
  lazymatch goal with
  | |- amends adds _ (bind (newDate _) _) => apply amends_newDate; intros ?; amend
  | |- amends adds _ (bind _ _) => apply adds_bind; [amend | intros ?; amend]
  | |- amends adds _ (try_catch _ _) => apply adds_try_catch; [amend | intros ?; amend]
  | |- amends adds _ (setConversations (updateWhere _ (withMessage _ _))) =>
      apply amends_setConversations, adds_withMessage
  | |- amends adds _ (setConversations (updateWhere _ (withMessagesMapped _ _ _))) =>
      apply amends_setConversations, adds_withMessagesMapped; reflexivity
  | |- amends adds _ (ret _) => apply adds_keeps, passes_keeps, passes_ret
  | |- amends adds _ (throw _) => apply adds_keeps, keeps_throw
  | |- amends adds _ (lift _) => apply adds_keeps, keeps_lift
  | |- amends adds _ (generateId _) => apply adds_keeps, passes_keeps, passes_state_generateId
  | |- amends adds _ (newDate _) => apply adds_keeps, passes_keeps, passes_state_newDate
  | |- amends adds _ (consult _) => apply adds_keeps, passes_keeps, passes_consult, state_tick
  | |- amends adds _ (emit _) => apply adds_keeps, passes_keeps, passes_emit, state_emit
  | |- amends adds _ (toast _ _ _) => apply adds_keeps, passes_keeps, passes_state_toast
  | |- amends adds _ (await _ _) => apply adds_keeps, keeps_state_await
  | |- amends adds _ (match ?x with _ => _ end) => destruct x; amend
  | |- amends adds _ (if ?x then _ else _) => destruct x; amend
  end.

Section SendState.
Context `{Runtime}.
Variable env : Env.
Variable render : State.t.

(** The part of [addMessage] and of [updateConversationTitle] that talks
    to the store. *)
Lemma passes_state_addMessage_remote (cid : string) (message : Message.t) :
  passes state
    (match signedIn render with
     | Some u =>
         try_catch
           (dbMessageData <- lift (createDbMessage message cid (User.id u)) ;;
            await (DbMessagesCreate dbMessageData)
              (fun t => db_messages_create env t dbMessageData))
           (fun _ =>
              toast "Warning"
                "Failed to save message to database. Your conversation may not persist."
                "destructive")
     | None => ret tt
     end)%task.
Proof.
  destruct (signedIn render); [| apply passes_ret].
  apply passes_try_catch.
  - apply keeps_bind; [apply keeps_lift | intros data; apply keeps_state_await].
  - intros _. apply passes_state_toast.
Qed.

Lemma passes_state_title_remote (cid title : string) :
  passes state
    (match signedIn render with
     | Some _ =>
         try_catch
           (await (DbConversationsUpdate cid title)
              (fun t => db_conversations_update env t cid title))
           (fun _ => ret tt)
     | None => ret tt
     end).
Proof.
  destruct (signedIn render); [| apply passes_ret].
  apply passes_try_catch; [apply keeps_state_await | intros _; apply passes_ret].
Qed.

Lemma total_addMessage (cid : string) (message : Message.t) :
  total (addMessage env render cid message).
Proof.
  unfold addMessage. apply total_bind.
  - apply (passes_total state), passes_state_addMessage_remote.
  - intros _. apply total_bind; [apply total_consult | intros now; apply total_modify].
Qed.

Lemma sends_addMessage (cid : string) (message : Message.t) :
  amends sends cid (addMessage env render cid message).
Proof.
  unfold addMessage.
  apply amends_after; [apply passes_state_addMessage_remote | intros _].
  apply amends_newDate. intros ms. apply amends_setConversations, sends_withMessage.
Qed.

Lemma entitles_updateConversationTitle (cid firstMessage : string) :
  amends (entitles (titleFrom firstMessage)) cid
    (updateConversationTitle env render cid firstMessage).
Proof.
  unfold updateConversationTitle.
  apply amends_after; [apply passes_state_title_remote | intros _].
  apply amends_newDate. intros ms. apply amends_setConversations, entitles_withTitle.
Qed.

Lemma adds_onChunks (cid mid : string) (chunks : list string) (streamingText : string) :
  amends adds cid (onChunks env cid mid streamingText chunks).
Proof.
  revert streamingText. induction chunks as [| chunk rest IH]; intros streamingText.
  - cbn [onChunks]. amend.
  - cbn [onChunks]. cbv zeta.
    apply amends_newDate. intros ms.
    apply adds_bind; [amend | intros _]. apply IH.
Qed.

Lemma adds_streamText (cid mid : string) (messages : list AiMessage.t) :
  amends adds cid (streamText env cid mid messages).
Proof.
  unfold streamText.
  apply adds_bind; [amend | intros _].
  apply adds_bind; [amend | intros answer].
  apply adds_bind; [apply adds_onChunks | intros streamingText]. amend.
Qed.

(** The rest of the [try] of [sendMessage] after the title. *)
Lemma adds_sendMessage_rest (content cid : string) (conversation : Conversation.t)
  (rest : Task unit) :
  rest
  = (assistantMessageId <- generateId env ;;
     assistantTimestamp <- newDate env ;;
     let assistantMessage :=
       {| Message.id := assistantMessageId;
          Message.type := assistant;
          Message.content := "";
          Message.timestamp := assistantTimestamp;
          Message.isLoading := Some true;
          Message.sources := None |} in
     now <- newDate env ;;
     setConversations (updateWhere cid (withMessage assistantMessage now)) ;;
     streamed <- streamText env cid assistantMessageId
                   (messagesForAI conversation content) ;;
     let streamingText := fst streamed in
     let sources := match snd streamed with Some l => l | None => [] end in
     now <- newDate env ;;
     setConversations
       (updateWhere cid
          (withMessagesMapped assistantMessageId (finalized streamingText sources) now)) ;;
     match signedIn render with
     | Some u =>
         try_catch
           (finalTimestamp <- newDate env ;;
            let finalAssistantMessage :=
              {| Message.id := assistantMessageId;
                 Message.type := assistant;
                 Message.content := streamingText;
                 Message.timestamp := finalTimestamp;
                 Message.isLoading := None;
                 Message.sources :=
                   if (0 <? List.length sources)%nat then Some (strings sources) else None |} in
            dbMessageData <- lift (createDbMessage finalAssistantMessage cid (User.id u)) ;;
            await (DbMessagesCreate dbMessageData)
              (fun t => db_messages_create env t dbMessageData))
           (fun _ => toast "Warning" "Failed to save response to database." "destructive")
     | None => ret tt
     end)%task ->
  amends adds cid rest.
Proof.
  intros ->.
  apply adds_bind; [amend | intros assistantMessageId].
  apply adds_bind; [amend | intros assistantTimestamp]. cbv zeta.
  apply amends_newDate. intros ms.
  apply adds_bind; [amend | intros _].
  apply adds_bind; [apply adds_streamText | intros streamed].
  amend.
Qed.

(** The [try] of [sendMessage] adds messages to the conversations with its
    id and stamps them, and names them when the conversation it was given
    is empty. *)
Lemma sendMessage_try_amends (content cid : string) (conversation : Conversation.t) :
  amends
    (if (List.length (Conversation.messages conversation) =? 0)%nat
     then entitles (titleFrom content) else sends)
    cid (sendMessage_try env render content cid conversation).
Proof.
  unfold sendMessage_try.
  apply amends_after; [apply passes_state_generateId | intros userMessageId].
  apply amends_after; [apply passes_state_newDate | intros userTimestamp]. cbv zeta.
  destruct (List.length (Conversation.messages conversation) =? 0)%nat.
  - apply amends_then with (P := sends) (Q := entitles (titleFrom content));
      [apply total_addMessage | apply sends_then_entitles | apply sends_addMessage
       | intros _].
    apply amends_bind with (P := entitles (titleFrom content)) (Q := adds);
      [trivial | apply entitles_then_adds | apply entitles_updateConversationTitle
       | intros _].
    now apply (adds_sendMessage_rest content cid conversation).
  - apply amends_then with (P := sends) (Q := adds);
      [apply total_addMessage | apply sends_then_adds | apply sends_addMessage
       | intros _].
    apply adds_bind; [amend | intros _].
    now apply (adds_sendMessage_rest content cid conversation).
Qed.

(** The handler adds the error message to the conversations with its id. *)
Lemma adds_sendMessage_catch (cid : string) :
  amends adds cid (sendMessage_catch env (Some cid)).
Proof. unfold sendMessage_catch. amend. Qed.

Lemma total_sendMessage_catch (conversationId : option string) :
  total (sendMessage_catch env conversationId).
Proof.
  unfold sendMessage_catch. apply total_bind; [| intros _; apply total_emit].
  destruct conversationId as [cid |]; [| apply total_ret].
  destruct (falsy cid); [apply total_ret |].
  apply total_bind; [apply total_consult | intros id].
  apply total_bind; [apply total_consult | intros ts].
  apply total_bind; [apply total_consult | intros now]. apply total_modify.
Qed.

(** The [try] with its handler. *)
Lemma sendMessage_guarded_amends (content cid : string) (conversation : Conversation.t) :
  amends
    (if (List.length (Conversation.messages conversation) =? 0)%nat
     then entitles (titleFrom content) else sends)
    cid
    (try_catch (sendMessage_try env render content cid conversation)
       (fun _ => sendMessage_catch env (Some cid))).
Proof.
  pose proof (sendMessage_try_amends content cid conversation) as T.
  destruct (List.length (Conversation.messages conversation) =? 0)%nat.
  - apply amends_try_catch with (P := entitles (titleFrom content)) (Q := adds);
      [trivial | apply entitles_then_adds | exact T | intros _; apply adds_sendMessage_catch].
  - apply amends_try_catch with (P := sends) (Q := adds);
      [trivial | apply sends_then_adds | exact T | intros _; apply adds_sendMessage_catch].
Qed.

Lemma total_sendMessage_fresh (content : string) :
  total (sendMessage_fresh env render content).
Proof.
  unfold sendMessage_fresh. apply total_bind; [apply total_attempt | intros created].
  destruct created as [newConversation | e]; [| apply total_sendMessage_catch].
  apply total_try_catch. intros _. apply total_sendMessage_catch.
Qed.

(** [sendMessage] never throws. *)
Lemma total_sendMessage (content : string) : total (sendMessage env render content).
Proof.
  unfold sendMessage. destruct (falsy (trim content)); [apply total_ret |].
  apply total_bind; [apply total_modify | intros _]. cbv zeta.
  apply total_finally; [| apply total_modify].
  destruct (State.currentConversationId render) as [cid |];
    [| apply total_sendMessage_fresh].
  destruct (findConversation render (Some cid)); [| apply total_sendMessage_fresh].
  destruct (falsy cid); [apply total_sendMessage_fresh |].
  apply total_try_catch. intros _. apply total_sendMessage_catch.
Qed.

(** The state after [sendMessage] on the conversation that the render
    selects. *)
Lemma sendMessage_selected_state (content cid : string) (found : Conversation.t)
  (w : World) :
  trim content <> "" ->
  State.currentConversationId render = Some cid ->
  cid <> "" ->
  findConversation render (Some cid) = Some found ->
  exists F,
    keepsId F
    /\ (if (List.length (Conversation.messages found) =? 0)%nat
        then entitles (titleFrom content) else sends) F
    /\ state (snd (sendMessage env render content w))
       = {| State.conversations := updateWhere cid F (State.conversations (state w));
            State.currentConversationId := State.currentConversationId (state w);
            State.isLoading := false;
            State.user := State.user (state w);
            State.isAuthenticated := State.isAuthenticated (state w);
            State.initialized := State.initialized (state w) |}.
Proof.
  intros Hcontent Hcur Hcid Hfind. unfold sendMessage.
  apply falsy_false in Hcontent, Hcid. rewrite Hcontent, Hcur, Hfind, Hcid.
  cbv zeta. unfold bind at 1. cbn [setIsLoading modify].
  set (w1 := {| state := _; trace := trace w; tick := tick w |}).
  destruct (sendMessage_guarded_amends content cid found w1) as (F & HF & PF & SF).
  exists F. split; [exact HF |]. split; [exact PF |].
  unfold finally.
  destruct (try_catch _ _ w1) as [r w2]. cbn [snd] in SF.
  cbn [setIsLoading modify snd state]. rewrite SF. reflexivity.
Qed.

(** The state after [sendMessage_fresh]: the new conversation is first
    and selected, and the message went into it. *)
Lemma sendMessage_fresh_state (content : string) (w : World) :
  exists nc w1 F,
    createNewConversation env render w = (Returned nc, w1)
    /\ Conversation.messages nc = []
    /\ keepsId F
    /\ entitles (titleFrom content) F
    /\ state (snd (sendMessage_fresh env render content w))
       = {| State.conversations :=
              updateWhere (Conversation.id nc) F (nc :: State.conversations (state w));
            State.currentConversationId := Some (Conversation.id nc);
            State.isLoading := State.isLoading (state w);
            State.user := State.user (state w);
            State.isAuthenticated := State.isAuthenticated (state w);
            State.initialized := State.initialized (state w) |}.
Proof.
  destruct (passes_state_createNewConversation env render w) as (nc & w1 & E & S1).
  assert (Hempty : Conversation.messages nc = []).
  { pose proof (createNewConversation_runs env render w) as C. cbv zeta in C.
    rewrite E in C.
    destruct (signedIn render); [| now injection C as -> _].
    cbv zeta in C. destruct (db_conversations_create env _ _); now injection C as -> _. }
  unfold sendMessage_fresh.
  assert (Hcreated :
            attempt
              (newConversation <- createNewConversation env render ;;
               setConversations (fun prev => newConversation :: prev) ;;
               ret newConversation) w
            = (Returned (Returned nc),
               {| state := withConversations (nc :: State.conversations (state w)) (state w);
                  trace := trace w1; tick := tick w1 |})).
  { unfold attempt. rewrite (bind_Returned _ _ _ _ _ E).
    unfold bind, setConversations, modify, ret. now rewrite S1. }
  rewrite (bind_Returned _ _ _ _ _ Hcreated). cbv zeta.
  set (w2 := {| state := _; trace := trace w1; tick := tick w1 |}).
  set (cid := Conversation.id nc).
  pose proof (sendMessage_guarded_amends content cid nc) as G.
  rewrite Hempty in G. cbn [List.length Nat.eqb] in G.
  set (w3 := snd (setCurrentConversationId (Some cid) w2)).
  assert (Hshift :
            try_catch
              (setCurrentConversationId (Some cid) ;;
               sendMessage_try env render content cid nc)
              (fun _ => sendMessage_catch env (Some cid)) w2
            = try_catch (sendMessage_try env render content cid nc)
                (fun _ => sendMessage_catch env (Some cid)) w3) by reflexivity.
  rewrite Hshift.
  destruct (G w3) as (F & HF & PF & SF).
  exists nc, w1, F. split; [exact E |]. split; [exact Hempty |].
  split; [exact HF |]. split; [exact PF |].
  rewrite SF. reflexivity.
Qed.

End SendState.

(** What an update of the conversations with one id does to a list. *)
Lemma updateWhere_sentInto (cid : string) (F : Conversation.t -> Conversation.t)
  (l : list Conversation.t) :
  keepsId F -> growsOnly F -> sentInto cid l (updateWhere cid F l).
Proof.
  intros HF GF. unfold sentInto, updateWhere.
  induction l as [| c l IH]; [constructor |].
  cbn [map]. constructor; [| exact IH].
  destruct (Conversation.id c =? cid)%string eqn:E.
  - destruct (GF c) as [Hc Hm]. repeat split; [apply HF | exact Hc | exact Hm |].
    apply String.eqb_eq in E. congruence.
  - repeat split. apply continues_refl.
Qed.

(** ** Sending: the state afterwards *)

Lemma selected_Some (s : State.t) (found : Conversation.t) :
  selected s = Some found ->
  State.currentConversationId s = Some (Conversation.id found)
  /\ Conversation.id found <> ""
  /\ conversationOf s (Conversation.id found) = Some found.
Proof.
  unfold selected. destruct (State.currentConversationId s) as [cid |]; [| discriminate].
  destruct (falsy cid) eqn:Hcid; [discriminate |]. intros Hfind.
  assert (E : Conversation.id found = cid).
  { unfold conversationOf in Hfind. apply find_some in Hfind.
    destruct Hfind as [_ E]. now apply String.eqb_eq in E. }
  subst cid. split; [reflexivity |]. split; [now apply falsy_false | exact Hfind].
Qed.

Lemma selected_selects (s : State.t) :
  selectsConversation s = match selected s with Some _ => true | None => false end.
Proof.
  unfold selectsConversation, selected.
  destruct (State.currentConversationId s) as [cid |]; [| reflexivity].
  destruct (conversationOf s cid), (falsy cid); reflexivity.
Qed.

Section SendTheorems.
Context `{Runtime}.
Variable env : Env.

(** Without a selected conversation [sendMessage] takes the path that
    creates one. *)
Lemma sendMessage_fresh_path (render : State.t) (content : string) (w : World) :
  trim content <> "" ->
  selected render = None ->
  sendMessage env render content w
  = (setIsLoading true ;;
     finally (sendMessage_fresh env render content) (setIsLoading false))%task w.
Proof.
  intros Hcontent Hsel. unfold sendMessage, selected in *.
  apply falsy_false in Hcontent. rewrite Hcontent.
  destruct (State.currentConversationId render) as [cid |]; [| reflexivity].
  change (findConversation render (Some cid)) with (conversationOf render cid).
  destruct (falsy cid); [now destruct (conversationOf render cid) |].
  now rewrite Hsel.
Qed.

Lemma createNewConversation_fst (render : State.t) (w1 w : World) :
  tick w1 = tick w ->
  fst (createNewConversation env render w1) = fst (createNewConversation env render w).
Proof.
  intros Ht.
  pose proof (createNewConversation_runs env render w1) as E1.
  pose proof (createNewConversation_runs env render w) as E. cbv zeta in E1, E.
  rewrite E1, E, Ht. clear E1 E. destruct (signedIn render); [| reflexivity].
  cbv zeta. destruct (db_conversations_create env _ _); reflexivity.
Qed.

(** The state after [sendMessage] without a selected conversation. *)
Lemma sendMessage_unselected_state (render : State.t) (content : string) (w : World) :
  trim content <> "" ->
  selected render = None ->
  exists nc F,
    fst (createNewConversation env render w) = Returned nc
    /\ Conversation.messages nc = []
    /\ keepsId F
    /\ entitles (titleFrom content) F
    /\ state (snd (sendMessage env render content w))
       = {| State.conversations :=
              updateWhere (Conversation.id nc) F (nc :: State.conversations (state w));
            State.currentConversationId := Some (Conversation.id nc);
            State.isLoading := false;
            State.user := State.user (state w);
            State.isAuthenticated := State.isAuthenticated (state w);
            State.initialized := State.initialized (state w) |}.
Proof.
  intros Hcontent Hsel. rewrite (sendMessage_fresh_path render content w Hcontent Hsel).
  unfold bind at 1. cbn [setIsLoading modify].
  set (w1 := {| state := _; trace := trace w; tick := tick w |}).
  destruct (sendMessage_fresh_state env render content w1)
    as (nc & w2 & F & E & Hempty & HF & PF & SF).
  exists nc, F. split.
  - rewrite <- (createNewConversation_fst render w1 w eq_refl). now rewrite E.
  - split; [exact Hempty |]. split; [exact HF |]. split; [exact PF |].
    unfold finally. destruct (sendMessage_fresh env render content w1) as [r w3].
    cbn [snd] in SF. cbn [setIsLoading modify snd state]. rewrite SF. reflexivity.
Qed.

End SendTheorems.

(** X8.  [sendMessage] into the conversation that the render selects, whatever
    the store and the generation do and however stale the render is: every
    conversation of the live list stays in its place with its id and
    creation date; those with another id are exactly as they were; the
    messages that the selected one had are all still there, in order,
    before the new ones.  The selection, the user and the other flags of
    the state are as before. *)
Theorem sendMessage_touches_only_the_selected_conversation :
  forall `{Runtime} (env : Env) (render : State.t) (content : string)
         (found : Conversation.t) (w : World),
    trim content <> "" ->
    selected render = Some found ->
    let s' := state (snd (sendMessage env render content w)) in
    sentInto (Conversation.id found) (State.conversations (state w))
      (State.conversations s')
    /\ session s' = session (state w).
Proof.
  intros R env render content found w Hcontent Hsel. cbv zeta.
  destruct (selected_Some render found Hsel) as (Hcur & Hcid & Hfind).
  destruct (sendMessage_selected_state env render content (Conversation.id found) found w
              Hcontent Hcur Hcid Hfind) as (F & HF & PF & SF).
  rewrite SF. cbn [State.conversations]. split; [| reflexivity].
  apply updateWhere_sentInto; [exact HF |].
  destruct (List.length (Conversation.messages found) =? 0)%nat; apply PF.
Qed.

Lemma sendMessage_touches_only_the_selected_conversation_witness :
  let s := Scenario.hook None [Scenario.newChat; Walkthrough.otherChat] in
  let s' := state (snd (@sendMessage Reference.runtime Scenario.brokenStream s "hi"
                          (Scenario.start s))) in
  sentInto "c1" [Scenario.newChat; Walkthrough.otherChat] (State.conversations s')
  /\ session s' = session s.
Proof.
  cbv zeta.
  apply (@sendMessage_touches_only_the_selected_conversation Reference.runtime
           Scenario.brokenStream
           (Scenario.hook None [Scenario.newChat; Walkthrough.otherChat]) "hi"
           Scenario.newChat
           (Scenario.start (Scenario.hook None [Scenario.newChat; Walkthrough.otherChat]))).
  - vm_compute. discriminate.
  - reflexivity.
Defined.

(** X9.  [sendMessage] from a render that selects no conversation (none, an
    unknown id or the empty id) opens one: the conversation that
    [createNewConversation] returns is put first and selected, it is named
    by the message, and the conversations that the list had follow it,
    those with another id as they were.  The user and the other flags of
    the state are as before. *)
Theorem sendMessage_without_selection_opens_a_conversation :
  forall `{Runtime} (env : Env) (render : State.t) (content : string) (w : World),
    trim content <> "" ->
    selected render = None ->
    let s' := state (snd (sendMessage env render content w)) in
    exists nc c' rest,
      fst (createNewConversation env render w) = Returned nc
      /\ State.conversations s' = c' :: rest
      /\ Conversation.id c' = Conversation.id nc
      /\ Conversation.createdAt c' = Conversation.createdAt nc
      /\ Conversation.title c' = titleFrom content
      /\ sentInto (Conversation.id nc) (State.conversations (state w)) rest
      /\ State.currentConversationId s' = Some (Conversation.id nc)
      /\ selectionValid s' = true
      /\ (State.user s', State.isAuthenticated s', State.initialized s')
         = (State.user (state w), State.isAuthenticated (state w),
            State.initialized (state w)).
Proof.
  intros R env render content w Hcontent Hsel. cbv zeta.
  destruct (sendMessage_unselected_state env render content w Hcontent Hsel)
    as (nc & F & E & Hempty & HF & (GF & TF & _) & SF).
  exists nc, (F nc), (updateWhere (Conversation.id nc) F (State.conversations (state w))).
  rewrite SF. cbn [State.conversations State.currentConversationId State.user
                   State.isAuthenticated State.initialized].
  split; [exact E |].
  split; [cbn [updateWhere map]; now rewrite String.eqb_refl |].
  split; [apply HF |]. split; [apply GF |]. split; [apply TF |].
  split; [now apply updateWhere_sentInto |]. split; [reflexivity |].
  split; [| reflexivity].
  unfold selectionValid, conversationOf.
  cbn [State.currentConversationId State.conversations updateWhere map find].
  rewrite String.eqb_refl. cbn [find]. now rewrite HF, String.eqb_refl.
Qed.

Lemma sendMessage_without_selection_opens_a_conversation_witness :
  let s := Walkthrough.unselected None [Walkthrough.otherChat] in
  let s' := state (snd (@sendMessage Reference.runtime Scenario.fair s "hi"
                          (Scenario.start s))) in
  exists c' rest,
    State.conversations s' = c' :: rest
    /\ Conversation.id c' = "id000"
    /\ Conversation.title c' = "hi"
    /\ sentInto "id000" [Walkthrough.otherChat] rest
    /\ State.currentConversationId s' = Some "id000".
Proof.
  cbv zeta.
  destruct (@sendMessage_without_selection_opens_a_conversation Reference.runtime
              Scenario.fair (Walkthrough.unselected None [Walkthrough.otherChat]) "hi"
              (Scenario.start (Walkthrough.unselected None [Walkthrough.otherChat])))
    as (nc & c' & rest & E & Hl & Hid & _ & Ht & Hrest & Hcur & _).
  - vm_compute. discriminate.
  - reflexivity.
  - injection E as <-. exists c', rest. now repeat split.
Defined.

(** X10.  [sendMessage] never throws, whatever the store and the generation do
    and whatever the render is; after a non-blank send the busy flag of
    the hook is cleared; the user and the sign-in and start-up flags are
    never touched. *)
Theorem sendMessage_never_throws_and_clears_the_busy_flag :
  forall `{Runtime} (env : Env) (render : State.t) (content : string) (w : World),
    let s' := state (snd (sendMessage env render content w)) in
    fst (sendMessage env render content w) = Returned tt
    /\ State.isLoading s'
       = (if falsy (trim content) then State.isLoading (state w) else false)
    /\ (State.user s', State.isAuthenticated s', State.initialized s')
       = (State.user (state w), State.isAuthenticated (state w),
          State.initialized (state w)).
Proof.
  intros R env render content w. cbv zeta. split.
  - destruct (total_sendMessage env render content w) as ([] & E). exact E.
  - destruct (falsy (trim content)) eqn:Hblank.
    + unfold sendMessage. rewrite Hblank. split; reflexivity.
    + apply falsy_false in Hblank.
      destruct (selected render) as [found |] eqn:Hsel.
      * destruct (selected_Some render found Hsel) as (Hcur & Hcid & Hfind).
        destruct (sendMessage_selected_state env render content (Conversation.id found)
                    found w Hblank Hcur Hcid Hfind) as (F & _ & _ & SF).
        rewrite SF. split; reflexivity.
      * destruct (sendMessage_unselected_state env render content w Hblank Hsel)
          as (nc & F & _ & _ & _ & _ & SF).
        rewrite SF. split; reflexivity.
Qed.

(** ** The selection under the operations *)

Section Selection.
Context `{Runtime}.
Variable env : Env.

Lemma startNewConversation_runs (w : World) :
  exists c w1,
    run env StartNewConversation w
    = (Returned tt,
       {| state :=
            {| State.conversations := c :: State.conversations (state w);
               State.currentConversationId := Some (Conversation.id c);
               State.isLoading := State.isLoading (state w);
               State.user := State.user (state w);
               State.isAuthenticated := State.isAuthenticated (state w);
               State.initialized := State.initialized (state w) |};
          trace := trace w1; tick := tick w1 |}).
Proof.
  destruct (passes_state_createNewConversation env (state w) w) as (c & w1 & E & S1).
  exists c, w1. unfold run, startNewConversation. rewrite (bind_Returned _ _ _ _ _ E).
  unfold bind, setConversations, setCurrentConversationId, modify.
  cbn [state trace tick]. now rewrite S1.
Qed.

Lemma selectionValid_perform (w : World) (op : Operation) :
  (forall id, op = SelectConversation id -> conversationOf (state w) id <> None) ->
  selectionValid (state w) = true ->
  selectionValid (state (perform env w op)) = true.
Proof.
  intros Hlisted Hvalid. unfold perform. destruct op as [| id | id | content].
  - destruct (startNewConversation_runs w) as (c & w1 & E). rewrite E.
    unfold selectionValid, conversationOf.
    cbn [snd state State.currentConversationId State.conversations find].
    now rewrite String.eqb_refl.
  - specialize (Hlisted id eq_refl). unfold selectionValid.
    cbn [run selectConversation setCurrentConversationId modify snd state
         State.currentConversationId].
    unfold conversationOf in *. cbn [State.conversations].
    destruct (find _ (State.conversations (state w))); [reflexivity | congruence].
  - cbn [run].
    destruct (deleteConversation_cases env (state w) id w) as (_ & [S1 | S1]);
      rewrite S1; [exact Hvalid | now apply selectionValid_removed].
  - cbn [run]. destruct (falsy (trim content)) eqn:Hblank.
    + unfold sendMessage. now rewrite Hblank.
    + apply falsy_false in Hblank.
      destruct (selected (state w)) as [found |] eqn:Hsel.
      * destruct (selected_Some (state w) found Hsel) as (Hcur & Hcid & Hfind).
        destruct (sendMessage_selected_state env (state w) content (Conversation.id found)
                    found w Hblank Hcur Hcid Hfind) as (F & HF & _ & SF).
        rewrite SF. unfold selectionValid, conversationOf in *.
        cbn [State.currentConversationId State.conversations]. rewrite Hcur.
        now rewrite find_updateWhere, Hfind.
      * destruct (sendMessage_unselected_state env (state w) content w Hblank Hsel)
          as (nc & F & _ & _ & HF & _ & SF).
        rewrite SF. unfold selectionValid, conversationOf.
        cbn [State.currentConversationId State.conversations updateWhere map find].
        rewrite String.eqb_refl. cbn [find]. now rewrite HF, String.eqb_refl.
Qed.

End Selection.

(** ** The generation requests of the operations *)

Lemma messagesForAI_fresh (conversation : Conversation.t) (content : string) :
  Conversation.messages conversation = [] ->
  messagesForAI conversation content
  = [ {| AiMessage.role := "user"; AiMessage.content := content |} ].
Proof. intros E. unfold messagesForAI. now rewrite E. Qed.

(** [messagesForAI] written out. *)
Lemma messagesForAI_written_out (conversation : Conversation.t) (content : string) :
  messagesForAI conversation content
  = map (fun m =>
           {| AiMessage.role :=
                match Message.type m with
                | user => "user"
                | assistant => "assistant"
                end;
              AiMessage.content := Message.content m |})
      (skipn (List.length (Conversation.messages conversation) - 20)
         (Conversation.messages conversation))
    ++ [ {| AiMessage.role := "user"; AiMessage.content := content |} ].
Proof.
  unfold messagesForAI, slice_last, MAX_CONTEXT_MESSAGES. f_equal.
  apply map_ext. intros m. unfold toAiMessage. now destruct (Message.type m).
Qed.

Lemma sendMessage_requests `{Runtime} (env : Env) (w : World) (content : string) :
  trim content <> "" ->
  requests (snd (sendMessage env (state w) content w))
  = requests w ++ [requestOf (state w) content].
Proof.
  intros Hcontent. unfold requests, requestOf.
  destruct (selected (state w)) as [found |] eqn:Hsel.
  - destruct (selected_Some (state w) found Hsel) as (Hcur & Hcid & Hfind).
    destruct (sendMessage_selected_runs env content (Conversation.id found) found w
                Hcontent Hcur Hcid Hfind) as (t & c & older & reply & Hreq & _).
    rewrite messagesForAI_written_out in Hreq. exact Hreq.
  - cbn [List.length Nat.sub skipn map app].
    rewrite (sendMessage_fresh_path env (state w) content w Hcontent Hsel).
    step (calm_setIsLoading true w) as [] w1 E1 V1.
    destruct (sendMessage_fresh_runs env (state w) content w1)
      as (cid & nc & t & c & older & reply & Hreq & Hempty & _).
    rewrite (messagesForAI_fresh nc content Hempty) in Hreq.
    rewrite <- (view_requests _ _ V1), <- Hreq.
    apply view_requests, view_finally, calm_quiet, calm_setIsLoading.
Qed.

(** X11.  Every operation of the hook issues exactly the generation requests
    one expects: a non-blank [sendMessage] issues one, and the others
    none, whatever the store answers and whether the generation succeeds.
    The request of a send is [requestOf]: the last twenty messages at most
    of the conversation that the render selects, in order, each as its
    role ([user] or [assistant]) and its content, followed by the new
    message as a user message; so it has at most twenty-one entries, and
    exactly one when the send opens a conversation. *)
Theorem each_operation_issues_its_generation_requests :
  forall `{Runtime} (env : Env) (w : World) (op : Operation),
    requests (perform env w op)
    = requests w
      ++ match op with
         | SendMessage content =>
             if falsy (trim content) then [] else [requestOf (state w) content]
         | _ => []
         end
    /\ forall content,
         List.length (requestOf (state w) content) <= 21
         /\ last (requestOf (state w) content) {| AiMessage.role := ""; AiMessage.content := "" |}
            = {| AiMessage.role := "user"; AiMessage.content := content |}
         /\ (selected (state w) = None -> List.length (requestOf (state w) content) = 1).
Proof.
  intros R env w op. split.
  - unfold perform. destruct op as [| id | id | content]; cbn [run].
    + rewrite app_nil_r. apply keeps_requests_startNewConversation.
    + now rewrite app_nil_r.
    + rewrite app_nil_r. apply keeps_requests_deleteConversation.
    + destruct (falsy (trim content)) eqn:Hblank.
      * unfold sendMessage. rewrite Hblank. cbn [snd ret]. now rewrite app_nil_r.
      * apply sendMessage_requests. now apply falsy_false.
  - intros content. unfold requestOf. cbv zeta.
    rewrite last_last, length_app, length_map, length_skipn. cbn [List.length].
    split; [lia | split; [reflexivity |]].
    intros ->. reflexivity.
Qed.

(** ** Start-up *)

Lemma ask_Returned {A} (answer : nat -> Outcome A) (w : World) (a : A) :
  answer (tick w) = Returned a ->
  ask answer w = (Returned a, {| state := state w; trace := trace w; tick := S (tick w) |}).
Proof. intros E. unfold ask, bind, consult, lift. now rewrite E. Qed.

Lemma ask_Thrown {A} (answer : nat -> Outcome A) (w : World) (e : Exn) :
  answer (tick w) = Thrown e ->
  ask answer w = (Thrown e, {| state := state w; trace := trace w; tick := S (tick w) |}).
Proof. intros E. unfold ask, bind, consult, lift. now rewrite E. Qed.

Lemma Forall2_compose {A B C} (R : A -> B -> Prop) (S : B -> C -> Prop)
  (a : list A) (b : list B) (c : list C) :
  Forall2 R a b -> Forall2 S b c -> Forall2 (fun x z => exists y, R x y /\ S y z) a c.
Proof.
  intros Hab. revert c. induction Hab as [| x y a b Hxy Hab IH]; intros c Hbc.
  - inversion Hbc. constructor.
  - inversion Hbc as [| y' z b' c' Hyz Hbc' E1 E2]; subst.
    constructor; [now exists y | now apply IH].
Qed.

Lemma numberedFrom_Forall2 {A B} (R : A -> B -> Prop) (a : list A) (b : list B) (i : nat) :
  Forall2 R a b ->
  Forall2 (fun x y => fst x = fst y /\ R (snd x) (snd y))
    (numberedFrom i a) (numberedFrom i b).
Proof.
  intros Hab. revert i. induction Hab as [| x y a b Hxy Hab IH]; intros i.
  - constructor.
  - cbn [numberedFrom]. constructor; [now split | apply IH].
Qed.

Lemma clockReads_valid (records : list DbConversation.t) :
  clockReads records = List.length (filter validConversation records).
Proof.
  unfold clockReads. f_equal. apply filter_ext. intros r. unfold validConversation.
  now destruct (falsy (DbConversation.id r)), (falsy (DbConversation.title r)).
Qed.

Section StartupFacts.
Context `{Runtime}.
Variable env : Env.
Variable sdk : Startup.

(** A message read from a record is not loading. *)
Lemma transformDbMessage_settled (r : DbMessage.t) (m : Message.t) :
  transformDbMessage r = Some m -> Message.isLoading m = None.
Proof.
  unfold transformDbMessage.
  destruct (_ || _); [discriminate |]. destruct (_ && _); [discriminate |].
  destruct (parseDate (DbMessage.timestamp r)); [| discriminate].
  destruct (lengthAboveZero _); [| discriminate].
  now intros [= <-].
Qed.

Lemma transformDbMessages_settled (page : list DbMessage.t) :
  forallb (fun m => negb (loading m)) (transformDbMessages page) = true.
Proof.
  unfold transformDbMessages. rewrite transformDbMessages_from. cbn [app].
  induction page as [| r page IH]; [reflexivity |]. cbn [transformBatch].
  destruct (transformDbMessage r) as [m |] eqn:E; [| exact IH].
  cbn [forallb]. rewrite IH. unfold loading.
  now rewrite (transformDbMessage_settled r m E).
Qed.

(** The conversations read from a batch of records: one per valid record,
    in order, with its id and title and no messages. *)
Lemma transformDbConversations_valid (now : nat -> Date) (records : list DbConversation.t) :
  Forall2
    (fun r c =>
       Conversation.id c = DbConversation.id r
       /\ Conversation.title c = DbConversation.title r
       /\ Conversation.messages c = [])
    (filter validConversation records) (transformDbConversations now records).
Proof.
  unfold transformDbConversations.
  rewrite (transformDbConversations_from now records 0 []). cbn [app].
  eapply Forall2_impl; [| apply numbered_valid_Forall2].
  intros r c (j & E). unfold transformDbConversation in E.
  destruct (_ || _); [discriminate |]. now injection E as <-.
Qed.

(** What the loop of the start-up makes of a conversation: it keeps it and
    gives it the messages of its page, or none. *)
Lemma loadMessages_runs (convo : Conversation.t) (w : World) :
  exists messages w',
    loadMessages sdk convo w = (Returned (withMessages messages convo), w')
    /\ state w' = state w
    /\ requests w' = requests w
    /\ tick w' = S (tick w)
    /\ forallb (fun m => negb (loading m)) messages = true
    /\ messages
       = match db_messages_page sdk (tick w) (Conversation.id convo) with
         | Returned page => transformDbMessages page
         | Thrown _ => []
         end.
Proof.
  unfold loadMessages, try_catch.
  destruct (db_messages_page sdk (tick w) (Conversation.id convo)) as [page | e] eqn:E.
  - rewrite (bind_Returned _ _ _ _ _ (await_Returned _ _ w page E)). cbv zeta.
    eexists. eexists. split; [reflexivity |]. split; [reflexivity |].
    split; [now apply requests_emit |]. split; [reflexivity |].
    split; [apply transformDbMessages_settled | reflexivity].
  - rewrite (bind_Thrown _ _ _ _ _ (await_Thrown _ _ w e E)).
    eexists. eexists. split; [reflexivity |]. split; [reflexivity |].
    split; [now apply requests_emit |]. split; [reflexivity |]. split; reflexivity.
Qed.

Lemma loadEach_runs (convos : list Conversation.t) :
  forall (acc : list Conversation.t) (w : World),
    exists loaded w',
      loadEach sdk convos acc w = (Returned (acc ++ loaded), w')
      /\ state w' = state w
      /\ requests w' = requests w
      /\ Forall2
           (fun asked c =>
              let (t, convo) := asked : nat * Conversation.t in
              c = withMessages
                    match db_messages_page sdk t (Conversation.id convo) with
                    | Returned page => transformDbMessages page
                    | Thrown _ => []
                    end convo
              /\ forallb (fun m => negb (loading m)) (Conversation.messages c) = true)
           (numberedFrom (tick w) convos) loaded.
Proof.
  induction convos as [| convo rest IH]; intros acc w.
  - exists [], w. cbn [loadEach ret]. rewrite app_nil_r. now repeat split.
  - cbn [loadEach].
    destruct (loadMessages_runs convo w)
      as (messages & w1 & E1 & S1 & R1 & T1 & Hsettled & Hm).
    rewrite (bind_Returned _ _ _ _ _ E1).
    destruct (IH (acc ++ [withMessages messages convo]) w1)
      as (loaded & w2 & E2 & S2 & R2 & Hl).
    exists (withMessages messages convo :: loaded), w2.
    split; [now rewrite E2, <- app_assoc |].
    split; [congruence |]. split; [congruence |].
    cbn [numberedFrom]. rewrite T1 in Hl.
    constructor; [| exact Hl]. split; [now rewrite Hm | exact Hsettled].
Qed.

(** The start-up, case by case.  The pages of messages are asked for once
    the conversations are read, one consultation each, in the order of the
    list. *)
Lemma initializeChat_runs (w : World) :
  exists w',
    initializeChat env sdk w = (Returned tt, w')
    /\ requests w' = requests w
    /\ match auth_me sdk (tick w) with
       | Thrown _ =>
           w' = {| state :=
                     {| State.conversations := [];
                        State.currentConversationId := None;
                        State.isLoading := State.isLoading (state w);
                        State.user := None;
                        State.isAuthenticated := false;
                        State.initialized := true |};
                   trace := trace w; tick := S (tick w) |}
       | Returned authUser =>
           match db_conversations_list sdk (S (tick w)) (User.id authUser) with
           | Thrown _ =>
               w' = {| state :=
                         {| State.conversations := [];
                            State.currentConversationId := None;
                            State.isLoading := State.isLoading (state w);
                            State.user := Some authUser;
                            State.isAuthenticated := true;
                            State.initialized := true |};
                       trace := trace w; tick := S (S (tick w)) |}
           | Returned records =>
               exists loaded,
                 state w'
                 = {| State.conversations := loaded;
                      State.currentConversationId :=
                        option_map Conversation.id (hd_error loaded);
                      State.isLoading := State.isLoading (state w);
                      State.user := Some authUser;
                      State.isAuthenticated := true;
                      State.initialized := true |}
                 /\ Forall2
                      (fun asked c =>
                         let (t, r) := asked : nat * DbConversation.t in
                         (Conversation.id c = DbConversation.id r
                          /\ Conversation.title c = DbConversation.title r
                          /\ Conversation.messages c
                             = match db_messages_page sdk t (DbConversation.id r) with
                               | Returned page => transformDbMessages page
                               | Thrown _ => []
                               end)
                         /\ forallb (fun m => negb (loading m)) (Conversation.messages c)
                            = true)
                      (numberedFrom
                         (S (S (tick w)) + List.length (filter validConversation records))
                         (filter validConversation records))
                      loaded
           end
       end.
Proof.
  unfold initializeChat, finally.
  destruct (auth_me sdk (tick w)) as [authUser | e] eqn:Hauth.
  - unfold try_catch at 1 2.
    rewrite (bind_Returned _ _ _ _ _ (ask_Returned _ w authUser Hauth)).
    unfold bind at 1 2. cbn [setUser setIsAuthenticated modify state trace tick].
    set (w1 := {| state := _; trace := trace w; tick := S (tick w) |}).
    unfold loadConversations, try_catch.
    destruct (db_conversations_list sdk (S (tick w)) (User.id authUser))
      as [records | e] eqn:Hlist.
    + rewrite (bind_Returned _ _ _ _ _ (ask_Returned _ w1 records Hlist)).
      unfold bind at 1. unfold transformingConversations at 1. cbn [state trace tick w1].
      rewrite clockReads_valid.
      set (w2 := {| state := _; trace := trace w; tick := _ |}).
      set (convos := transformDbConversations _ records).
      destruct (loadEach_runs convos [] w2) as (loaded & w3 & E3 & S3 & R3 & Hl).
      rewrite (bind_Returned _ _ _ _ _ E3). cbn [app].
      unfold bind, setConversations, setCurrentConversationId, setInitialized, modify.
      cbn [state trace tick]. rewrite S3.
      eexists. split; [reflexivity |]. split; [exact R3 |].
      exists loaded. split; [reflexivity |].
      eapply Forall2_impl;
        [| apply (Forall2_compose _ _ _ _ _
                    (numberedFrom_Forall2 _ _ _ (tick w2)
                       (transformDbConversations_valid _ records)) Hl)].
      intros [t r] c ([t' convo] & (Ht & Hid & Htitle & _) & -> & Hsettled).
      cbn [fst snd] in Ht, Hid, Htitle. subst t'.
      cbn [withMessages Conversation.id Conversation.title Conversation.messages] in *.
      rewrite Hid in Hsettled |- *. now repeat split.
    + rewrite (bind_Thrown _ _ _ _ _ (ask_Thrown _ w1 e Hlist)).
      eexists. split; [reflexivity |]. split; reflexivity.
  - unfold try_catch at 1 2.
    rewrite (bind_Thrown _ _ _ _ _ (ask_Thrown _ w e Hauth)).
    eexists. split; [reflexivity |]. split; reflexivity.
Qed.

End StartupFacts.

Lemma selectionValid_head (s : State.t) :
  State.currentConversationId s
  = option_map Conversation.id (hd_error (State.conversations s)) ->
  selectionValid s = true.
Proof.
  intros E. unfold selectionValid, conversationOf. rewrite E.
  destruct (State.conversations s) as [| c l]; [reflexivity |].
  cbn [hd_error option_map find]. now rewrite String.eqb_refl.
Qed.

Lemma settled_loaded {R} (P : nat -> R -> Conversation.t -> Prop)
  (records : list (nat * R)) (loaded : list Conversation.t) :
  Forall2
    (fun asked c =>
       let (t, r) := asked : nat * R in
       P t r c /\ forallb (fun m => negb (loading m)) (Conversation.messages c) = true)
    records loaded ->
  forallb (fun c => forallb (fun m => negb (loading m)) (Conversation.messages c)) loaded
  = true.
Proof.
  induction 1 as [| [t r] c records loaded [_ Hm] _ IH]; [reflexivity |].
  cbn [forallb]. now rewrite Hm, IH.
Qed.

(** X16.  The start-up effect never throws, whatever the SDK answers.  When the
    render that created it is initialized it does nothing at all.
    Otherwise it ends started: [initialized] is set, the user is signed in
    exactly when [blink.auth.me] answered, the selection is empty or of a
    listed conversation, no message is shown as loading, the busy flag is
    untouched, and no generation was requested. *)
Theorem startup_never_fails_and_leaves_a_sound_state :
  forall `{Runtime} (env : Env) (sdk : Startup) (render : State.t) (w : World),
    let w' := snd (initializeEffect env sdk render w) in
    fst (initializeEffect env sdk render w) = Returned tt
    /\ (if State.initialized render then w' = w
        else State.initialized (state w') = true
             /\ (State.user (state w'), State.isAuthenticated (state w'))
                = match auth_me sdk (tick w) with
                  | Returned authUser => (Some authUser, true)
                  | Thrown _ => (None, false)
                  end
             /\ selectionValid (state w') = true
             /\ settled (state w') = true
             /\ State.isLoading (state w') = State.isLoading (state w)
             /\ requests w' = requests w).
Proof.
  intros R env sdk render w. cbv zeta. unfold initializeEffect.
  destruct (State.initialized render); [split; reflexivity |].
  destruct (initializeChat_runs env sdk w) as (w' & E & Hreq & Hcase).
  rewrite E. cbn [fst snd]. split; [reflexivity |].
  destruct (auth_me sdk (tick w)) as [authUser | e].
  - destruct (db_conversations_list sdk (S (tick w)) (User.id authUser)) as [records | e].
    + destruct Hcase as (loaded & -> & Hl).
      cbn [State.initialized State.user State.isAuthenticated State.isLoading].
      split; [reflexivity |]. split; [reflexivity |].
      split; [now apply selectionValid_head |].
      split; [| split; [reflexivity | exact Hreq]].
      unfold settled. cbn [State.conversations].
      exact (settled_loaded _ _ _ Hl).
    + subst w'. now repeat split.
  - subst w'. now repeat split.
Qed.

(** X17.  When the sign-in check fails the start-up asks nothing else and the
    hook starts signed out and empty; when the conversations cannot be
    listed it starts signed in and empty.  Either way no conversation is
    selected and no page of messages is asked for. *)
Theorem startup_without_session_or_list_starts_empty :
  forall `{Runtime} (env : Env) (sdk : Startup) (w : World),
    ((exists e, auth_me sdk (tick w) = Thrown e)
     \/ exists authUser e,
          auth_me sdk (tick w) = Returned authUser
          /\ db_conversations_list sdk (S (tick w)) (User.id authUser) = Thrown e) ->
    let w' := snd (initializeChat env sdk w) in
    State.conversations (state w') = []
    /\ State.currentConversationId (state w') = None
    /\ State.initialized (state w') = true
    /\ State.user (state w')
       = match auth_me sdk (tick w) with
         | Returned authUser => Some authUser
         | Thrown _ => None
         end
    /\ trace w' = trace w
    /\ tick w' = match auth_me sdk (tick w) with
                 | Returned _ => S (S (tick w))
                 | Thrown _ => S (tick w)
                 end.
Proof.
  intros R env sdk w Hcase. cbv zeta.
  destruct (initializeChat_runs env sdk w) as (w' & E & _ & Hrun).
  rewrite E. cbn [snd].
  destruct Hcase as [(e & Hauth) | (authUser & e & Hauth & Hlist)];
    rewrite Hauth in Hrun |- *; [| rewrite Hlist in Hrun]; subst w'; now repeat split.
Qed.

Lemma startup_without_session_or_list_starts_empty_witness :
  state (snd (@initializeChat Reference.runtime Scenario.fair Walkthrough.signedOut
                (Scenario.start initialState)))
  = {| State.conversations := [];
       State.currentConversationId := None;
       State.isLoading := false;
       State.user := None;
       State.isAuthenticated := false;
       State.initialized := true |}
  /\ State.user
       (state (snd (@initializeChat Reference.runtime Scenario.fair Walkthrough.unlistable
                      (Scenario.start initialState))))
     = Some Scenario.alice.
Proof.
  split.
  - destruct (@startup_without_session_or_list_starts_empty Reference.runtime
                Scenario.fair Walkthrough.signedOut (Scenario.start initialState))
      as (Hc & Hs & Hi & Hu & _).
    + left. now exists RemoteError.
    + vm_compute. reflexivity.
  - destruct (@startup_without_session_or_list_starts_empty Reference.runtime
                Scenario.fair Walkthrough.unlistable (Scenario.start initialState))
      as (_ & _ & _ & Hu & _).
    + right. exists Scenario.alice, RemoteError. split; reflexivity.
    + exact Hu.
Defined.

(** X18.  When the user is signed in and the conversations are listed, the
    start-up shows one conversation per valid record (id and title
    present), in the order of the list and with the id and title of its
    record, and selects the first.  The pages of messages are asked for
    once the records are read (which takes one reading of the clock for
    each valid record), one conversation after the other; each
    conversation is shown with the messages read from its page, and a
    conversation whose messages cannot be listed is shown without messages
    rather than dropped.  No message read from the store is shown as
    loading. *)
Theorem startup_shows_one_conversation_per_valid_record :
  forall `{Runtime} (env : Env) (sdk : Startup) (w : World)
         (authUser : User.t) (records : list DbConversation.t),
    auth_me sdk (tick w) = Returned authUser ->
    db_conversations_list sdk (S (tick w)) (User.id authUser) = Returned records ->
    let s' := state (snd (initializeChat env sdk w)) in
    Forall2
      (fun asked c =>
         let (t, r) := asked : nat * DbConversation.t in
         Conversation.id c = DbConversation.id r
         /\ Conversation.title c = DbConversation.title r
         /\ Conversation.messages c
            = match db_messages_page sdk t (DbConversation.id r) with
              | Returned page => transformDbMessages page
              | Thrown _ => []
              end
         /\ forallb (fun m => negb (loading m)) (Conversation.messages c) = true)
      (numberedFrom (S (S (tick w)) + List.length (filter validConversation records))
         (filter validConversation records))
      (State.conversations s')
    /\ State.currentConversationId s'
       = option_map DbConversation.id (hd_error (filter validConversation records))
    /\ State.user s' = Some authUser
    /\ State.isAuthenticated s' = true.
Proof.
  intros R env sdk w authUser records Hauth Hlist. cbv zeta.
  destruct (initializeChat_runs env sdk w) as (w' & E & _ & Hrun).
  rewrite E. cbn [snd]. rewrite Hauth, Hlist in Hrun.
  destruct Hrun as (loaded & -> & Hl).
  cbn [State.conversations State.currentConversationId State.user State.isAuthenticated].
  split; [| split; [| split; reflexivity]].
  - eapply Forall2_impl; [| exact Hl].
    intros [t r] c ((Hid & Htitle & Hm) & Hsettled). now repeat split.
  - destruct (filter validConversation records) as [| r valid];
      cbn [numberedFrom] in Hl; inversion Hl as [| [t r'] c ? ? ((Hid & _) & _)]; subst.
    + reflexivity.
    + cbn [hd_error option_map]. now rewrite Hid.
Qed.

Lemma startup_shows_one_conversation_per_valid_record_witness :
  let s' := state (snd (@initializeChat Reference.runtime Scenario.fair Walkthrough.store
                          (Scenario.start initialState))) in
  map Conversation.id (State.conversations s') = ["c1"; "c3"]
  /\ map (fun c => List.length (Conversation.messages c)) (State.conversations s') = [2; 0]
  /\ State.currentConversationId s' = Some "c1".
Proof.
  cbv zeta.
  destruct (@startup_shows_one_conversation_per_valid_record Reference.runtime
              Scenario.fair Walkthrough.store (Scenario.start initialState)
              Scenario.alice
              [Walkthrough.record "c1" "Trip plans"; Walkthrough.record "c2" "";
               Walkthrough.record "c3" "Recipes"] eq_refl eq_refl)
    as (_ & Hcur & _).
  split; [vm_compute; reflexivity |]. split; [vm_compute; reflexivity | exact Hcur].
Defined.

(** ** The input form *)

Lemma trimStart_cases (s : string) :
  trimStart s = ""
  \/ exists c rest, trimStart s = String c rest /\ is_whitespace c = false.
Proof.
  induction s as [| c rest IH]; [now left |]. cbn [trimStart].
  destruct (is_whitespace c) eqn:E; [exact IH | right; now exists c, rest].
Qed.

Lemma trimEnd_head (c : ascii) (rest : string) :
  is_whitespace c = false -> exists rest', trimEnd (String c rest) = String c rest'.
Proof.
  intros E. cbn [trimEnd]. rewrite E.
  destruct (trimEnd rest); [now exists "" | eexists; reflexivity].
Qed.

Lemma trimEnd_trimEnd (s : string) : trimEnd (trimEnd s) = trimEnd s.
Proof.
  induction s as [| c rest IH]; [reflexivity |]. cbn [trimEnd].
  destruct (trimEnd rest) as [| c' rest'] eqn:E.
  - destruct (is_whitespace c) eqn:Hc; [reflexivity |]. cbn [trimEnd]. now rewrite Hc.
  - change (trimEnd (String c (String c' rest')))
      with (match trimEnd (String c' rest') with
            | EmptyString => if is_whitespace c then EmptyString else String c EmptyString
            | rest'' => String c rest''
            end).
    now rewrite IH.
Qed.

(** Trimming twice is trimming once. *)
Lemma trim_trim (s : string) : trim (trim s) = trim s.
Proof.
  unfold trim. destruct (trimStart_cases s) as [E | (c & rest & E & Hc)]; rewrite E.
  - reflexivity.
  - destruct (trimEnd_head c rest Hc) as (rest' & E'). rewrite E'.
    cbn [trimStart]. rewrite Hc. rewrite <- E'. apply trimEnd_trimEnd.
Qed.

(** X19.  Submitting the form of the chat sends the trimmed text, once, exactly
    when the text is not blank and the hook is not busy: then one
    generation request is issued, [requestOf] for the trimmed text (the
    last twenty messages at most of the selected conversation as roles and
    contents, followed by the trimmed text as the user message), the
    input is cleared and the busy flag is clear again when the send is
    over.  Otherwise nothing happens and the input stays.  The Enter key
    submits; with Shift held, and for every other key, nothing is sent
    and the input is left to the text area. *)
Theorem submit_sends_the_trimmed_text_once :
  forall `{Runtime} (env : Env) (input : string) (w : World),
    let blocked := falsy (trim input) || State.isLoading (state w) in
    let w' := fst (ChatInput.submit env input w) in
    (if blocked
     then ChatInput.submit env input w = (w, input)
     else ChatInput.submit env input w = (perform env w (SendMessage (trim input)), "")
          /\ requests w' = requests w ++ [requestOf (state w) (trim input)]
          /\ last (requestOf (state w) (trim input))
               {| AiMessage.role := ""; AiMessage.content := "" |}
             = {| AiMessage.role := "user"; AiMessage.content := trim input |}
          /\ State.isLoading (state w') = false)
    /\ ChatInput.handleKeyDown "Enter" false input (State.isLoading (state w))
       = ChatInput.handleSubmit input (State.isLoading (state w))
    /\ (forall key shiftKey,
           key <> "Enter" \/ shiftKey = true ->
           ChatInput.handleKeyDown key shiftKey input (State.isLoading (state w))
           = (None, input)).
Proof.
  intros R env input w. cbv zeta. split; [| split; [reflexivity |]].
  2:{ intros key shiftKey [Hkey | ->]; unfold ChatInput.handleKeyDown.
      - apply String.eqb_neq in Hkey. now rewrite Hkey.
      - now rewrite andb_false_r. }
  unfold ChatInput.submit, ChatInput.handleSubmit.
  destruct (falsy (trim input)) eqn:Hblank; cbn [negb andb orb]; [reflexivity |].
  destruct (State.isLoading (state w)) eqn:Hbusy; cbn [negb]; [reflexivity |].
  cbn [fst]. split; [reflexivity |].
  assert (Hsent : trim (trim input) <> "").
  { rewrite trim_trim. now apply falsy_false. }
  split; [now apply sendMessage_requests |]. split.
  - unfold requestOf. cbv zeta. apply last_last.
  - destruct (selected (state w)) as [found |] eqn:Hsel.
    + destruct (selected_Some (state w) found Hsel) as (Hcur & Hcid & Hfind).
      destruct (sendMessage_selected_state env (state w) (trim input)
                  (Conversation.id found) found w Hsent Hcur Hcid Hfind)
        as (F & _ & _ & SF).
      now rewrite SF.
    + destruct (sendMessage_unselected_state env (state w) (trim input) w Hsent Hsel)
        as (nc & F & _ & _ & _ & _ & SF).
      now rewrite SF.
Qed.

(** ** The message view *)

(** X20.  A message read from a record is never treated as loading by its
    view: the conditions of the "Thinking..." row and of the cursor are
    false and that of the action bar is true.  It never holds the empty
    list as its sources.  Without sources it has no sources block; with an
    array for its sources, the block lists the elements of the array; with
    any other value (the sources column held the JSON text of a string,
    say), the view cannot be rendered: the call of [message.sources.map]
    throws. *)
Theorem a_stored_message_is_never_shown_loading :
  forall `{Runtime} (r : DbMessage.t) (m : Message.t),
    transformDbMessage r = Some m ->
    ChatMessage.showsThinking m = false
    /\ ChatMessage.showsCursor m = false
    /\ ChatMessage.showsActions m = true
    /\ Message.sources m <> Some (JArray [])
    /\ ChatMessage.shownSources m
       = match Message.sources m with
         | None => Returned None
         | Some (JArray items) => Returned (Some items)
         | Some _ => Thrown TypeError
         end.
Proof.
  intros R r m E.
  pose proof (transformDbMessage_settled r m E) as Hl.
  unfold ChatMessage.showsCursor, ChatMessage.showsThinking, ChatMessage.showsActions,
    ChatMessage.shownSources, ChatMessage.isLoading, hasSources.
  rewrite Hl. cbn [negb andb].
  split; [reflexivity |]. split; [reflexivity |]. split; [reflexivity |].
  destruct (transformDbMessage_sources r m E) as [-> | (v & -> & Hv)].
  - split; [discriminate | reflexivity].
  - split; [intros [= ->]; discriminate |].
    destruct v as [| b | n | s | items | members]; try discriminate.
    + destruct s; [discriminate | reflexivity].
    + cbn [truthy]. rewrite Hv. reflexivity.
    + cbn [truthy]. rewrite Hv. reflexivity.
Qed.

Lemma a_stored_message_is_never_shown_loading_witness :
  (exists m,
      @transformDbMessage Reference.runtime
        (Walkthrough.withSourcesColumn (Some "[]")) = Some m
      /\ ChatMessage.showsActions m = true
      /\ @ChatMessage.shownSources Reference.runtime m = Returned None)
  /\ (exists m,
         @transformDbMessage Reference.runtime
           (Walkthrough.withSourcesColumn (Some (Reference.quoted "abc"))) = Some m
         /\ Message.sources m = Some (JString "abc")
         /\ @ChatMessage.shownSources Reference.runtime m = Thrown TypeError).
Proof.
  split.
  - assert (E : @transformDbMessage Reference.runtime
                  (Walkthrough.withSourcesColumn (Some "[]"))
                = Some {| Message.id := "m1";
                          Message.type := assistant;
                          Message.content := "hello";
                          Message.timestamp := DateAt 1690000000000;
                          Message.isLoading := None;
                          Message.sources := None |})
      by (vm_compute; reflexivity).
    destruct (@a_stored_message_is_never_shown_loading Reference.runtime _ _ E)
      as (_ & _ & Ha & _ & Hs).
    eexists. split; [exact E |]. split; [exact Ha | exact Hs].
  - assert (E : @transformDbMessage Reference.runtime
                  (Walkthrough.withSourcesColumn (Some (Reference.quoted "abc")))
                = Some {| Message.id := "m1";
                          Message.type := assistant;
                          Message.content := "hello";
                          Message.timestamp := DateAt 1690000000000;
                          Message.isLoading := None;
                          Message.sources := Some (JString "abc") |})
      by (vm_compute; reflexivity).
    destruct (@a_stored_message_is_never_shown_loading Reference.runtime _ _ E)
      as (_ & _ & _ & _ & Hs).
    eexists. split; [exact E |]. split; [reflexivity | exact Hs].
Defined.

(** X21.  After a send from the latest render whose generation returns, the
    reply is shown finished: its content is the streamed text, its action
    bar is shown and neither indicator is; its sources block is shown
    exactly when the result carried at least one citation, and lists
    them.  The empty list that the hook stores for a result without
    citations is never shown as a block. *)
Theorem a_finished_reply_shows_its_citations :
  forall `{Runtime} (env : Env) (w : World) (content : string)
         (chunks : list string) (result : option (list string)),
    trim content <> "" ->
    (forall t messages, ai_streamText env t messages = (chunks, Returned result)) ->
    exists cid c older reply,
      conversationOf (state (perform env w (SendMessage content))) cid = Some c
      /\ Conversation.messages c = older ++ [reply]
      /\ Message.content reply = String.concat "" chunks
      /\ ChatMessage.showsThinking reply = false
      /\ ChatMessage.showsCursor reply = false
      /\ ChatMessage.showsActions reply = true
      /\ ChatMessage.shownSources reply
         = Returned
             match result with
             | Some (source :: sources) => Some (map JString (source :: sources))
             | _ => None
             end.
Proof.
  intros R env w content chunks result Hcontent Hstream.
  destruct (sendMessage_returned env content w chunks result Hcontent Hstream)
    as (cid & c & older & reply & Hc & Hm & _ & Hl & Hct & Hs).
  exists cid, c, older, reply.
  split; [exact Hc |]. split; [exact Hm |]. split; [exact Hct |].
  unfold ChatMessage.showsCursor, ChatMessage.showsThinking, ChatMessage.showsActions,
    ChatMessage.shownSources, ChatMessage.isLoading, hasSources.
  rewrite Hl, Hs. cbn [negb andb]. repeat split.
  now destruct result as [[| source sources] |].
Qed.

Lemma a_finished_reply_shows_its_citations_witness :
  let s := Scenario.hook None [Scenario.newChat] in
  exists cid c older reply,
    conversationOf
      (state (@perform Reference.runtime Walkthrough.cited (Scenario.start s)
                (SendMessage "What is Rocq?"))) cid = Some c
    /\ Conversation.messages c = older ++ [reply]
    /\ Message.content reply = "Hello"
    /\ @ChatMessage.shownSources Reference.runtime reply
       = Returned (Some [JString "https://rocq-prover.org"; JString "https://example.org"]).
Proof.
  cbv zeta.
  destruct (@a_finished_reply_shows_its_citations Reference.runtime Walkthrough.cited
              (Scenario.start (Scenario.hook None [Scenario.newChat])) "What is Rocq?"
              ["Hel"; "lo"]
              (Some ["https://rocq-prover.org"; "https://example.org"]))
    as (cid & c & older & reply & Hc & Hm & Hct & _ & _ & _ & Hs).
  - vm_compute. discriminate.
  - intros t messages. reflexivity.
  - exists cid, c, older, reply. now repeat split.
Defined.

(** ** The record transforms *)

(** X22.  What becomes of a valid message record hangs on its sources column
    alone.  An absent or empty column and text that is not JSON give a
    message without sources, and so do the texts of a boolean, of a number,
    of the empty string and of the empty array; the text of a non-empty
    array or of a non-empty string gives a message with that value as its
    sources; the text of an object gives what the comparison of its
    [length] with zero says; and the text of [null] costs the message, as
    does an object whose [length] cannot be compared.  The other fields of
    a message that is read are those of the record. *)
Theorem a_valid_record_is_read_by_its_sources_column :
  forall `{Runtime} (r : DbMessage.t),
    validMessage r = true ->
    let parsed :=
      match DbMessage.sources r with
      | Some text => if falsy text then None else JSON_parse text
      | None => None
      end in
    let read (sources : option Json) :=
      exists m,
        transformDbMessage r = Some m
        /\ Message.id m = DbMessage.id r
        /\ Message.content m = DbMessage.content r
        /\ MessageType_to_string (Message.type m) = DbMessage.type r
        /\ parseDate (DbMessage.timestamp r) = Some (Message.timestamp m)
        /\ Message.isLoading m = None
        /\ Message.sources m = sources in
    match parsed with
    | None | Some (JBool _) | Some (JNumber _) | Some (JString "") | Some (JArray []) =>
        read None
    | Some (JString (String c s)) => read (Some (JString (String c s)))
    | Some (JArray (item :: items)) => read (Some (JArray (item :: items)))
    | Some (JObject members) =>
        match member "length" members with
        | None => read None
        | Some length =>
            match greaterThanZero length with
            | Returned true => read (Some (JObject members))
            | Returned false => read None
            | Thrown _ => transformDbMessage r = None
            end
        end
    | Some JNull => transformDbMessage r = None
    end.
Proof.
  intros R r Hvalid. cbv zeta.
  destruct (transformDbMessage_valid r Hvalid) as (timestamp & Hts & E).
  assert (Htype : MessageType_to_string
                    (if DbMessage.type r =? "user" then user else assistant)
                  = DbMessage.type r).
  { unfold validMessage in Hvalid.
    apply andb_prop in Hvalid. destruct Hvalid as [Hvalid _].
    apply andb_prop in Hvalid. destruct Hvalid as [_ Hrole].
    destruct (DbMessage.type r =? "user")%string eqn:Huser.
    - apply String.eqb_eq in Huser. now rewrite Huser.
    - cbn [orb] in Hrole. apply String.eqb_eq in Hrole. now rewrite Hrole. }
  rewrite E. unfold parseJsonSafely.
  destruct (DbMessage.sources r) as [text |];
    [destruct (falsy text); [| destruct (JSON_parse text) as [v |]] | ].
  4:{ eexists. split; [reflexivity |]. now repeat split. }
  3:{ eexists. split; [reflexivity |]. now repeat split. }
  1:{ eexists. split; [reflexivity |]. now repeat split. }
  destruct v as [| b | n | s | items | members]; cbn [lengthAboveZero].
  - reflexivity.
  - eexists. split; [reflexivity |]. now repeat split.
  - eexists. split; [reflexivity |]. now repeat split.
  - destruct s; eexists; (split; [reflexivity |]); now repeat split.
  - destruct items; eexists; (split; [reflexivity |]); now repeat split.
  - destruct (member "length" members) as [length |].
    + destruct (greaterThanZero length) as [[|] | e]; [| | reflexivity];
        eexists; (split; [reflexivity |]); now repeat split.
    + eexists. split; [reflexivity |]. now repeat split.
Qed.

Lemma a_valid_record_is_read_by_its_sources_column_witness :
  (exists m,
      @transformDbMessage Reference.runtime
        (Walkthrough.withSourcesColumn (Some "oops, not JSON")) = Some m
      /\ Message.content m = "hello"
      /\ Message.sources m = None)
  /\ @transformDbMessage Reference.runtime (Walkthrough.withSourcesColumn (Some "null"))
     = None.
Proof.
  split.
  - destruct (@a_valid_record_is_read_by_its_sources_column Reference.runtime
                (Walkthrough.withSourcesColumn (Some "oops, not JSON")) eq_refl)
      as (m & E & _ & Hc & _ & _ & _ & Hs).
    exists m. split; [exact E |]. split; [exact Hc | exact Hs].
  - exact (@a_valid_record_is_read_by_its_sources_column Reference.runtime
             (Walkthrough.withSourcesColumn (Some "null")) eq_refl).
Defined.

Lemma numberedFrom_app {R : Type} (a b : list R) (i : nat) :
  numberedFrom i (a ++ b) = numberedFrom i a ++ numberedFrom (i + List.length a) b.
Proof.
  revert i. induction a as [| r a IH]; intros i; cbn [app numberedFrom List.length].
  - now rewrite Nat.add_0_r.
  - now rewrite IH, Nat.add_succ_r.
Qed.

Lemma transformBatch_shift {R D : Type} (transform : nat -> R -> option D)
  (l : list R) (k : nat) :
  forall j,
    transformBatch (fun ir => transform (fst ir) (snd ir)) (numberedFrom (k + j) l)
    = transformBatch (fun ir => transform (k + fst ir) (snd ir)) (numberedFrom j l).
Proof.
  induction l as [| r l IH]; intros j; [reflexivity |].
  cbn [numberedFrom transformBatch fst snd]. rewrite <- Nat.add_succ_r, IH.
  reflexivity.
Qed.

(** X23.  The batch transforms read a list page by page: the messages of two
    pages one after the other are the messages of the first page followed
    by those of the second, and likewise for conversations, whose clock
    goes on counting. *)
Theorem the_batch_transforms_read_page_by_page :
  forall `{Runtime} (now : nat -> Date)
         (messages1 messages2 : list DbMessage.t)
         (conversations1 conversations2 : list DbConversation.t),
    transformDbMessages (messages1 ++ messages2)
    = transformDbMessages messages1 ++ transformDbMessages messages2
    /\ transformDbConversations now (conversations1 ++ conversations2)
       = transformDbConversations now conversations1
         ++ transformDbConversations (fun i => now (List.length conversations1 + i))
              conversations2.
Proof.
  intros R now m1 m2 c1 c2. split.
  - unfold transformDbMessages. rewrite !transformDbMessages_from. cbn [app].
    apply transformBatch_app.
  - unfold transformDbConversations. rewrite !transformDbConversations_from. cbn [app].
    rewrite numberedFrom_app, transformBatch_app. f_equal.
    rewrite Nat.add_0_l.
    rewrite <- (Nat.add_0_r (List.length c1)) at 1.
    apply (transformBatch_shift (fun i r => transformDbConversation (now i) r)).
Qed.

(** ** The sidebar *)

(** X12.  After a non-blank [sendMessage] from the latest render the sidebar
    shows the conversation of the message as its active row.  The title
    of the row is [titleFrom] of the message when the send opened the
    conversation or found it empty, and the title it had otherwise: the
    first message names a conversation, later ones never rename it.  The
    date of the row is a time, so the row is labelled by
    [formatDistanceToNow], or "Unknown time" if that throws. *)
Theorem after_a_send_the_sidebar_shows_the_conversation :
  forall `{Runtime} (env : Env) (w : World) (content : string)
         (formatDistanceToNow : Date -> Outcome string),
    trim content <> "" ->
    let s' := state (perform env w (SendMessage content)) in
    exists c' ms,
      State.currentConversationId s' = Some (Conversation.id c')
      /\ conversationOf s' (Conversation.id c') = Some c'
      /\ Conversation.title c' = titleAfter (state w) content
      /\ Conversation.updatedAt c' = DateAt ms
      /\ In (titleAfter (state w) content,
             match formatDistanceToNow (DateAt ms) with
             | Returned text => text
             | Thrown _ => "Unknown time"
             end,
             true)
            (ConversationSidebar.rows formatDistanceToNow s').
Proof.
  intros R env w content fmt Hcontent. cbv zeta.
  assert (Hshape :
            exists c' ms,
              State.currentConversationId (state (perform env w (SendMessage content)))
              = Some (Conversation.id c')
              /\ conversationOf (state (perform env w (SendMessage content)))
                   (Conversation.id c') = Some c'
              /\ Conversation.title c' = titleAfter (state w) content
              /\ Conversation.updatedAt c' = DateAt ms).
  { unfold perform, run, titleAfter.
    destruct (selected (state w)) as [found |] eqn:Hsel.
    - destruct (selected_Some (state w) found Hsel) as (Hcur & Hcid & Hfind).
      destruct (sendMessage_selected_state env (state w) content (Conversation.id found)
                  found w Hcontent Hcur Hcid Hfind) as (F & HF & PF & SF).
      assert (Hstamp : stamps F)
        by (destruct (List.length (Conversation.messages found) =? 0)%nat; apply PF).
      destruct (Hstamp found) as (ms & Hms).
      exists (F found), ms. rewrite SF, HF.
      split; [exact Hcur |]. split; [| split; [| exact Hms]].
      + unfold conversationOf in *. cbn [State.conversations].
        now rewrite find_updateWhere, Hfind.
      + destruct (List.length (Conversation.messages found) =? 0)%nat; apply PF.
    - destruct (sendMessage_unselected_state env (state w) content w Hcontent Hsel)
        as (nc & F & E & Hempty & HF & (GF & TF & SF') & SF).
      destruct (SF' nc) as (ms & Hms).
      exists (F nc), ms. rewrite SF, HF.
      split; [reflexivity |]. split; [| split; [apply TF | exact Hms]].
      unfold conversationOf.
      cbn [State.conversations updateWhere map find].
      rewrite String.eqb_refl. cbn [find]. now rewrite HF, String.eqb_refl. }
  destruct Hshape as (c' & ms & Hcur & Hc & Ht & Hms).
  exists c', ms. repeat (split; [assumption |]).
  unfold ConversationSidebar.rows. apply in_map_iff. exists c'. split.
  - unfold ConversationSidebar.row, ConversationSidebar.formatTimeSafely.
    rewrite Ht, Hms, Hcur. cbn [isNaN_getTime id_is]. now rewrite String.eqb_refl.
  - unfold conversationOf in Hc. now apply find_some in Hc.
Qed.

Lemma after_a_send_the_sidebar_shows_the_conversation_witness :
  let s := Scenario.hook None [Scenario.longChat] in
  In ("Trip plans", "7 minutes ago", true)
     (ConversationSidebar.rows (fun _ => Returned "7 minutes ago")
        (state (@perform Reference.runtime Scenario.fair (Scenario.start s)
                  (SendMessage "One more question")))).
Proof.
  cbv zeta.
  destruct (@after_a_send_the_sidebar_shows_the_conversation Reference.runtime
              Scenario.fair (Scenario.start (Scenario.hook None [Scenario.longChat]))
              "One more question" (fun _ => Returned "7 minutes ago"))
    as (c' & ms & _ & _ & _ & _ & Hrow).
  - vm_compute. discriminate.
  - exact Hrow.
Defined.

(** ** The selection under the operations that the interface offers *)

Lemma offered_SelectConversation (s : State.t) (id : string) :
  offered s (SelectConversation id) = true -> conversationOf s id <> None.
Proof.
  unfold offered, ConversationSidebar.offers, conversationOf.
  cbn [existsb sameOperation orb].
  induction (State.conversations s) as [| c l IH]; [discriminate |].
  cbn [flat_map app existsb sameOperation orb find].
  rewrite String.eqb_sym.
  destruct (Conversation.id c =? id)%string; [discriminate | exact IH].
Qed.

(** X13.  The selection never dangles.  From a state whose selection is empty or
    of a listed conversation (such as the state after the start-up), every
    sequence of operations that the interface offers (New chat, a click
    on a row of the sidebar or on its trash button, a send) leads to such
    a state again, whatever the store and the generation answer. *)
Theorem the_selection_stays_in_the_list :
  forall `{Runtime} (env : Env) (ops : list Operation) (w : World),
    userDriven env w ops = true ->
    selectionValid (state w) = true ->
    selectionValid (state (performAll env ops w)) = true.
Proof.
  intros R env ops. induction ops as [| op ops IH]; intros w Hdriven Hvalid;
    [exact Hvalid |].
  cbn [userDriven] in Hdriven. apply andb_prop in Hdriven. destruct Hdriven as [Hop Hrest].
  cbn [performAll fold_left]. apply IH; [exact Hrest |].
  apply selectionValid_perform; [| exact Hvalid].
  intros id ->. now apply offered_SelectConversation.
Qed.

Lemma the_selection_stays_in_the_list_witness :
  let s := Scenario.hook (Some Scenario.alice) [Scenario.savedChat; Walkthrough.otherChat] in
  selectionValid
    (state (@performAll Reference.runtime Scenario.brokenStream
              [SendMessage "hi"; SelectConversation "c2"; DeleteConversation "c2";
               StartNewConversation; DeleteConversation "c1"]
              (Scenario.start s))) = true.
Proof.
  cbv zeta.
  apply (@the_selection_stays_in_the_list Reference.runtime Scenario.brokenStream).
  - vm_compute. reflexivity.
  - reflexivity.
Defined.

(** ** Signed out: nothing reaches the store *)

Lemma storeLog_emit (ev : Event) (w : World) :
  isStoreCall ev = false ->
  storeLog {| state := state w; trace := trace w ++ [ev]; tick := tick w |} = storeLog w.
Proof.
  intros Hev. unfold storeLog. cbn [trace]. rewrite filter_app. cbn [filter].
  rewrite Hev. apply app_nil_r.
Qed.

(** Solves [keeps storeLog t] for a task [t] that makes no call of the
    store. *)
Ltac offline :=
  lazymatch goal with
  | |- keeps storeLog (bind _ _) => apply keeps_bind; [offline | intros ?; offline]
  | |- keeps storeLog (try_catch _ _) => apply keeps_try_catch; [offline | intros ?; offline]
  | |- keeps storeLog (finally _ _) => apply keeps_finally; [offline | offline]
  | |- keeps storeLog (attempt _) => apply passes_keeps, passes_attempt; offline
  | |- keeps storeLog (ret _) => apply passes_keeps, passes_ret
  | |- keeps storeLog (throw _) => apply keeps_throw
  | |- keeps storeLog (lift _) => apply keeps_lift
  | |- keeps storeLog (generateId _) => apply passes_keeps, passes_consult; reflexivity
  | |- keeps storeLog (newDate _) => apply passes_keeps, passes_consult; reflexivity
  | |- keeps storeLog (consult _) => apply passes_keeps, passes_consult; reflexivity
  | |- keeps storeLog (toast _ _ _) =>
      apply passes_keeps, passes_emit; intros ?; now apply storeLog_emit
  | |- keeps storeLog (emit (AiStreamText _)) =>
      apply passes_keeps, passes_emit; intros ?; now apply storeLog_emit
  | |- keeps storeLog (setConversations _) => apply passes_keeps, passes_modify; reflexivity
  | |- keeps storeLog (setCurrentConversationId _) =>
      apply passes_keeps, passes_modify; reflexivity
  | |- keeps storeLog (setIsLoading _) => apply passes_keeps, passes_modify; reflexivity
  | |- keeps storeLog (match ?x with _ => _ end) => destruct x; offline
  | |- keeps storeLog (if ?x then _ else _) => destruct x; offline
  end.

Section Offline.
Context `{Runtime}.
Variable env : Env.
Variable render : State.t.
Hypothesis Hout : signedIn render = None.

Lemma offline_createNewConversation : keeps storeLog (createNewConversation env render).
Proof. unfold createNewConversation. rewrite Hout. offline. Qed.

Lemma offline_startNewConversation : keeps storeLog (startNewConversation env render).
Proof.
  unfold startNewConversation.
  apply keeps_bind; [apply offline_createNewConversation | intros c]. offline.
Qed.

Lemma offline_deleteConversation (id : string) :
  keeps storeLog (deleteConversation env render id).
Proof. unfold deleteConversation. rewrite Hout. offline. Qed.

Lemma offline_addMessage (cid : string) (message : Message.t) :
  keeps storeLog (addMessage env render cid message).
Proof. unfold addMessage. rewrite Hout. offline. Qed.

Lemma offline_updateConversationTitle (cid firstMessage : string) :
  keeps storeLog (updateConversationTitle env render cid firstMessage).
Proof. unfold updateConversationTitle. rewrite Hout. cbv zeta. offline. Qed.

Lemma offline_onChunks (cid mid : string) (chunks : list string) (streamingText : string) :
  keeps storeLog (onChunks env cid mid streamingText chunks).
Proof.
  revert streamingText. induction chunks as [| chunk rest IH]; intros streamingText;
    cbn [onChunks]; [offline |]. cbv zeta.
  apply keeps_bind; [offline | intros now].
  apply keeps_bind; [offline | intros _]. apply IH.
Qed.

Lemma offline_streamText (cid mid : string) (messages : list AiMessage.t) :
  keeps storeLog (streamText env cid mid messages).
Proof.
  unfold streamText.
  apply keeps_bind; [offline | intros _].
  apply keeps_bind; [offline | intros answer].
  apply keeps_bind; [apply offline_onChunks | intros streamingText]. offline.
Qed.

Lemma offline_sendMessage_try (content cid : string) (conversation : Conversation.t) :
  keeps storeLog (sendMessage_try env render content cid conversation).
Proof.
  unfold sendMessage_try. rewrite Hout.
  apply keeps_bind; [offline | intros userMessageId].
  apply keeps_bind; [offline | intros userTimestamp]. cbv zeta.
  apply keeps_bind; [apply offline_addMessage | intros _].
  apply keeps_bind;
    [destruct (_ =? _)%nat; [apply offline_updateConversationTitle | offline] | intros _].
  apply keeps_bind; [offline | intros assistantMessageId].
  apply keeps_bind; [offline | intros assistantTimestamp]. cbv zeta.
  apply keeps_bind; [offline | intros now].
  apply keeps_bind; [offline | intros _].
  apply keeps_bind; [apply offline_streamText | intros streamed]. cbv zeta.
  offline.
Qed.

Lemma offline_sendMessage_catch (conversationId : option string) :
  keeps storeLog (sendMessage_catch env conversationId).
Proof. unfold sendMessage_catch. offline. Qed.

Lemma offline_sendMessage_fresh (content : string) :
  keeps storeLog (sendMessage_fresh env render content).
Proof.
  unfold sendMessage_fresh.
  apply keeps_bind.
  - apply passes_keeps, passes_attempt.
    apply keeps_bind; [apply offline_createNewConversation | intros c]. offline.
  - intros [newConversation | e]; [| apply offline_sendMessage_catch]. cbv zeta.
    apply keeps_try_catch; [| intros _; apply offline_sendMessage_catch].
    apply keeps_bind; [offline | intros _]. apply offline_sendMessage_try.
Qed.

Lemma offline_sendMessage (content : string) :
  keeps storeLog (sendMessage env render content).
Proof.
  unfold sendMessage. destruct (falsy (trim content)); [offline |].
  apply keeps_bind; [offline | intros _]. cbv zeta.
  apply keeps_finally; [| offline].
  destruct (State.currentConversationId render) as [cid |];
    [| apply offline_sendMessage_fresh].
  destruct (findConversation render (Some cid)); [| apply offline_sendMessage_fresh].
  destruct (falsy cid); [apply offline_sendMessage_fresh |].
  apply keeps_try_catch;
    [apply offline_sendMessage_try | intros _; apply offline_sendMessage_catch].
Qed.

End Offline.

(** No operation of the hook touches the user or the sign-in flag. *)
Lemma perform_user `{Runtime} (env : Env) (w : World) (op : Operation) :
  State.user (state (perform env w op)) = State.user (state w)
  /\ State.isAuthenticated (state (perform env w op)) = State.isAuthenticated (state w).
Proof.
  unfold perform. destruct op as [| id | id | content].
  - destruct (startNewConversation_runs env w) as (c & w1 & E). rewrite E. now split.
  - now split.
  - cbn [run].
    destruct (deleteConversation_cases env (state w) id w) as (_ & [S1 | S1]);
      rewrite S1; now split.
  - cbn [run]. destruct (falsy (trim content)) eqn:Hblank.
    + unfold sendMessage. rewrite Hblank. now split.
    + apply falsy_false in Hblank.
      destruct (selected (state w)) as [found |] eqn:Hsel.
      * destruct (selected_Some (state w) found Hsel) as (Hcur & Hcid & Hfind).
        destruct (sendMessage_selected_state env (state w) content (Conversation.id found)
                    found w Hblank Hcur Hcid Hfind) as (F & _ & _ & SF).
        rewrite SF. now split.
      * destruct (sendMessage_unselected_state env (state w) content w Hblank Hsel)
          as (nc & F & _ & _ & _ & _ & SF).
        rewrite SF. now split.
Qed.

(** X14.  While nobody is signed in, no sequence of operations of the hook
    calls the store: conversations are started, sent into and deleted
    without a single list, create, update or delete call, and the hook
    stays signed out. *)
Theorem signed_out_nothing_reaches_the_store :
  forall `{Runtime} (env : Env) (ops : list Operation) (w : World),
    signedIn (state w) = None ->
    storeLog (performAll env ops w) = storeLog w
    /\ signedIn (state (performAll env ops w)) = None.
Proof.
  intros R env ops. induction ops as [| op ops IH]; intros w Hout; [now split |].
  cbn [performAll fold_left].
  assert (Hstep : storeLog (perform env w op) = storeLog w).
  { unfold perform. destruct op as [| id | id | content]; cbn [run].
    - now apply offline_startNewConversation.
    - reflexivity.
    - now apply offline_deleteConversation.
    - now apply offline_sendMessage. }
  assert (Hstill : signedIn (state (perform env w op)) = None).
  { destruct (perform_user env w op) as (Hu & Ha). unfold signedIn in *.
    now rewrite Hu, Ha. }
  destruct (IH (perform env w op) Hstill) as (Hlog & Hsigned).
  split; [| exact Hsigned].
  change (fold_left (perform env) ops (perform env w op))
    with (performAll env ops (perform env w op)).
  congruence.
Qed.

Lemma signed_out_nothing_reaches_the_store_witness :
  let s := Scenario.hook None [Scenario.newChat; Walkthrough.otherChat] in
  storeLog
    (@performAll Reference.runtime Walkthrough.readOnly
       [SendMessage "hi"; StartNewConversation; SendMessage "again"; DeleteConversation "c2"]
       (Scenario.start s)) = [].
Proof.
  cbv zeta.
  destruct (@signed_out_nothing_reaches_the_store Reference.runtime Walkthrough.readOnly
              [SendMessage "hi"; StartNewConversation; SendMessage "again";
               DeleteConversation "c2"]
              (Scenario.start (Scenario.hook None [Scenario.newChat; Walkthrough.otherChat]))
              eq_refl)
    as (Hlog & _).
  exact Hlog.
Defined.

(** ** What a send writes to the store *)

Lemma storeLog_call (ev : Event) (w : World) (t : nat) :
  isStoreCall ev = true ->
  storeLog {| state := state w; trace := trace w ++ [ev]; tick := t |} = storeLog w ++ [ev].
Proof.
  intros Hev. unfold storeLog. cbn [trace]. rewrite filter_app. cbn [filter].
  now rewrite Hev.
Qed.

Lemma storeLog_try_catch {A} (t : Task A) (h : Exn -> Task A) (w : World) :
  (forall e, keeps storeLog (h e)) ->
  storeLog (snd (try_catch t h w)) = storeLog (snd (t w)).
Proof.
  intros Kh. unfold try_catch. destruct (t w) as [[a | e] w1]; [reflexivity | apply Kh].
Qed.

Lemma storeLog_finally {A} (t : Task A) (c : Task unit) (w : World) :
  keeps storeLog c -> storeLog (snd (finally t c w)) = storeLog (snd (t w)).
Proof.
  intros Kc. unfold finally. destruct (t w) as [r w1]. specialize (Kc w1).
  destruct (c w1) as [[[] | e] w2]; exact Kc.
Qed.

Section StoreFacts.
Context `{Runtime}.
Variable env : Env.
Variable render : State.t.

Lemma passes_storeLog_generateId : passes storeLog (generateId env).
Proof. apply passes_consult. reflexivity. Qed.

Lemma passes_storeLog_newDate : passes storeLog (newDate env).
Proof. apply passes_consult. reflexivity. Qed.

Lemma passes_storeLog_setConversations f : passes storeLog (setConversations f).
Proof. apply passes_modify. reflexivity. Qed.

(** [new Date()] is a time. *)
Lemma newDate_stamps (w : World) :
  exists ms w', newDate env w = (Returned (DateAt ms), w') /\ storeLog w' = storeLog w.
Proof. eexists. eexists. split; reflexivity. Qed.

(** The record of a message whose timestamp is a time and whose sources,
    if it has any, are a list of strings. *)
Lemma createDbMessage_stamped (m : Message.t) (cid uid : string) (ms : Z)
  (listed : option (list string)) :
  Message.timestamp m = DateAt ms ->
  Message.sources m = option_map strings listed ->
  exists r,
    createDbMessage m cid uid = Returned r
    /\ recordOf cid uid (MessageType_to_string (Message.type m)) (Message.content m)
         (citationsColumn listed) r.
Proof.
  intros Ht Hs. unfold createDbMessage, hasSources. rewrite Ht, Hs.
  destruct listed as [[| source sources] |];
    cbn [option_map strings map truthy lengthAboveZero List.length Nat.ltb Nat.leb
         toISOString];
    (eexists; split; [reflexivity |]); unfold recordOf;
    cbn [DbMessage.conversation_id DbMessage.user_id DbMessage.type DbMessage.content
         DbMessage.sources DbMessage.timestamp citationsColumn];
    repeat split; now exists ms.
Qed.

(** A write of a message record is attempted whatever the store answers;
    a rejection is reported by a toast. *)
Lemma persist_stores (r : DbMessage.t) (title description variant : string) (w : World) :
  exists w',
    try_catch
      (dbMessageData <- lift (Returned r) ;;
       await (DbMessagesCreate dbMessageData)
         (fun t => db_messages_create env t dbMessageData))
      (fun _ => toast title description variant) w
    = (Returned tt, w')
    /\ storeLog w' = storeLog w ++ [DbMessagesCreate r].
Proof.
  destruct (db_messages_create env (tick w) r) as [[] | e] eqn:E;
    cbv beta iota delta [try_catch bind lift ret await emit consult toast throw];
    cbn [state trace tick]; rewrite E;
    (eexists; split; [reflexivity |]).
  - now apply storeLog_call.
  - unfold storeLog. cbn [trace]. rewrite !filter_app. cbn [filter isStoreCall].
    now rewrite app_nil_r.
Qed.

Lemma addMessage_stores (u : User.t) (cid : string) (message : Message.t) (ms : Z)
  (listed : option (list string)) (w : World) :
  signedIn render = Some u ->
  Message.timestamp message = DateAt ms ->
  Message.sources message = option_map strings listed ->
  exists r w',
    addMessage env render cid message w = (Returned tt, w')
    /\ storeLog w' = storeLog w ++ [DbMessagesCreate r]
    /\ recordOf cid (User.id u) (MessageType_to_string (Message.type message))
         (Message.content message) (citationsColumn listed) r.
Proof.
  intros Hu Ht Hs. unfold addMessage. rewrite Hu.
  destruct (createDbMessage_stamped message cid (User.id u) ms listed Ht Hs)
    as (r & Er & Hr).
  rewrite Er.
  destruct (persist_stores r "Warning"
              "Failed to save message to database. Your conversation may not persist."
              "destructive" w) as (w1 & E1 & L1).
  rewrite (bind_Returned _ _ _ _ _ E1).
  exists r. eexists. split; [reflexivity |]. split; [exact L1 | exact Hr].
Qed.

Lemma updateConversationTitle_stores (u : User.t) (cid firstMessage : string) (w : World) :
  signedIn render = Some u ->
  exists w',
    updateConversationTitle env render cid firstMessage w = (Returned tt, w')
    /\ storeLog w' = storeLog w ++ [DbConversationsUpdate cid (titleFrom firstMessage)].
Proof.
  intros Hu. unfold updateConversationTitle. rewrite Hu. cbv zeta.
  destruct (db_conversations_update env (tick w) cid (titleFrom firstMessage))
    as [[] | e] eqn:E;
    cbv beta iota delta [try_catch bind await emit consult newDate setConversations modify
                           ret throw];
    cbn [state trace tick]; rewrite E;
    (eexists; split; [reflexivity |]); now apply storeLog_call.
Qed.

Lemma onChunks_returns (cid mid : string) (chunks : list string) :
  forall (text : string) (w : World),
    exists w',
      onChunks env cid mid text chunks w
      = (Returned (text ++ String.concat "" chunks)%string, w')
      /\ storeLog w' = storeLog w.
Proof.
  induction chunks as [| chunk rest IH]; intros text w.
  - exists w. cbn [onChunks String.concat]. now rewrite append_nil_r.
  - cbn [onChunks]. cbv zeta.
    destruct (newDate_stamps w) as (ms & w1 & E1 & L1).
    rewrite (bind_Returned _ _ _ _ _ E1).
    destruct (passes_storeLog_setConversations
                (updateWhere cid
                   (withMessagesMapped mid (streamingInto (text ++ chunk)) (DateAt ms))) w1)
      as ([] & w2 & E2 & L2).
    rewrite (bind_Returned _ _ _ _ _ E2).
    destruct (IH (text ++ chunk)%string w2) as (w3 & E3 & L3).
    exists w3. rewrite E3. split; [| congruence].
    now rewrite concat_empty_cons, append_assoc.
Qed.

Lemma streamText_stores (cid mid : string) (messages : list AiMessage.t)
  (chunks : list string) (outcome : Outcome (option (list string))) (w : World) :
  (forall t messages, ai_streamText env t messages = (chunks, outcome)) ->
  exists w',
    streamText env cid mid messages w
    = (match outcome with
       | Returned result => Returned (String.concat "" chunks, result)
       | Thrown e => Thrown e
       end, w')
    /\ storeLog w' = storeLog w.
Proof.
  intros Hstream. unfold streamText.
  unfold bind at 1 2. cbn [emit consult]. rewrite Hstream. cbn [fst snd].
  set (w1 := {| state := _; trace := _; tick := S _ |}).
  assert (L1 : storeLog w1 = storeLog w) by (unfold w1; now apply storeLog_emit).
  destruct (onChunks_returns cid mid chunks "" w1) as (w2 & E2 & L2).
  rewrite (bind_Returned _ _ _ _ _ E2).
  exists w2. split; [now destruct outcome | congruence].
Qed.

(** The write of the reply at the end of the [try]. *)
Lemma reply_stores (u : User.t) (cid mid text : string) (sources : list string)
  (w : World) :
  exists r w',
    try_catch
      (finalTimestamp <- newDate env ;;
       dbMessageData <-
         lift (createDbMessage
                 {| Message.id := mid;
                    Message.type := assistant;
                    Message.content := text;
                    Message.timestamp := finalTimestamp;
                    Message.isLoading := None;
                    Message.sources :=
                      if (0 <? List.length sources)%nat
                      then Some (strings sources) else None |}
                 cid (User.id u)) ;;
       await (DbMessagesCreate dbMessageData)
         (fun t => db_messages_create env t dbMessageData))
      (fun _ => toast "Warning" "Failed to save response to database." "destructive") w
    = (Returned tt, w')
    /\ storeLog w' = storeLog w ++ [DbMessagesCreate r]
    /\ recordOf cid (User.id u) "assistant" text (citationsColumn (Some sources)) r.
Proof.
  set (message ms :=
         {| Message.id := mid;
            Message.type := assistant;
            Message.content := text;
            Message.timestamp := DateAt ms;
            Message.isLoading := None;
            Message.sources :=
              if (0 <? List.length sources)%nat then Some (strings sources) else None |}).
  assert (Hs : forall ms,
             Message.sources (message ms)
             = option_map strings (match sources with [] => None | _ => Some sources end))
    by (intros ms; now destruct sources).
  destruct (createDbMessage_stamped (message (Date_now env (tick w))) cid (User.id u)
              (Date_now env (tick w)) _ eq_refl (Hs _)) as (r & Er & Hr).
  destruct (persist_stores r "Warning" "Failed to save response to database." "destructive"
              {| state := state w; trace := trace w; tick := S (tick w) |})
    as (w1 & E1 & L1).
  exists r, w1. split; [| split; [exact L1 |]].
  - unfold try_catch in *. unfold bind at 1. cbn [newDate consult].
    fold (message (Date_now env (tick w))). rewrite Er. exact E1.
  - cbn [message Message.type Message.content Message.sources MessageType_to_string] in Hr.
    now destruct sources.
Qed.

(** The store calls of the [try] of [sendMessage], for a signed-in user. *)
Lemma sendMessage_try_stores (u : User.t) (content cid : string)
  (conversation : Conversation.t) (chunks : list string)
  (outcome : Outcome (option (list string))) (w : World) :
  signedIn render = Some u ->
  (forall t messages, ai_streamText env t messages = (chunks, outcome)) ->
  exists userRecord rest,
    storeLog (snd (sendMessage_try env render content cid conversation w))
    = storeLog w
      ++ DbMessagesCreate userRecord
         :: (if (List.length (Conversation.messages conversation) =? 0)%nat
             then [DbConversationsUpdate cid (titleFrom content)] else [])
         ++ rest
    /\ recordOf cid (User.id u) "user" content None userRecord
    /\ match outcome with
       | Returned result =>
           exists replyRecord,
             rest = [DbMessagesCreate replyRecord]
             /\ recordOf cid (User.id u) "assistant" (String.concat "" chunks)
                  (citationsColumn result) replyRecord
       | Thrown _ => rest = []
       end.
Proof.
  intros Hu Hstream. unfold sendMessage_try. rewrite Hu.
  step (passes_storeLog_generateId w) as i1 w1 E1 L1.
  destruct (newDate_stamps w1) as (ms2 & w2 & E2 & L2).
  rewrite (bind_Returned _ _ _ _ _ E2). cbv beta zeta.
  match goal with |- context [addMessage env render cid ?m] => set (userMessage := m) end.
  destruct (addMessage_stores u cid userMessage ms2 None w2 Hu eq_refl eq_refl)
    as (r3 & w3 & E3 & L3 & Hr3).
  rewrite (bind_Returned _ _ _ _ _ E3).
  set (titleCalls := if (List.length (Conversation.messages conversation) =? 0)%nat
                     then [DbConversationsUpdate cid (titleFrom content)] else []).
  assert (S4 : exists w4,
             (if (List.length (Conversation.messages conversation) =? 0)%nat
              then updateConversationTitle env render cid content
              else ret tt) w3 = (Returned tt, w4)
             /\ storeLog w4 = storeLog w3 ++ titleCalls).
  { unfold titleCalls. destruct (List.length (Conversation.messages conversation) =? 0)%nat.
    - apply (updateConversationTitle_stores u cid content w3 Hu).
    - exists w3. now rewrite app_nil_r. }
  destruct S4 as (w4 & E4 & L4). rewrite (bind_Returned _ _ _ _ _ E4).
  step (passes_storeLog_generateId w4) as mid w5 E5 L5.
  step (passes_storeLog_newDate w5) as t5 w6 E6 L6. cbv beta zeta.
  step (passes_storeLog_newDate w6) as n7 w7 E7 L7.
  match goal with |- context [setConversations ?f] =>
    destruct (passes_storeLog_setConversations f w7) as ([] & w8 & E8 & L8) end.
  rewrite (bind_Returned _ _ _ _ _ E8).
  destruct (streamText_stores cid mid (messagesForAI conversation content)
              chunks outcome w8 Hstream) as (w9 & E9 & L9).
  assert (L9' : storeLog w9 = storeLog w ++ DbMessagesCreate r3 :: titleCalls).
  { rewrite L9, L8, L7, L6, L5, L4, L3, L2, L1. now rewrite <- app_assoc. }
  exists r3.
  destruct outcome as [result | e].
  - rewrite (bind_Returned _ _ _ _ _ E9). cbv beta zeta. cbn [fst snd].
    destruct (newDate_stamps w9) as (ms10 & w10 & E10 & L10).
    rewrite (bind_Returned _ _ _ _ _ E10).
    match goal with |- context [setConversations ?f] =>
      destruct (passes_storeLog_setConversations f w10) as ([] & w11 & E11 & L11) end.
    rewrite (bind_Returned _ _ _ _ _ E11).
    destruct (reply_stores u cid mid (String.concat "" chunks)
                (match result with Some l => l | None => [] end) w11)
      as (r12 & w12 & E12 & L12 & Hr12).
    rewrite E12. cbn [snd].
    exists [DbMessagesCreate r12]. split; [| split; [exact Hr3 |]].
    + rewrite L12, L11, L10, L9'. rewrite <- app_assoc. reflexivity.
    + exists r12. split; [reflexivity |].
      unfold citationsColumn. now destruct result as [[| source sources] |].
  - rewrite (bind_Thrown _ _ _ _ _ E9). cbn [snd].
    exists []. split; [| split; [exact Hr3 | reflexivity]].
    rewrite L9'. now rewrite app_nil_r.
Qed.

End StoreFacts.

(** X15.  A send of a signed-in user into the selected conversation calls the
    store in this order, whatever the store answers: the user's message
    is written first; then the title is updated if the conversation was
    empty; then, if the generation returned, the reply is written, with
    the streamed text as content and the citations of the result as
    sources, absent when there are none.  If the generation failed, no
    reply is written: neither the partial text nor the error message of
    the conversation reaches the store. *)
Theorem a_send_writes_the_message_and_then_the_reply :
  forall `{Runtime} (env : Env) (w : World) (u : User.t) (found : Conversation.t)
         (content : string) (chunks : list string)
         (outcome : Outcome (option (list string))),
    signedIn (state w) = Some u ->
    selected (state w) = Some found ->
    trim content <> "" ->
    (forall t messages, ai_streamText env t messages = (chunks, outcome)) ->
    exists userRecord rest,
      storeLog (perform env w (SendMessage content))
      = storeLog w
        ++ DbMessagesCreate userRecord
           :: (if (List.length (Conversation.messages found) =? 0)%nat
               then [DbConversationsUpdate (Conversation.id found) (titleFrom content)]
               else [])
           ++ rest
      /\ recordOf (Conversation.id found) (User.id u) "user" content None userRecord
      /\ match outcome with
         | Returned result =>
             exists replyRecord,
               rest = [DbMessagesCreate replyRecord]
               /\ recordOf (Conversation.id found) (User.id u) "assistant"
                    (String.concat "" chunks) (citationsColumn result) replyRecord
         | Thrown _ => rest = []
         end.
Proof.
  intros R env w u found content chunks outcome Hu Hsel Hcontent Hstream.
  destruct (selected_Some (state w) found Hsel) as (Hcur & Hcid & Hfind).
  set (w1 := {| state := state (snd (setIsLoading true w)); trace := trace w;
                tick := tick w |}).
  destruct (sendMessage_try_stores env (state w) u content (Conversation.id found) found
              chunks outcome w1 Hu Hstream) as (userRecord & rest & Hlog & Hrecord & Hrest).
  exists userRecord, rest. split; [| split; [exact Hrecord | exact Hrest]].
  change (storeLog w1) with (storeLog w) in Hlog.
  rewrite <- Hlog. unfold perform, run, sendMessage.
  apply falsy_false in Hcontent, Hcid. rewrite Hcontent, Hcur.
  change (findConversation (state w) (Some (Conversation.id found)))
    with (conversationOf (state w) (Conversation.id found)).
  rewrite Hfind, Hcid. cbv zeta. unfold bind at 1.
  change (setIsLoading true w) with (Returned tt, w1).
  cbv beta iota.
  rewrite storeLog_finally by (apply passes_keeps, passes_modify; reflexivity).
  apply storeLog_try_catch. intros _. apply offline_sendMessage_catch.
Qed.

Lemma a_send_writes_the_message_and_then_the_reply_witness :
  let s := Scenario.hook (Some Scenario.alice) [Scenario.newChat] in
  exists userRecord replyRecord,
    storeLog (@perform Reference.runtime Scenario.fair (Scenario.start s) (SendMessage "hi"))
    = [DbMessagesCreate userRecord; DbConversationsUpdate "c1" "hi";
       DbMessagesCreate replyRecord]
    /\ DbMessage.content userRecord = "hi"
    /\ DbMessage.content replyRecord = "Hello world"
    /\ DbMessage.sources replyRecord = None.
Proof.
  cbv zeta.
  destruct (@a_send_writes_the_message_and_then_the_reply Reference.runtime Scenario.fair
              (Scenario.start (Scenario.hook (Some Scenario.alice) [Scenario.newChat]))
              Scenario.alice Scenario.newChat "hi" ["Hel"; "lo"; " world"] (Returned None))
    as (userRecord & rest & Hlog & Hu & replyRecord & -> & Hr).
  - reflexivity.
  - reflexivity.
  - vm_compute. discriminate.
  - intros t messages. reflexivity.
  - exists userRecord, replyRecord. split; [exact Hlog |].
    destruct Hu as (_ & _ & _ & Hc & _). destruct Hr as (_ & _ & _ & Hc' & Hs & _).
    split; [exact Hc |]. split; [exact Hc' | exact Hs].
Defined.
